(** * adept: Vlasov-Poisson-Fokker-Planck stepping, a shallow embedding

    The Python sources under [adept/vlasov1d] and [adept/vfp1d] are
    transcribed function by function.  float64 arrays become lists of exact
    rationals ([Q]); numpy's elementwise operators keep their broadcasting
    rules and fail ([None]) where numpy raises.  Operators whose source is not
    part of the transcribed files (field solver, advection pushers, drivers,
    wave solver, transcendental functions) are taken as parameters. *)

From Stdlib Require Import QArith Qfield Qabs Lia Lqa.
From stdpp Require Import base option list gmap strings.

Open Scope Q_scope.

(** ** numpy arrays of rank at most two *)

Module jnp.

Inductive ndarray :=
| Scalar (x : Q)
| Arr1 (v : list Q)
| Arr2 (m : list (list Q)).

(** A computation that may raise; Python's [None] argument is also [None]:
    every arithmetic operator raises [TypeError] on it. *)
Definition val := option ndarray.

(** Broadcasting of one axis: equal lengths are zipped, an axis of length one
    is stretched, anything else is a shape error. *)
Definition broadcast {A B C} (op : A -> B -> option C)
    (x : list A) (y : list B) : option (list C) :=
  if decide (length x = length y) then mapM (fun p => op p.1 p.2) (zip x y)
  else match x, y with
       | [a], _ => mapM (op a) y
       | _, [b] => mapM (fun a => op a b) x
       | _, _ => None
       end.

Definition rowop (op : Q -> Q -> Q) : list Q -> list Q -> option (list Q) :=
  broadcast (fun a b => Some (op a b)).

Definition matop (op : Q -> Q -> Q)
  : list (list Q) -> list (list Q) -> option (list (list Q)) :=
  broadcast (rowop op).

Definition binop (op : Q -> Q -> Q) (x y : ndarray) : val :=
  match x, y with
  | Scalar a, Scalar b => Some (Scalar (op a b))
  | Scalar a, Arr1 w => Some (Arr1 (map (op a) w))
  | Arr1 v, Scalar b => Some (Arr1 (map (fun a => op a b) v))
  | Scalar a, Arr2 n => Some (Arr2 (map (map (op a)) n))
  | Arr2 m, Scalar b => Some (Arr2 (map (map (fun a => op a b)) m))
  | Arr1 v, Arr1 w => Arr1 <$> rowop op v w
  | Arr1 v, Arr2 n => Arr2 <$> matop op [v] n
  | Arr2 m, Arr1 w => Arr2 <$> matop op m [w]
  | Arr2 m, Arr2 n => Arr2 <$> matop op m n
  end.

Definition lift2 (op : Q -> Q -> Q) (x y : val) : val :=
  a ← x; b ← y; binop op a b.

Definition map_arr (g : Q -> Q) (x : ndarray) : ndarray :=
  match x with
  | Scalar a => Scalar (g a)
  | Arr1 v => Arr1 (map g v)
  | Arr2 m => Arr2 (map (map g) m)
  end.

Definition add := lift2 Qplus.
Definition sub := lift2 Qminus.
Definition mul := lift2 Qmult.
Definition div := lift2 Qdiv.
Definition neg (x : val) : val := map_arr Qopp <$> x.
(** [x ** 2.0] *)
Definition sq (x : val) : val := map_arr (fun a => a ^ 2) <$> x.
Definition lit (q : Q) : val := Some (Scalar q).

(** [x[:, None]] and [x[None, :]] on a rank-one array. *)
Definition col (x : val) : val :=
  a ← x; match a with Arr1 v => Some (Arr2 (map (fun q => [q]) v)) | _ => None end.
Definition row (x : val) : val :=
  a ← x; match a with Arr1 v => Some (Arr2 [v]) | _ => None end.

(** [trapz(y, dx=dx)] along one row: the sum of [dx * (y[i+1] + y[i]) / 2]. *)
Fixpoint trapz_row (dx : Q) (y : list Q) : Q :=
  match y with
  | y0 :: tl =>
      match tl with
      | y1 :: _ => dx * (y1 + y0) / 2 + trapz_row dx tl
      | [] => 0
      end
  | [] => 0
  end.

(** [trapz(y, dx=dx, axis=1)]; axis 1 does not exist below rank two. *)
Definition trapz (dx : Q) (y : val) : val :=
  a ← y; match a with Arr2 m => Some (Arr1 (map (trapz_row dx) m)) | _ => None end.

(** [roll(v, shift)] on a rank-one array: [out[i] = v[(i - shift) mod n]]. *)
Definition roll_list (shift : Z) (v : list Q) : list Q :=
  rotate (Z.to_nat ((- shift) mod Z.of_nat (length v))) v.
Definition roll (x : val) (shift : Z) : val :=
  a ← x; match a with Arr1 v => Some (Arr1 (roll_list shift v)) | _ => None end.

(** [ones((nx, nv))] *)
Definition ones (nx nv : nat) : val := Some (Arr2 (replicate nx (replicate nv 1))).

(** [sum(f, axis=1)] *)
Definition sum_row (y : list Q) : Q := foldr Qplus 0 y.
Definition sum_axis1 (y : val) : val :=
  a ← y; match a with Arr2 m => Some (Arr1 (map sum_row m)) | _ => None end.

(** [np.any(x > 0.0)] *)
Definition gt0 (a : Q) : bool := negb (Qle_bool a 0).
Definition any_pos (x : ndarray) : bool :=
  match x with
  | Scalar a => gt0 a
  | Arr1 v => existsb gt0 v
  | Arr2 m => existsb (existsb gt0) m
  end.

End jnp.

Declare Scope np_scope.
Delimit Scope np_scope with np.
Bind Scope np_scope with jnp.val.
Notation "x + y" := (jnp.add x y) : np_scope.
Notation "x - y" := (jnp.sub x y) : np_scope.
Notation "x * y" := (jnp.mul x y) : np_scope.
Notation "x / y" := (jnp.div x y) : np_scope.
Notation "- x" := (jnp.neg x) : np_scope.

(** ** Exceptions raised while a simulation is set up *)

Inductive exn :=
| NotImplementedError (msg : string)
| ValueError (msg : string)
| UnboundLocalError (name : string)
| KeyError (key : string)
(** any exception raised inside array arithmetic or a library call *)
| LibraryError.

Inductive result (A : Type) :=
| Ok (a : A)
| Raise (e : exn).
Arguments Ok {A} a.
Arguments Raise {A} e.

Definition bind_result {A B} (m : result A) (k : A -> result B) : result B :=
  match m with Ok a => k a | Raise e => Raise e end.

Definition of_option {A} (o : option A) (e : exn) : result A :=
  match o with Some a => Ok a | None => Raise e end.

(** ** The configuration dictionary

    One record holds the entries of [cfg] that the transcribed code reads;
    string-valued entries stay strings, since the code dispatches on them. *)

Record config := {
  grid_x : list Q;
  grid_x_a : list Q;
  grid_v : list Q;
  grid_dx : Q;
  grid_dv : Q;
  grid_dt : Q;
  grid_beta : Q;
  grid_nx : nat;
  grid_nv : nat;
  nuee : jnp.ndarray;
  solver_fp_operator : string;
  terms_edfdv : string;
  terms_time : string;
  terms_fokker_planck_is_on : bool;
  terms_krook_is_on : bool
}.

(** ** adept/vlasov1d/pushers/fokker_planck.py *)

Module Krook.
Section WithExp.
(** [np.exp] / [jnp.exp] on one float. *)
Variable exp : Q -> Q.

Record t := { cfg : config; f_mx : jnp.val; dv : Q }.

Definition vx_moment (self : t) : jnp.val -> jnp.val := jnp.trapz (dv self).

Definition __init__ (cfg : config) : t :=
  let f_mx :=
    (jnp.map_arr exp <$>
       (- jnp.sq (jnp.row (Some (jnp.Arr1 (grid_v cfg)))) / jnp.lit 2))%np in
  {| cfg := cfg;
     f_mx := (f_mx / jnp.col (jnp.trapz (grid_dv cfg) f_mx))%np;
     dv := grid_dv cfg |}.

Definition __call__ (self : t) (nu_K : option jnp.ndarray) (f_xv : jnp.ndarray)
    (dt : Q) : jnp.val :=
  let f_xv := Some f_xv in
  let nu_Kxdt := (jnp.lit dt * jnp.col nu_K)%np in
  let exp_nuKxdt := jnp.map_arr exp <$> (- nu_Kxdt)%np in
  let n_prof := vx_moment self f_xv in
  (f_xv * exp_nuKxdt + jnp.col n_prof * f_mx self * (jnp.lit 1 - exp_nuKxdt))%np.
End WithExp.
End Krook.

Module LenardBernstein.
Record t := { cfg : config; v : jnp.val; dv : Q; ones : jnp.val }.

Definition vx_moment (self : t) : jnp.val -> jnp.val := jnp.trapz (dv self).

Definition __init__ (cfg : config) : t :=
  {| cfg := cfg; v := Some (jnp.Arr1 (grid_v cfg)); dv := grid_dv cfg;
     ones := jnp.ones (grid_nx cfg) (grid_nv cfg) |}.

Definition __call__ (self : t) (nu : option jnp.ndarray) (f_xv : jnp.ndarray)
    (dt : Q) : option (jnp.ndarray * jnp.ndarray * jnp.ndarray) :=
  let f_xv := Some f_xv in
  let dv := jnp.lit (dv self) in
  let v0t_sq := vx_moment self (f_xv * jnp.sq (jnp.row (v self)))%np in
  a ← (nu * jnp.lit dt
       * (- jnp.col v0t_sq / jnp.sq dv
          + jnp.row (jnp.roll (v self) 1) / jnp.lit 2 / dv))%np;
  b ← (jnp.lit 1
       + nu * jnp.lit dt * ones self * (jnp.lit 2 * jnp.col v0t_sq / jnp.sq dv))%np;
  c ← (nu * jnp.lit dt
       * (- jnp.col v0t_sq / jnp.sq dv
          - jnp.row (jnp.roll (v self) (-1)) / jnp.lit 2 / dv))%np;
  Some (a, b, c).
End LenardBernstein.

Module Dougherty.
Record t := { cfg : config; v : jnp.val; dv : Q; ones : jnp.val }.

Definition vx_moment (self : t) : jnp.val -> jnp.val := jnp.trapz (dv self).

Definition __init__ (cfg : config) : t :=
  {| cfg := cfg; v := Some (jnp.Arr1 (grid_v cfg)); dv := grid_dv cfg;
     ones := jnp.ones (grid_nx cfg) (grid_nv cfg) |}.

(** The two moments, named as in the body of [__call__]. *)
Definition vbar (self : t) (f_xv : jnp.val) : jnp.val :=
  vx_moment self (f_xv * jnp.row (v self))%np.

Definition v0t_sq (self : t) (f_xv : jnp.val) : jnp.val :=
  vx_moment self (f_xv * jnp.sq (jnp.row (v self) - jnp.col (vbar self f_xv)))%np.

Definition __call__ (self : t) (nu : option jnp.ndarray) (f_xv : jnp.ndarray)
    (dt : Q) : option (jnp.ndarray * jnp.ndarray * jnp.ndarray) :=
  let f_xv := Some f_xv in
  let dv := jnp.lit (dv self) in
  let vbar := vbar self f_xv in
  let v0t_sq := v0t_sq self f_xv in
  a ← (nu * jnp.lit dt
       * (- jnp.col v0t_sq / jnp.sq dv
          + (jnp.row (jnp.roll (v self) 1) - jnp.col vbar) / jnp.lit 2 / dv))%np;
  b ← (jnp.lit 1
       + nu * jnp.lit dt * ones self * (jnp.lit 2 * jnp.col v0t_sq / jnp.sq dv))%np;
  c ← (nu * jnp.lit dt
       * (- jnp.col v0t_sq / jnp.sq dv
          - (jnp.row (jnp.roll (v self) (-1)) - jnp.col vbar) / jnp.lit 2 / dv))%np;
  Some (a, b, c).
End Dougherty.

Module TridiagonalSolver.
(** [adept.vlasov2d.solver.tridiagonal] is not among the transcribed files;
    this module follows section 4.5 of the specification: given per-cell
    diagonals (a, b, c) and the current f as right-hand side, the solver
    solves the implicit system for every spatial cell independently (batched
    Thomas algorithm). *)
Record t := { cfg : config }.

Definition __init__ (cfg : config) : t := {| cfg := cfg |}.

(** One equation [a * x_prev + b * x + c * x_next = d]. *)
Definition eqn : Type := Q * Q * Q * Q.

(** Modelled from the spec: the forward sweep of the Thomas algorithm, whose
    source is missing.  It carries the modified coefficients [(c', d')] of
    the previous equation, starting from [(0, 0)]. *)
Fixpoint forward (cp dp : Q) (rows : list eqn) : list (Q * Q) :=
  match rows with
  | [] => []
  | (a, b, c, d) :: rest =>
      let den := b - a * cp in
      let cp' := c / den in
      let dp' := (d - a * dp) / den in
      (cp', dp') :: forward cp' dp' rest
  end.

(** Modelled from the spec: the back substitution of the Thomas algorithm,
    whose source is missing: [x = d' - c' * x_next] from the last equation
    to the first, with [x_next = 0] after the last. *)
Definition backsubstitution (primes : list (Q * Q)) : list Q :=
  foldr (fun p xs => (p.2 - p.1 * hd 0 xs) :: xs) [] primes.

(** Modelled from the spec: the Thomas algorithm on one cell, whose source
    is missing. *)
Definition thomas (rows : list eqn) : list Q :=
  backsubstitution (forward 0 0 rows).

Definition zip4 {A} (a b c d : list A) : option (list (A * A * A * A)) :=
  if decide (length a = length d /\ length b = length d /\ length c = length d)
  then Some (zip (zip (zip a b) c) d)
  else None.

(** Modelled from the spec: the batched solve [td_solver(a, b, c, f)], whose
    source is missing: every spatial cell (row) is solved independently;
    arrays of different shapes are an error. *)
Definition __call__ (self : t) (a b c d : jnp.ndarray) : jnp.val :=
  match a, b, c, d with
  | jnp.Arr2 a, jnp.Arr2 b, jnp.Arr2 c, jnp.Arr2 d =>
      cells ← zip4 a b c d;
      jnp.Arr2 <$>
        mapM (fun r => thomas <$> zip4 r.1.1.1 r.1.1.2 r.1.2 r.2) cells
  | _, _, _, _ => None
  end.
End TridiagonalSolver.

Module Collisions.
Section WithExp.
Variable exp : Q -> Q.

Record t := {
  cfg : config;
  fp : Dougherty.t;
  krook : Krook.t;
  td_solver : TridiagonalSolver.t
}.

(** The dispatch on [cfg["solver"]["fp_operator"]] is commented out in the
    source: the constructor returns the Dougherty operator whatever the
    configured name is. *)
Definition __init_fp_operator__ (cfg : config) : Dougherty.t :=
  Dougherty.__init__ cfg.

Definition __init__ (cfg : config) : t :=
  {| cfg := cfg;
     fp := __init_fp_operator__ cfg;
     krook := Krook.__init__ exp cfg;
     td_solver := TridiagonalSolver.__init__ cfg |}.

(** The Krook call after the solve is commented out in the source. *)
Definition __call__ (self : t) (nu_fp nu_K : option jnp.ndarray)
    (f : jnp.ndarray) (dt : Q) : jnp.val :=
  if jnp.any_pos (nuee (cfg self)) then
    abc ← Dougherty.__call__ (fp self) nu_fp f dt;
    TridiagonalSolver.__call__ (td_solver self) abc.1.1 abc.1.2 abc.2 f
  else Some f.
End WithExp.
End Collisions.

(** ** Collaborators of the integrators

    [adept.vlasov1d.pushers.field], [adept.vlasov1d.pushers.vlasov] and
    [adept.tf1d.pushers.get_envelope] are called by the integrators but are
    not transcribed; their constructors and callables are parameters.  A
    callable receives definite arrays and may raise. *)

Record ElectricFieldSolver := {
  hampere : bool;
  (** [field_solve(f, ni, Z, a, prev_ex, dt)] returns the ponderomotive force
      and the self-consistent field; [prev_ex] and [dt] may be [None]. *)
  field_solve_call :
    jnp.ndarray -> jnp.ndarray -> jnp.ndarray -> jnp.ndarray ->
    option jnp.ndarray -> option Q -> option (jnp.ndarray * jnp.ndarray)
}.

(** [vdfdx(f, dt)] *)
Definition SpacePusher : Type := jnp.ndarray -> Q -> jnp.val.
(** [edfdv(f, e, dt)] *)
Definition VelocityPusher : Type := jnp.ndarray -> jnp.ndarray -> Q -> jnp.val.
(** [wave_solver(a, aold, djy_array, electron_charge)] returns the entries
    ["a"] and ["prev_a"]. *)
Definition WaveSolver : Type :=
  jnp.ndarray -> jnp.ndarray -> jnp.ndarray -> jnp.ndarray ->
  option (jnp.ndarray * jnp.ndarray).

Record envelope_args := {
  center : Q; width : Q; rise : Q;
  baseline : Q; bump_height : Q;
  bump_or_trough : string
}.
Record nu_args := { time : envelope_args; space : envelope_args }.

(** [args = {"drivers": cfg["drivers"], "terms": cfg["terms"]}]; the driver
    parameters are only read by the drivers. *)
Record args_t (D : Type) := {
  drivers : D;
  terms_fokker_planck : nu_args;
  terms_krook : nu_args
}.
Arguments drivers {D}.
Arguments terms_fokker_planck {D}.
Arguments terms_krook {D}.

(** [driver(t, args)] *)
Definition Driver (D : Type) : Type := Q -> args_t D -> jnp.val.

Record pushers (D : Type) := {
  field_ElectricFieldSolver : config -> ElectricFieldSolver;
  vlasov_SpaceExponential : config -> SpacePusher;
  vlasov_VelocityExponential : config -> VelocityPusher;
  vlasov_VelocityCubicSpline : config -> VelocityPusher;
  (** [field.WaveSolver(c, dx, dt)] *)
  field_WaveSolver : Q -> Q -> Q -> WaveSolver;
  (** [field.Driver(x, driver_key)] *)
  field_Driver : list Q -> string -> Driver D;
  (** [get_envelope(p_wL, p_wR, p_L, p_R, ax)] *)
  get_envelope : Q -> Q -> Q -> Q -> jnp.ndarray -> jnp.val;
  (** [exp] and [x ** y] on floats *)
  float_exp : Q -> Q;
  float_pow : Q -> Q -> Q
}.
Arguments field_ElectricFieldSolver {D}.
Arguments vlasov_SpaceExponential {D}.
Arguments vlasov_VelocityExponential {D}.
Arguments vlasov_VelocityCubicSpline {D}.
Arguments field_WaveSolver {D}.
Arguments field_Driver {D}.
Arguments get_envelope {D}.
Arguments float_exp {D}.
Arguments float_pow {D}.

(** ** adept/vlasov1d/integrator.py *)

Module TimeIntegrator.
Section WithPushers.
Context {D : Type} (P : pushers D).

Record t := {
  field_solve : ElectricFieldSolver;
  edfdv : VelocityPusher;
  vdfdx : SpacePusher
}.

Definition get_edfdv (cfg : config) : result VelocityPusher :=
  if decide (terms_edfdv cfg = "exponential") then
    Ok (vlasov_VelocityExponential P cfg)
  else if decide (terms_edfdv cfg = "cubic-spline") then
    Ok (vlasov_VelocityCubicSpline P cfg)
  else Raise (NotImplementedError (terms_edfdv cfg +:+ " has not been implemented")).

Definition __init__ (cfg : config) : result t :=
  let field_solve := field_ElectricFieldSolver P cfg in
  bind_result (get_edfdv cfg) (fun edfdv =>
  Ok {| field_solve := field_solve;
        edfdv := edfdv;
        vdfdx := vlasov_SpaceExponential P cfg |}).
End WithPushers.
End TimeIntegrator.

Module LeapfrogIntegrator.
Section WithPushers.
Context {D : Type} (P : pushers D).

Record t := { base : TimeIntegrator.t; dt : Q; dt_array : list Q }.

Definition __init__ (cfg : config) : result t :=
  bind_result (TimeIntegrator.__init__ P cfg) (fun base =>
  let dt := grid_dt cfg in
  Ok {| base := base; dt := dt; dt_array := map (Qmult dt) [0; 1] |}).

Definition __call__ (self : t) (f ni Z a : jnp.ndarray)
    (dex_array : list jnp.ndarray) (prev_ex : jnp.ndarray)
  : option (jnp.ndarray * jnp.ndarray) :=
  let super := base self in
  f_after_v ← TimeIntegrator.vdfdx super f (dt self);
  let f_for_field :=
    if hampere (TimeIntegrator.field_solve super) then f else f_after_v in
  pe ← field_solve_call (TimeIntegrator.field_solve super)
         f_for_field ni Z a (Some prev_ex) (Some (dt self));
  let pond := pe.1 in
  let e := pe.2 in
  force ← (Some pond + Some e + dex_array !! 0%nat)%np;
  f ← TimeIntegrator.edfdv super f_after_v force (dt self);
  Some (e, f).
End WithPushers.
End LeapfrogIntegrator.

Module SixthOrderHamIntegrator.
Section WithPushers.
Context {D : Type} (P : pushers D).

Record t := {
  base : TimeIntegrator.t;
  dt : Q;
  a1 : Q; a2 : Q; a3 : Q;
  D1 : Q; D2 : Q; D3 : Q;
  dt_array : list Q
}.

Definition __init__ (cfg : config) : result t :=
  bind_result (TimeIntegrator.__init__ P cfg) (fun base =>
  let dt := grid_dt cfg in
  let a1 := 0.168735950563437422448196 in
  let a2 := 0.377851589220928303880766 in
  let a3 := -0.093175079568731452657924 in
  let b1 := 0.049086460976116245491441 in
  let b2 := 0.264177609888976700200146 in
  let b3 := 0.186735929134907054308413 in
  let c1 := -0.000069728715055305084099 in
  let c2 := -0.000625704827430047189169 in
  let c3 := -0.002213085124045325561636 in
  let d2 := -2.916600457689847816445691e-6 in
  let d3 := 3.048480261700038788680723e-5 in
  let e3 := 4.985549387875068121593988e-7 in
  Ok {| base := base;
        dt := dt;
        a1 := a1; a2 := a2; a3 := a3;
        D1 := b1 + 2 * c1 * dt ^ 2;
        D2 := b2 + 2 * c2 * dt ^ 2 + 4 * d2 * dt ^ 4;
        D3 := b3 + 2 * c3 * dt ^ 2 + 4 * d3 * dt ^ 4 - 8 * e3 * dt ^ 6;
        dt_array :=
          map (Qmult dt)
            [0; a1; a1 + a2; a1 + a2 + a3; a1 + a2 + a3 + a2;
             a1 + a2 + a3 + a2 + a1] |}).

Definition __call__ (self : t) (f ni Z a : jnp.ndarray)
    (dex_array : list jnp.ndarray) (prev_ex : jnp.ndarray)
  : option (jnp.ndarray * jnp.ndarray) :=
  let field_solve f :=
    field_solve_call (TimeIntegrator.field_solve (base self)) f ni Z a None None in
  let edfdv := TimeIntegrator.edfdv (base self) in
  let vdfdx := TimeIntegrator.vdfdx (base self) in
  let dt := dt self in
  pe ← field_solve f;
  force ← (Some pe.1 + dex_array !! 0%nat + Some pe.2)%np;
  f ← edfdv f force (D1 self * dt);

  f ← vdfdx f (a1 self * dt);
  pe ← field_solve f;
  force ← (Some pe.1 + dex_array !! 1%nat + Some pe.2)%np;

  f ← edfdv f force (D2 self * dt);

  f ← vdfdx f (a2 self * dt);
  pe ← field_solve f;
  force ← (Some pe.1 + dex_array !! 2%nat + Some pe.2)%np;

  f ← edfdv f force (D3 self * dt);

  f ← vdfdx f (a3 self * dt);
  pe ← field_solve f;
  force ← (Some pe.1 + dex_array !! 3%nat + Some pe.2)%np;

  f ← edfdv f force (D3 self * dt);

  f ← vdfdx f (a2 self * dt);
  pe ← field_solve f;
  force ← (Some pe.1 + dex_array !! 4%nat + Some pe.2)%np;

  f ← edfdv f force (D2 self * dt);

  f ← vdfdx f (a1 self * dt);
  pe ← field_solve f;
  force ← (Some pe.1 + dex_array !! 5%nat + Some pe.2)%np;

  f ← edfdv f force (D1 self * dt);

  Some (pe.2, f).
End WithPushers.
End SixthOrderHamIntegrator.

Module VlasovPoissonFokkerPlanck.
Section WithPushers.
Context {D : Type} (P : pushers D).

(** [self.vlasov_poisson] holds one of the two integrator objects. *)
Inductive integrator :=
| Sixth (i : SixthOrderHamIntegrator.t)
| Leapfrog (i : LeapfrogIntegrator.t).

Definition integrator_dt_array (i : integrator) : list Q :=
  match i with
  | Sixth i => SixthOrderHamIntegrator.dt_array i
  | Leapfrog i => LeapfrogIntegrator.dt_array i
  end.

Definition integrator_call (i : integrator) :=
  match i with
  | Sixth i => SixthOrderHamIntegrator.__call__ i
  | Leapfrog i => LeapfrogIntegrator.__call__ i
  end.

Record t := {
  dt : Q;
  v : list Q;
  vlasov_poisson : integrator;
  dex_save : nat;
  fp : Collisions.t
}.

Definition __init__ (cfg : config) : result t :=
  bind_result
    (if decide (terms_time cfg = "sixth") then
       bind_result (SixthOrderHamIntegrator.__init__ P cfg) (fun i =>
       Ok (Sixth i, 3%nat))
     else if decide (terms_time cfg = "leapfrog") then
       bind_result (LeapfrogIntegrator.__init__ P cfg) (fun i =>
       Ok (Leapfrog i, 0%nat))
     else Raise (NotImplementedError ""))
    (fun vp =>
  Ok {| dt := grid_dt cfg;
        v := grid_v cfg;
        vlasov_poisson := vp.1;
        dex_save := vp.2;
        fp := Collisions.__init__ (float_exp P) cfg |}).

Definition __call__ (self : t) (f ni Z a prev_ex : jnp.ndarray)
    (dex_array : list jnp.ndarray) (nu_fp nu_K : option jnp.ndarray)
  : option (jnp.ndarray * jnp.ndarray) :=
  ef ← integrator_call (vlasov_poisson self) f ni Z a dex_array prev_ex;
  f ← Collisions.__call__ (fp self) nu_fp nu_K ef.2 (dt self);
  Some (ef.1, f).
End WithPushers.
End VlasovPoissonFokkerPlanck.

(** ** The heap of state bundles

    The state [y] is a Python dict of arrays, passed by reference.  Dicts live
    in a heap; a step runs in a state-and-error monad over it, so that a
    write to the caller's dict would be visible in the final heap. *)

Definition loc := positive.
Abbreviation bundle := (gmap string jnp.ndarray).
Abbreviation heap := (gmap loc (gmap string jnp.ndarray)).

Definition heapM (A : Type) : Type := heap -> option (A * heap).

#[global] Instance heapM_ret : MRet heapM := fun A a h => Some (a, h).
#[global] Instance heapM_bind : MBind heapM := fun A B k m h =>
  match m h with
  | Some (a, h') => k a h'
  | None => None
  end.

(** A pure computation that may raise. *)
Definition lift {A} (o : option A) : heapM A := fun h => (fun a => (a, h)) <$> o.

(** [y[k]], raising [KeyError] on a missing key. *)
Definition getitem (y : loc) (k : string) : heapM jnp.ndarray :=
  fun h => d ← h !! y; x ← d !! k; Some (x, h).

(** A dict display [{k: v, ...}] allocates a new dict. *)
Definition new_dict (d : bundle) : heapM loc :=
  fun h => let l := fresh (dom h) in Some (l, <[l := d]> h).

Module VlasovMaxwell.
Section WithPushers.
Context {D : Type} (P : pushers D).

Record t := {
  cfg : config;
  vpfp : VlasovPoissonFokkerPlanck.t;
  wave_solver : WaveSolver;
  dt : Q;
  ey_driver : Driver D;
  ex_driver : Driver D;
  v : list Q
}.

Definition __init__ (cfg : config) : result t :=
  bind_result (VlasovPoissonFokkerPlanck.__init__ P cfg) (fun vpfp =>
  Ok {| cfg := cfg;
        vpfp := vpfp;
        wave_solver := field_WaveSolver P (1 / grid_beta cfg) (grid_dx cfg) (grid_dt cfg);
        dt := grid_dt cfg;
        ey_driver := field_Driver P (grid_x_a cfg) "ey";
        ex_driver := field_Driver P (grid_x cfg) "ex";
        v := grid_v cfg |}).

Definition moment_x (self : t) (f : jnp.val) : jnp.val :=
  (jnp.sum_axis1 f * jnp.lit (grid_dv (cfg self)))%np.

Definition nu_prof (self : t) (t : Q) (nu_args : nu_args) : jnp.val :=
  let t_L := center (time nu_args) - width (time nu_args) * 0.5 in
  let t_R := center (time nu_args) + width (time nu_args) * 0.5 in
  let t_wL := rise (time nu_args) in
  let t_wR := rise (time nu_args) in
  let x_L := center (space nu_args) - width (space nu_args) * 0.5 in
  let x_R := center (space nu_args) + width (space nu_args) * 0.5 in
  let x_wL := rise (space nu_args) in
  let x_wR := rise (space nu_args) in
  let nu_time := get_envelope P t_wL t_wR t_L t_R (jnp.Scalar t) in
  let nu_time :=
    if decide (bump_or_trough (time nu_args) = "trough")
    then (jnp.lit 1 - nu_time)%np else nu_time in
  let nu_time :=
    (jnp.lit (baseline (time nu_args))
     + jnp.lit (bump_height (time nu_args)) * nu_time)%np in
  let nu_prof :=
    get_envelope P x_wL x_wR x_L x_R (jnp.Arr1 (grid_x (cfg self))) in
  let nu_prof :=
    if decide (bump_or_trough (space nu_args) = "trough")
    then (jnp.lit 1 - nu_prof)%np else nu_prof in
  let nu_prof :=
    (jnp.lit (baseline (space nu_args))
     + jnp.lit (bump_height (space nu_args)) * nu_prof)%np in
  (nu_time * nu_prof)%np.

Definition __call__ (self : t) (t : Q) (y : loc) (args : args_t D) : heapM loc :=
  let vlasov_poisson := VlasovPoissonFokkerPlanck.vlasov_poisson (vpfp self) in
  let dt_array := VlasovPoissonFokkerPlanck.integrator_dt_array vlasov_poisson in
  dex ← lift (mapM (fun dt => ex_driver self (t + dt) args) dt_array);
  dt1 ← lift (dt_array !! 1%nat);
  djy ← lift (ey_driver self (t + dt1) args);

  electron ← getitem y "electron";
  ne_before ← lift (moment_x self (Some electron));
  electron ← getitem y "electron";
  Te_before ←
    lift (jnp.lit 0.5
          * moment_x self
              (Some electron * jnp.sq (jnp.row (Some (jnp.Arr1 (v self)))))
          / Some ne_before)%np;

  nu_fp_prof ←
    (if terms_fokker_planck_is_on (cfg self) then
       lift (Some <$>
               (nu_prof self t (terms_fokker_planck args) * Some ne_before
                / Some (jnp.map_arr (fun x => float_pow P x 1.5) Te_before))%np)
     else mret None);

  nu_K_prof ←
    (if terms_krook_is_on (cfg self) then
       lift (Some <$> nu_prof self t (terms_krook args))
     else mret None);

  f_in ← getitem y "electron";
  ni ← getitem y "ni";
  Z ← getitem y "Z";
  a_in ← getitem y "a";
  prev_ex ← getitem y "e";
  ef ← lift (VlasovPoissonFokkerPlanck.__call__ (vpfp self)
               f_in ni Z a_in prev_ex dex nu_fp_prof nu_K_prof);
  let e := ef.1 in
  let f := ef.2 in
  ne_after ← lift (moment_x self (Some f));

  a_in ← getitem y "a";
  aold ← getitem y "prev_a";
  electron_charge ← lift (jnp.lit 0.5 * (Some ne_before + Some ne_after))%np;
  a ← lift (wave_solver self a_in aold djy electron_charge);

  ni ← getitem y "ni";
  Z ← getitem y "Z";
  de ← lift (dex !! VlasovPoissonFokkerPlanck.dex_save (vpfp self));
  new_dict
    (<["electron" := f]>
       (<["a" := a.1]>
          (<["ni" := ni]>
             (<["Z" := Z]>
                (<["prev_a" := a.2]>
                   (<["da" := djy]>
                      (<["de" := de]>
                         (<["e" := e]> ∅)))))))).
End WithPushers.
End VlasovMaxwell.

(** ** adept/vfp1d/helpers.py *)

(** [cfg["units"]["logLambda"]] is a string, a number, or something else. *)
Inductive logLambda_cfg :=
| LogLambdaStr (s : string)
| LogLambdaNum (x : Q)
| LogLambdaOther.

Record units_cfg := {
  reference_electron_density : string;
  reference_electron_temperature : string;
  reference_ion_temperature : string;
  units_Z : Q;
  Ion : string;
  logLambda : logLambda_cfg
}.

(** The entries of [all_quantities] that depend on the Coulomb logarithms or
    are read back by the initialisation; the remaining entries only convert
    units with astropy constants. *)
Record derived_t := {
  derived_n0 : Q;
  derived_ne : Q;
  derived_Te : Q;
  derived_Ti : Q;
  logLambda_ei : Q;
  logLambda_ee : Q;
  nuei_shk_norm : Q;
  nuei_nrl_norm : Q;
  nD_NRL : Q;
  nD_Shkarofsky : Q
}.

Record profile := {
  basis : string;
  prof_center : Q; prof_width : Q; prof_rise : Q;
  prof_baseline : Q; prof_bump_height : Q;
  prof_bump_or_trough : string;
  amplitude : Q; wavelength : Q
}.

Record species_params := {
  species_v0 : Q; species_T0 : Q; species_m : Q;
  species_n : profile; species_T : profile;
  noise_val : Q; noise_seed : Z; noise_type : string
}.

Record helpers_cfg := {
  units : units_cfg;
  derived : option derived_t;
  (** [cfg["density"]], in insertion order *)
  density : list (string * species_params)
}.

Record helpers_grid := {
  hgrid_nx : nat;
  hgrid_nv : nat;
  hgrid_x : list Q;
  hgrid_beta : Q;
  hgrid_vmax : Q
}.

(** numpy, astropy and plasmapy functions used by the helpers. *)
Record libs := {
  casefold : string -> string;
  (** [plasmapy.formulary.Coulomb_logarithm(n_e, T, z_mean, species)] *)
  Coulomb_logarithm : Q -> Q -> Q -> string * string -> option Q;
  (** [u.Quantity(s).to(unit).value] *)
  Quantity_to : string -> string -> option Q;
  np_log : Q -> Q;
  np_sqrt : Q -> Q;
  np_exp : Q -> Q;
  np_sin : Q -> Q;
  np_power : Q -> Q -> Q;
  np_pi : Q;
  helpers_get_envelope : Q -> Q -> Q -> Q -> jnp.ndarray -> jnp.val
}.

(** Python's [max(a, b)]: [b] when [b > a], otherwise [a]. *)
Definition py_max (a b : Q) : Q := if Qle_bool b a then a else b.

Module vfp1d.
Section WithLibs.
Variable L : libs.

Definition calc_logLambda (cfg : helpers_cfg) (ne Te Z : Q) (ion_species : string)
  : result (Q * Q) :=
  match logLambda (units cfg) with
  | LogLambdaStr s =>
      if decide (casefold L s = "plasmapy") then
        bind_result
          (of_option (Coulomb_logarithm L ne Te Z ("e", ion_species)) LibraryError)
          (fun logLambda_ei =>
        bind_result
          (of_option (Coulomb_logarithm L ne Te 1 ("e", "e")) LibraryError)
          (fun logLambda_ee =>
        Ok (logLambda_ei, logLambda_ee)))
      else if decide (casefold L s = "nrl") then
        let log_ne := np_log L ne in
        let log_Te := np_log L Te in
        let log_Z := np_log L Z in
        let logLambda_ee :=
          py_max 2
            (23.5 - 0.5 * log_ne + 1.25 * log_Te
             - np_sqrt L (1e-5 + 0.0625 * (log_Te - 2) ^ 2)) in
        let logLambda_ei :=
          if negb (Qle_bool Te (10 * Z ^ 2)) then
            py_max 2 (24 - 0.5 * log_ne + log_Te)
          else
            py_max 2 (23 - 0.5 * log_ne + 1.5 * log_Te - log_Z) in
        Ok (logLambda_ei, logLambda_ee)
      else Raise (NotImplementedError "This logLambda method is not implemented")
  | LogLambdaNum x => Ok (x, x)
  | LogLambdaOther => Raise (UnboundLocalError "logLambda_ei")
  end.

(** The derived quantities are stored under [cfg["units"]["derived"]] and
    the configuration is returned; the dump to [units.yaml] is not
    modelled. *)
Definition write_units (cfg : helpers_cfg) (td : string) : result helpers_cfg :=
  bind_result
    (of_option (Quantity_to L (reference_electron_density (units cfg)) "1/cm^3")
       LibraryError) (fun ne =>
  bind_result
    (of_option (Quantity_to L (reference_electron_temperature (units cfg)) "eV")
       LibraryError) (fun Te =>
  bind_result
    (of_option (Quantity_to L (reference_ion_temperature (units cfg)) "eV")
       LibraryError) (fun Ti =>
  let Z := units_Z (units cfg) in
  let n0 := 9.0663e21 in
  let ion_species := Ion (units cfg) in
  bind_result (calc_logLambda cfg ne Te Z ion_species) (fun ll =>
  let logLambda_ei := ll.1 in
  let logLambda_ee := ll.2 in
  let logLambda_ee := logLambda_ei in
  let nD_NRL := 1.72e9 * np_power L Te 1.5 / np_sqrt L ne in
  let nD_Shkarofsky := np_exp L logLambda_ei * Z / 9 in
  let nuei_shk_norm :=
    np_sqrt L (2 / np_pi L) * logLambda_ei / np_exp L logLambda_ei in
  let nuei_nrl_norm := np_sqrt L (2 / np_pi L) * logLambda_ei / nD_NRL in
  let all_quantities :=
    {| derived_n0 := n0; derived_ne := ne; derived_Te := Te; derived_Ti := Ti;
       logLambda_ei := logLambda_ei;
       logLambda_ee := logLambda_ee;
       nuei_shk_norm := nuei_shk_norm;
       nuei_nrl_norm := nuei_nrl_norm;
       nD_NRL := nD_NRL;
       nD_Shkarofsky := nD_Shkarofsky |} in
  Ok {| units := units cfg;
        derived := Some all_quantities;
        density := density cfg |})))).

(** [np.linspace(start, stop, num)] *)
Definition linspace (start stop : Q) (num : nat) : list Q :=
  match num with
  | 1%nat => [start]
  | _ =>
      map (fun i => start + inject_Z (Z.of_nat i) * (stop - start)
                            / inject_Z (Z.of_nat (num - 1)))
          (seq 0 num)
  end.

Definition _initialize_distribution_ (nx nv : nat) (v0 m vth vmax : Q)
    (n_prof T_prof : list Q) (noise_val : Q) (noise_seed : Z) (noise_type : string)
  : result (list (list Q) * list Q) :=
  if decide (nv = 0%nat) then Raise LibraryError else
  let dv := vmax / inject_Z (Z.of_nat nv) in
  let vax := linspace (dv / 2) (vmax - dv / 2) nv in
  let f := replicate nx (replicate nv 0) in
  if decide (length (zip n_prof T_prof) <= nx)%nat then
    let rows :=
      map (fun tntt =>
             let tn := tntt.1 in
             let tt := tntt.2 in
             map (fun vx =>
                    tn * (np_power L (2 * np_pi L * tt * (vth ^ 2 / 2)) (-1.5)
                          * np_exp L (- (vx ^ 2) / (2 * tt * (vth ^ 2 / 2)))))
                 vax)
          (zip n_prof T_prof) in
    Ok (rows ++ drop (length rows) f, vax)
  else Raise LibraryError.

(** One pass of [for k in ["n", "T"]]. *)
Definition species_profile (cfg_grid : helpers_grid) (p : profile) : result jnp.ndarray :=
  if decide (basis p = "uniform") then
    Ok (jnp.Arr1 (replicate (hgrid_nx cfg_grid) 1))
  else if decide (basis p = "tanh") then
    let left := prof_center p - prof_width p * 0.5 in
    let right := prof_center p + prof_width p * 0.5 in
    let rise := prof_rise p in
    let prof :=
      helpers_get_envelope L rise rise left right (jnp.Arr1 (hgrid_x cfg_grid)) in
    let prof :=
      if decide (prof_bump_or_trough p = "trough")
      then (jnp.lit 1 - prof)%np else prof in
    of_option
      (jnp.lit (prof_baseline p) + jnp.lit (prof_bump_height p) * prof)%np
      LibraryError
  else if decide (basis p = "sine") then
    let baseline := prof_baseline p in
    let amp := amplitude p in
    let ll := wavelength p in
    Ok (jnp.Arr1
          (map (fun x => baseline * (1 + amp * np_sin L (2 * np_pi L / ll * x)))
               (hgrid_x cfg_grid)))
  else Raise (NotImplementedError "").

Definition as_list (a : jnp.ndarray) : result (list Q) :=
  match a with jnp.Arr1 l => Ok l | _ => Raise LibraryError end.

(** The loop over [cfg["density"].items()], carrying
    [(prof_total["n"], f, species_found)]. *)
Fixpoint species_loop (cfg : helpers_cfg) (cfg_grid : helpers_grid)
    (items : list (string * species_params))
    (st : jnp.ndarray * jnp.ndarray * bool)
  : result (jnp.ndarray * jnp.ndarray * bool) :=
  match items with
  | [] => Ok st
  | (name, species_params) :: rest =>
      if String.prefix "species-" name then
        bind_result (species_profile cfg_grid (species_n species_params)) (fun profs_n =>
        bind_result (species_profile cfg_grid (species_T species_params)) (fun profs_T =>
        bind_result (of_option (derived cfg) (KeyError "derived")) (fun d =>
        bind_result
          (of_option (Some profs_n * jnp.lit (derived_ne d / derived_n0 d))%np LibraryError)
          (fun profs_n =>
        bind_result
          (of_option (Some st.1.1 + Some profs_n)%np LibraryError)
          (fun prof_total_n =>
        bind_result (as_list profs_n) (fun n_prof =>
        bind_result (as_list profs_T) (fun T_prof =>
        bind_result
          (_initialize_distribution_ (hgrid_nx cfg_grid) (hgrid_nv cfg_grid)
             (species_v0 species_params) (species_m species_params)
             (hgrid_beta cfg_grid) (hgrid_vmax cfg_grid) n_prof T_prof
             (noise_val species_params) (noise_seed species_params)
             (noise_type species_params))
          (fun temp =>
        bind_result
          (of_option (Some st.1.2 + Some (jnp.Arr2 temp.1))%np LibraryError)
          (fun f =>
        species_loop cfg cfg_grid rest (prof_total_n, f, true))))))))))
      else species_loop cfg cfg_grid rest st
  end.

Definition _initialize_total_distribution_ (cfg : helpers_cfg) (cfg_grid : helpers_grid)
  : result (jnp.ndarray * jnp.ndarray) :=
  let prof_total_n := jnp.Arr1 (replicate (hgrid_nx cfg_grid) 0) in
  let f := jnp.Arr2 (replicate (hgrid_nx cfg_grid) (replicate (hgrid_nv cfg_grid) 0)) in
  let species_found := false in
  bind_result
    (species_loop cfg cfg_grid (density cfg) (prof_total_n, f, species_found))
    (fun st =>
  if negb st.2 then Raise (ValueError "No species found! Check the config")
  else Ok (st.1.2, st.1.1)).
End WithLibs.
End vfp1d.

From Stdlib Require Import Qround.

(** ** adept/vlasov1d2v/helpers.py

    The entries of [cfg["grid"]] as the configuration file gives them, and
    as [get_derived_quantities] and [get_solver_quantities] extend them.
    Non-finite floats are not represented: where a divisor is zero the
    source raises [ZeroDivisionError] or produces [inf] or [nan]; the model
    raises. *)

Module vlasov1d2v.

(** [int(x)] on a float: truncation towards zero. *)
Definition py_int (x : Q) : Z := Z.quot (Qnum x) (Z.pos (Qden x)).

Record grid_yaml := {
  yaml_xmin : Q; yaml_xmax : Q; yaml_nx : nat;
  yaml_vmax : Q; yaml_nv : nat;
  yaml_dt : Q; yaml_tmax : Q
}.

Record cfg_t := {
  cfg_grid : grid_yaml;
  (** [cfg["units"]["reference electron temperature"]] *)
  cfg_Te : string;
  (** the keys of [cfg["drivers"]["ey"]] *)
  cfg_ey_drivers : list string;
  (** [cfg["units"]["derived"]["c_light"]], when the key is there *)
  cfg_c_light : option Q
}.

(** [cfg["grid"]] after [get_derived_quantities]. *)
Record grid_t := {
  xmin : Q; xmax : Q; nx : nat;
  vmax : Q; nv : nat;
  dt : Q; tmax : Q;
  dx : Q; dv : Q;
  nt : Z; max_steps : Z
}.

(** The arrays that [get_solver_quantities] adds. *)
Record solver_grid := {
  grid : grid_t;
  x : list Q; t : list Q; v : list Q;
  kx : list Q; kxr : list Q; kv : list Q; kvr : list Q;
  one_over_kx : list Q; one_over_kxr : list Q;
  one_over_kv : list Q; one_over_kvr : list Q;
  nuprof : Q; ktprof : Q; kprof : list Q;
  x_a : list Q
}.

Section WithLibs.
(** [np.pi], and
    [np.sqrt((u.Quantity(Te) / (const.m_e * const.c**2.0)).to("")).value]
    as a function of the temperature string. *)
Variable pi : Q.
Variable sqrt_Te_over_mc2 : string -> option Q.

(** Division of two Python floats. *)
Definition py_div (a b : Q) : result Q :=
  if Qeq_bool b 0 then Raise LibraryError else Ok (a / b).

Definition get_derived_quantities (cfg : cfg_t) : result grid_t :=
  let cfg_grid := cfg_grid cfg in
  bind_result (py_div (yaml_xmax cfg_grid) (inject_Z (Z.of_nat (yaml_nx cfg_grid))))
    (fun dx =>
  bind_result (of_option (sqrt_Te_over_mc2 (cfg_Te cfg)) LibraryError) (fun s =>
  let vmax := yaml_vmax cfg_grid * s in
  bind_result (py_div (2 * vmax) (inject_Z (Z.of_nat (yaml_nv cfg_grid))))
    (fun dv =>
  bind_result
    (if decide (0 < length (cfg_ey_drivers cfg))%nat then
       bind_result (of_option (cfg_c_light cfg) (KeyError "c_light")) (fun c =>
       py_div (0.95 * dx) c)
     else Ok (yaml_dt cfg_grid))
    (fun dt =>
  bind_result (py_div (yaml_tmax cfg_grid) dt) (fun steps =>
  let nt := py_int (steps + 1) in
  let max_steps :=
    if decide (1000000 < nt)%Z then 1000000%Z else (nt + 4)%Z in
  Ok {| xmin := yaml_xmin cfg_grid; xmax := yaml_xmax cfg_grid;
        nx := yaml_nx cfg_grid;
        vmax := vmax; nv := yaml_nv cfg_grid;
        dt := dt; tmax := dt * inject_Z nt;
        dx := dx; dv := dv;
        nt := nt; max_steps := max_steps |}))))).

(** [np.fft.fftfreq(n, d)]: the frequencies 0, 1, ..., ceil(n/2) - 1,
    -floor(n/2), ..., -1, each divided by [d * n]. *)
Definition fftfreq (n : nat) (d : Q) : list Q :=
  map (fun k => inject_Z k / (d * inject_Z (Z.of_nat n)))
      (map Z.of_nat (seq 0 ((n + 1) / 2))
       ++ map (fun i => (Z.of_nat i - Z.of_nat (n / 2))%Z) (seq 0 (n / 2))).

(** [np.fft.rfftfreq(n, d)]: 0, 1, ..., floor(n/2), each divided by
    [d * n]. *)
Definition rfftfreq (n : nat) (d : Q) : list Q :=
  map (fun k => inject_Z (Z.of_nat k) / (d * inject_Z (Z.of_nat n)))
      (seq 0 (n / 2 + 1)).

(** [out = np.zeros_like(k); out[1:] = 1.0 / k[1:]] *)
Definition one_over (k : list Q) : list Q :=
  match k with
  | [] => []
  | _ :: rest => 0 :: map (fun a => 1 / a) rest
  end.

Definition get_solver_quantities (cfg_grid : grid_t) : result solver_grid :=
  let x :=
    vfp1d.linspace (xmin cfg_grid + dx cfg_grid / 2)
      (xmax cfg_grid - dx cfg_grid / 2) (nx cfg_grid) in
  bind_result
    (if decide (nt cfg_grid < 0)%Z then Raise (ValueError "")
     else Ok (vfp1d.linspace 0 (tmax cfg_grid) (Z.to_nat (nt cfg_grid))))
    (fun t =>
  let v :=
    vfp1d.linspace (- vmax cfg_grid + dv cfg_grid / 2)
      (vmax cfg_grid - dv cfg_grid / 2) (nv cfg_grid) in
  let kx := map (fun k => k * 2 * pi) (fftfreq (nx cfg_grid) (dx cfg_grid)) in
  let kxr := map (fun k => k * 2 * pi) (rfftfreq (nx cfg_grid) (dx cfg_grid)) in
  let kv := map (fun k => k * 2 * pi) (fftfreq (nv cfg_grid) (dv cfg_grid)) in
  let kvr := map (fun k => k * 2 * pi) (rfftfreq (nv cfg_grid) (dv cfg_grid)) in
  bind_result (of_option (head x) LibraryError) (fun x_first =>
  bind_result (of_option (last x) LibraryError) (fun x_last =>
  Ok {| grid := cfg_grid;
        x := x; t := t; v := v;
        kx := kx; kxr := kxr; kv := kv; kvr := kvr;
        one_over_kx := one_over kx; one_over_kxr := one_over kxr;
        one_over_kv := one_over kv; one_over_kvr := one_over kvr;
        nuprof := 1; ktprof := 1;
        kprof := replicate (nx cfg_grid) 1;
        x_a := [x_first - dx cfg_grid] ++ x ++ [x_last + dx cfg_grid] |}))).
End WithLibs.

Section Distribution.
(** [np.pi] and [np.exp] on one float. *)
Variables (pi : Q) (exp : Q -> Q).

(** The distribution is a rank-three array, indexed by the cell and the two
    velocities. *)
Definition _initialize_distribution_ (nx nv : nat) (v0 m vth vmax : Q)
    (n_prof T_prof : list Q) (noise_val : Q) (noise_seed : Z) (noise_type : string)
  : result (list (list (list Q)) * list Q) :=
  bind_result (py_div (2 * vmax) (inject_Z (Z.of_nat nv))) (fun dv =>
  let vax := vfp1d.linspace (- vmax + dv / 2) (vmax - dv / 2) nv in
  let f := replicate nx (replicate nv (replicate nv 0)) in
  if decide (length (zip n_prof T_prof) <= nx)%nat then
    let rows :=
      map (fun tntt =>
             let tn := tntt.1 in
             let tt := tntt.2 in
             map (fun vj =>
                    map (fun vk =>
                           tn * (1 / (2 * pi * tt * vth ^ 2)
                                 * exp (- (vj ^ 2 + vk ^ 2) / (2 * tt * vth ^ 2))))
                        vax)
                 vax)
          (zip n_prof T_prof) in
    Ok (rows ++ drop (length rows) f, vax)
  else Raise LibraryError).

(** The entries of [cfg["grid"]] that the initialisation reads. *)
Record init_grid := {
  init_nx : nat; init_nv : nat;
  init_beta : Q; init_vmax : Q; init_dv : Q
}.

(** [adept.vlasov1d.helpers.get_1D_n_and_T_profile] is not transcribed: it
    returns the density and the temperature profile of one species. *)
Variable get_1D_n_and_T_profile :
  species_params -> helpers_cfg -> option (list Q * list Q).

(** [np.sum(np.sum(temp_f, axis=2), axis=1)] on one cell. *)
Definition plane_sum (plane : list (list Q)) : Q :=
  jnp.sum_row (map jnp.sum_row plane).

(** The loop over [cfg["density"].items()], carrying
    [(prof_total["n"], f, species_found)]; [f] and [temp_f] have the shape
    [(nx, nv, nv)], [prof_total["n"]] and [actual_n] the shape [(nx,)]. *)
Fixpoint species_loop (cfg : helpers_cfg) (cfg_grid : init_grid)
    (items : list (string * species_params))
    (st : list Q * list (list (list Q)) * bool)
  : result (list Q * list (list (list Q)) * bool) :=
  match items with
  | [] => Ok st
  | (name, species_params) :: rest =>
      if String.prefix "species-" name then
        bind_result
          (of_option (get_1D_n_and_T_profile species_params cfg) LibraryError)
          (fun profs =>
        bind_result (of_option (derived cfg) (KeyError "derived")) (fun d =>
        let profs_n :=
          map (fun a => a * (derived_ne d / derived_n0 d)) profs.1 in
        bind_result
          (_initialize_distribution_ (init_nx cfg_grid) (init_nv cfg_grid)
             (species_v0 species_params) (species_m species_params)
             (init_beta cfg_grid) (init_vmax cfg_grid) profs_n profs.2
             (noise_val species_params) (noise_seed species_params)
             (noise_type species_params))
          (fun temp =>
        let temp_f := temp.1 in
        let actual_n :=
          map (fun plane => plane_sum plane * init_dv cfg_grid ^ 2) temp_f in
        let prof_total_n := zip_with Qplus st.1.1 actual_n in
        let f := zip_with (zip_with (zip_with Qplus)) st.1.2 temp_f in
        species_loop cfg cfg_grid rest (prof_total_n, f, true))))
      else species_loop cfg cfg_grid rest st
  end.

Definition _initialize_total_distribution_ (cfg : helpers_cfg)
    (cfg_grid : init_grid) : result (list (list (list Q)) * list Q) :=
  let prof_total_n := replicate (init_nx cfg_grid) 0 in
  let f :=
    replicate (init_nx cfg_grid)
      (replicate (init_nv cfg_grid) (replicate (init_nv cfg_grid) 0)) in
  let species_found := false in
  bind_result
    (species_loop cfg cfg_grid (density cfg) (prof_total_n, f, species_found))
    (fun st =>
  if negb st.2 then Raise (ValueError "No species found! Check the config")
  else Ok (st.1.2, st.1.1)).

(** The state dictionary: the distribution and seven rank-one arrays. *)
Record state := {
  electron : list (list (list Q));
  e : list Q; de : list Q;
  a : list Q; da : list Q; prev_a : list Q;
  Z : list Q; ni : list Q
}.

Definition init_state (cfg : helpers_cfg) (cfg_grid : init_grid) : result state :=
  bind_result (_initialize_total_distribution_ cfg cfg_grid) (fun f_ne =>
  let f := f_ne.1 in
  let ne_prof := f_ne.2 in
  let nx := init_nx cfg_grid in
  Ok {| electron := f;
        e := replicate nx 0; de := replicate nx 0;
        a := replicate (nx + 2) 0; da := replicate (nx + 2) 0;
        prev_a := replicate (nx + 2) 0;
        Z := map (fun o => o * units_Z (units cfg)) (replicate nx 1);
        ni := map (fun n => n / units_Z (units cfg)) ne_prof |}).
End Distribution.
End vlasov1d2v.

(** ** utils/misc.py *)

Module misc.
Section LogParams.
(** A flattened configuration: keys and values in insertion order;
    [render] turns a [Quantity] into its string and leaves other values as
    they are. *)
Context {K V : Type} (render : V -> V).

(** The calls of [mlflow.log_params], in order, each with the entries it
    is given. *)
Definition log_params (cfg : list (K * V)) : list (list (K * V)) :=
  let flattened_dict := cfg in
  let num_entries := length flattened_dict in
  let flattened_dict := map (fun kv => (kv.1, render kv.2)) flattened_dict in
  if decide (100 < num_entries)%nat then
    let num_batches := (num_entries mod 100)%nat in
    let fl_list := flattened_dict in
    map (fun i =>
           let end_ind := Nat.min ((i + 1) * 100) num_entries in
           (* fl_list[i * 100 : end_ind] *)
           take (end_ind - i * 100) (drop (i * 100) fl_list))
        (seq 0 num_batches)
  else [flattened_dict].
End LogParams.
End misc.

(** * Specification-side definitions *)

Arguments jnp.broadcast : simpl never.
Arguments jnp.rowop : simpl never.
Arguments jnp.matop : simpl never.
Arguments Qpower : simpl never.

(** The rank-two array [cs[:, None]]. *)
Definition column (cs : list Q) : list (list Q) := map (fun c => [c]) cs.

(** ** Collision frequency that is non-positive everywhere *)

Definition nonpositive_everywhere (x : jnp.ndarray) : Prop :=
  match x with
  | jnp.Scalar a => a <= 0
  | jnp.Arr1 v => Forall (fun a => a <= 0) v
  | jnp.Arr2 m => Forall (Forall (fun a => a <= 0)) m
  end.

(** ** Stage schedules of a splitting integrator

    The specification describes the sixth-order integrator as a list of
    stages.  A stage first applies a space push of duration [space * dt]
    (when it has one), then solves for the field from the current
    distribution, adds the driver value of index [drv] and applies a velocity
    push of duration [vel * dt]. *)

Module Schedule.
Record stage := { space : option Q; vel : Q; drv : nat }.

Section Run.
Variables (ti : TimeIntegrator.t) (dt : Q) (ni Z a : jnp.ndarray)
          (dex_array : list jnp.ndarray).

Definition run_stage (st : stage) (f : jnp.ndarray)
  : option (jnp.ndarray * jnp.ndarray) :=
  f ← match space st with
      | Some c => TimeIntegrator.vdfdx ti f (c * dt)
      | None => Some f
      end;
  pe ← field_solve_call (TimeIntegrator.field_solve ti) f ni Z a None None;
  force ← (Some pe.1 + dex_array !! drv st + Some pe.2)%np;
  f ← TimeIntegrator.edfdv ti f force (vel st * dt);
  Some (pe.2, f).

(** Runs the stages in order on [(e, f)]; the field returned is the one
    of the last stage. *)
Fixpoint run (sts : list stage) (ef : jnp.ndarray * jnp.ndarray)
  : option (jnp.ndarray * jnp.ndarray) :=
  match sts with
  | [] => Some ef
  | st :: rest => ef' ← run_stage st ef.2; run rest ef'
  end.
End Run.

(** The schedule of the sixth-order integrator. *)
Definition sixth (self : SixthOrderHamIntegrator.t) : list stage :=
  let a1 := SixthOrderHamIntegrator.a1 self in
  let a2 := SixthOrderHamIntegrator.a2 self in
  let a3 := SixthOrderHamIntegrator.a3 self in
  let D1 := SixthOrderHamIntegrator.D1 self in
  let D2 := SixthOrderHamIntegrator.D2 self in
  let D3 := SixthOrderHamIntegrator.D3 self in
  [ {| space := None;    vel := D1; drv := 0 |};
    {| space := Some a1; vel := D2; drv := 1 |};
    {| space := Some a2; vel := D3; drv := 2 |};
    {| space := Some a3; vel := D3; drv := 3 |};
    {| space := Some a2; vel := D2; drv := 4 |};
    {| space := Some a1; vel := D1; drv := 5 |} ].

(** A call of the integrator executes the schedule [sts]. *)
Definition executes (self : SixthOrderHamIntegrator.t) (sts : list stage) : Prop :=
  forall f ni Z a dex_array prev_ex,
    SixthOrderHamIntegrator.__call__ self f ni Z a dex_array prev_ex
    = run (SixthOrderHamIntegrator.base self) (SixthOrderHamIntegrator.dt self)
          ni Z a dex_array sts (prev_ex, f).
End Schedule.

(** ** The leapfrog step as the specification words it

    One space-advection half-step, one field solve, one velocity advection
    with the summed force.  The specification does not say which
    distribution the field is solved from; [field_from_input] selects the
    input distribution, otherwise the advected one is used. *)

Definition leapfrog_as_specified (field_from_input : bool)
    (self : LeapfrogIntegrator.t) (f ni Z a : jnp.ndarray)
    (dex_array : list jnp.ndarray) (prev_ex : jnp.ndarray)
  : option (jnp.ndarray * jnp.ndarray) :=
  let super := LeapfrogIntegrator.base self in
  let dt := LeapfrogIntegrator.dt self in
  f_half ← TimeIntegrator.vdfdx super f (dt / 2);
  pe ← field_solve_call (TimeIntegrator.field_solve super)
         (if field_from_input then f else f_half) ni Z a (Some prev_ex) (Some dt);
  force ← (Some pe.1 + Some pe.2 + dex_array !! 0%nat)%np;
  f ← TimeIntegrator.edfdv super f_half force dt;
  Some (pe.2, f).

(** ** Example collaborators

    Pushers over rank-one arrays that record the durations they are called
    with at the head of the array, so that a run leaves a trace. *)

Definition record_duration (on : bool) (f : jnp.ndarray) (dt : Q) : jnp.val :=
  if on then
    match f with
    | jnp.Arr1 v => Some (jnp.Arr1 (dt :: v))
    | _ => None
    end
  else Some f.

Definition tracing (space velocity : bool) : pushers unit :=
  {| field_ElectricFieldSolver _ :=
       {| hampere := false;
          field_solve_call _ _ _ _ _ _ := Some (jnp.Scalar 0, jnp.Scalar 0) |};
     vlasov_SpaceExponential _ := record_duration space;
     vlasov_VelocityExponential _ := fun f _ dt => record_duration velocity f dt;
     vlasov_VelocityCubicSpline _ := fun f _ dt => record_duration velocity f dt;
     field_WaveSolver _ _ _ := fun a aold _ _ => Some (a, aold);
     field_Driver _ _ := fun _ _ => Some (jnp.Scalar 0);
     get_envelope _ _ _ _ ax := Some ax;
     float_exp _ := 1;
     float_pow x _ := x |}.

Definition example_cfg (time : string) (fp_operator : string) : config :=
  {| grid_x := [0; 1];
     grid_x_a := [-1; 0; 1; 2];
     grid_v := [-1; 0; 1];
     grid_dx := 1;
     grid_dv := 1;
     grid_dt := 1;
     grid_beta := 1;
     grid_nx := 2;
     grid_nv := 3;
     nuee := jnp.Scalar 0;
     solver_fp_operator := fp_operator;
     terms_edfdv := "exponential";
     terms_time := time;
     terms_fokker_planck_is_on := false;
     terms_krook_is_on := false |}.

Definition zeros6 : list jnp.ndarray := replicate 6 (jnp.Scalar 0).

(** ** Example state bundle *)

Definition example_bundle : gmap string jnp.ndarray :=
  <["electron" := jnp.Arr2 [[1; 2; 1]; [0; 3; 0]]]>
    (<["e" := jnp.Arr1 [0; 0]]>
       (<["de" := jnp.Arr1 [0; 0]]>
          (<["a" := jnp.Arr1 [0; 0; 0; 0]]>
             (<["da" := jnp.Arr1 [0; 0; 0; 0]]>
                (<["prev_a" := jnp.Arr1 [0; 0; 0; 0]]>
                   (<["ni" := jnp.Arr1 [4; 3]]>
                      (<["Z" := jnp.Arr1 [1; 1]]> ∅))))))).

Definition example_heap : gmap loc (gmap string jnp.ndarray) :=
  <[1%positive := example_bundle]> ∅.

Definition example_envelope : envelope_args :=
  {| center := 0; width := 1; rise := 1; baseline := 1; bump_height := 0;
     bump_or_trough := "bump" |}.

Definition example_args : args_t unit :=
  {| drivers := tt;
     terms_fokker_planck := {| time := example_envelope; space := example_envelope |};
     terms_krook := {| time := example_envelope; space := example_envelope |} |}.

(** The names of the entries of a state bundle. *)
Definition bundle_keys : gset string :=
  list_to_set ["electron"; "a"; "ni"; "Z"; "prev_a"; "da"; "de"; "e"].

(** The step object of the examples, as [VlasovMaxwell.__init__] builds it
    for the leapfrog configuration with pushers that leave the distribution
    as it is. *)
Definition example_leapfrog : LeapfrogIntegrator.t :=
  let P := tracing false false in
  let cfg := example_cfg "leapfrog" "dougherty" in
  {| LeapfrogIntegrator.base :=
       {| TimeIntegrator.field_solve := field_ElectricFieldSolver P cfg;
          TimeIntegrator.edfdv := vlasov_VelocityExponential P cfg;
          TimeIntegrator.vdfdx := vlasov_SpaceExponential P cfg |};
     LeapfrogIntegrator.dt := grid_dt cfg;
     LeapfrogIntegrator.dt_array := map (Qmult (grid_dt cfg)) [0; 1] |}.

Definition example_step : VlasovMaxwell.t :=
  let P := tracing false false in
  let cfg := example_cfg "leapfrog" "dougherty" in
  {| VlasovMaxwell.cfg := cfg;
     VlasovMaxwell.vpfp :=
       {| VlasovPoissonFokkerPlanck.dt := grid_dt cfg;
          VlasovPoissonFokkerPlanck.v := grid_v cfg;
          VlasovPoissonFokkerPlanck.vlasov_poisson :=
            VlasovPoissonFokkerPlanck.Leapfrog example_leapfrog;
          VlasovPoissonFokkerPlanck.dex_save := 0;
          VlasovPoissonFokkerPlanck.fp := Collisions.__init__ (float_exp P) cfg |};
     VlasovMaxwell.wave_solver :=
       field_WaveSolver P (1 / grid_beta cfg) (grid_dx cfg) (grid_dt cfg);
     VlasovMaxwell.dt := grid_dt cfg;
     VlasovMaxwell.ey_driver := field_Driver P (grid_x_a cfg) "ey";
     VlasovMaxwell.ex_driver := field_Driver P (grid_x cfg) "ex";
     VlasovMaxwell.v := grid_v cfg |}.

(** The bundle that one step of [example_step] returns from
    [example_bundle]: the pushers of the example leave every array as it
    is, the field and the driver values are the scalar 0. *)
Definition example_output : gmap string jnp.ndarray :=
  <["electron" := jnp.Arr2 [[1; 2; 1]; [0; 3; 0]]]>
    (<["a" := jnp.Arr1 [0; 0; 0; 0]]>
       (<["ni" := jnp.Arr1 [4; 3]]>
          (<["Z" := jnp.Arr1 [1; 1]]>
             (<["prev_a" := jnp.Arr1 [0; 0; 0; 0]]>
                (<["da" := jnp.Scalar 0]>
                   (<["de" := jnp.Scalar 0]>
                      (<["e" := jnp.Scalar 0]> ∅))))))).

(** ** Configuration errors *)

Definition known_edfdv (s : string) : Prop :=
  s = "exponential" \/ s = "cubic-spline".

(** The operator names of the dispatch that the source has commented out. *)
Definition recognized_fp_operator (s : string) : Prop :=
  s = "dougherty" \/ s = "lenard_bernstein".

Definition known_basis (s : string) : Prop :=
  s = "uniform" \/ s = "tanh" \/ s = "sine".

Definition is_species (name : string) : Prop := String.prefix "species-" name = true.

(** A species entry one of whose two profiles has an unknown basis. *)
Definition bad_species (item : string * species_params) : Prop :=
  is_species item.1
  /\ (~ known_basis (basis (species_n item.2))
      \/ ~ known_basis (basis (species_T item.2))).

(** The specification's sentence for the collision operator: setting up a
    simulation whose configured operator is not recognized raises. *)
Definition unrecognized_fp_operator_raises : Prop :=
  forall (D : Type) (P : pushers D) (cfg : config),
    ~ recognized_fp_operator (solver_fp_operator cfg) ->
    exists e, VlasovMaxwell.__init__ P cfg = Raise e.

(** ** Example helper configuration *)

(** Stand-ins for the library functions; the Coulomb logarithm stand-in
    answers 7 for electron-ion and 5 for electron-electron collisions. *)
Definition example_libs : libs :=
  {| casefold s := s;
     Coulomb_logarithm _ _ _ species :=
       Some (if decide (species.2 = "e") then 5 else 7);
     Quantity_to _ _ := Some 1;
     np_log x := x;
     np_sqrt x := x;
     np_exp x := 1 + x;
     np_sin x := x;
     np_power x _ := x;
     np_pi := 3;
     helpers_get_envelope _ _ _ _ ax := Some ax |}.

Definition example_units (ll : logLambda_cfg) : units_cfg :=
  {| reference_electron_density := "1.5e21/cm^3";
     reference_electron_temperature := "2000eV";
     reference_ion_temperature := "1000eV";
     units_Z := 6;
     Ion := "Au+";
     logLambda := ll |}.

Definition example_profile (b : string) : profile :=
  {| basis := b;
     prof_center := 0; prof_width := 1; prof_rise := 1;
     prof_baseline := 1; prof_bump_height := 0;
     prof_bump_or_trough := "bump";
     amplitude := 0; wavelength := 1 |}.

Definition example_species (bn bT : string) : species_params :=
  {| species_v0 := 0; species_T0 := 1; species_m := 2;
     species_n := example_profile bn; species_T := example_profile bT;
     noise_val := 0; noise_seed := 42; noise_type := "Uniform" |}.

Definition example_helpers_cfg (ll : logLambda_cfg)
    (density : list (string * species_params)) : helpers_cfg :=
  {| units := example_units ll; derived := None; density := density |}.

Definition example_grid : helpers_grid :=
  {| hgrid_nx := 2; hgrid_nv := 3; hgrid_x := [0; 1];
     hgrid_beta := 1; hgrid_vmax := 6 |}.

(** ** The Krook target *)

(** [exp(-v**2 / 2)] on the velocity grid, and its trapezoidal integral. *)
Definition maxwellian_raw (exp : Q -> Q) (cfg : config) : list Q :=
  map exp (map (fun a => a / 2) (map Qopp (map (fun a => a ^ 2) (grid_v cfg)))).

Definition maxwellian_norm (exp : Q -> Q) (cfg : config) : Q :=
  jnp.trapz_row (grid_dv cfg) (maxwellian_raw exp cfg).

(** One row of the Krook update: [f * e + n * f_mx * (1 - e)] with
    [e = exp(-(dt * nu))] and [n] the density of the row. *)
Definition krook_row (exp : Q -> Q) (cfg : config) (dt : Q) (r : list Q) (nu : Q)
  : list Q :=
  let e := exp (- (dt * nu)) in
  let n := jnp.trapz_row (grid_dv cfg) r in
  zip_with Qplus
    (map (fun a => a * e) r)
    (map (fun a => a * (1 - e))
       (map (Qmult n)
          (map (fun a => a / maxwellian_norm exp cfg) (maxwellian_raw exp cfg)))).

(** ** The Dougherty operator, cell by cell

    For one spatial cell with distribution row [r] on the velocity grid [v]:
    the two moments and the three rows of coefficients, written out. *)

Definition cell_vbar (dv : Q) (v r : list Q) : Q :=
  jnp.trapz_row dv (zip_with Qmult r v).

Definition cell_v0t_sq (dv : Q) (v r : list Q) : Q :=
  jnp.trapz_row dv
    (zip_with Qmult r
       (map (fun a => a ^ 2) (map (fun a => a - cell_vbar dv v r) v))).

(** The entries of the three diagonals at a velocity [w] next to the cell:
    diffusion [v0t / dv**2] and drag [(w - vbar) / (2 dv)]. *)
Definition sub_diagonal (q dt dv vbar v0t w : Q) : Q :=
  q * dt * (- v0t / dv ^ 2 + (w - vbar) / 2 / dv).

Definition diagonal (q dt dv v0t : Q) : Q :=
  1 + q * dt * 1 * (2 * v0t / dv ^ 2).

Definition super_diagonal (q dt dv vbar v0t w : Q) : Q :=
  q * dt * (- v0t / dv ^ 2 - (w - vbar) / 2 / dv).

Definition cell_a (q dt dv : Q) (v : list Q) (vbar v0t : Q) : list Q :=
  map (sub_diagonal q dt dv vbar v0t) (jnp.roll_list 1 v).

Definition cell_b (q dt dv : Q) (nv : nat) (v0t : Q) : list Q :=
  map (fun o => 1 + q * dt * o * (2 * v0t / dv ^ 2)) (replicate nv 1).

Definition cell_c (q dt dv : Q) (v : list Q) (vbar v0t : Q) : list Q :=
  map (super_diagonal q dt dv vbar v0t) (jnp.roll_list (-1) v).

(** The mean velocity and the variance of a cell's distribution, by the same
    quadrature: the first moment, and the second moment about the mean, each
    divided by the density. *)
Definition mean_velocity (dv : Q) (v r : list Q) : Q :=
  jnp.trapz_row dv (zip_with Qmult r v) / jnp.trapz_row dv r.

Definition variance (dv : Q) (v r : list Q) : Q :=
  jnp.trapz_row dv
    (zip_with Qmult r
       (map (fun a => a ^ 2) (map (fun a => a - mean_velocity dv v r) v)))
  / jnp.trapz_row dv r.

(** A configuration whose grid sizes agree with the arrays at hand. *)
Definition well_shaped (cfg : config) (rows : list (list Q)) : Prop :=
  grid_nx cfg = length rows
  /\ grid_nv cfg = length (grid_v cfg)
  /\ Forall (fun r => length r = length (grid_v cfg)) rows.

(** ** Tridiagonal systems *)

(** The left-hand sides [a * x_prev + b * x + c * x_next] of a system at a
    candidate solution, with [x_prev] given for the first equation and
    [x_next = 0] after the last. *)
Fixpoint tridiagonal_lhs (x_prev : Q) (rows : list TridiagonalSolver.eqn)
    (xs : list Q) : list Q :=
  match rows, xs with
  | (a, b, c, _) :: rest, x :: xs' =>
      (a * x_prev + b * x + c * hd 0 xs') :: tridiagonal_lhs x rest xs'
  | _, _ => []
  end.

(** No pivot [b - a * c'] of the forward sweep vanishes. *)
Fixpoint pivots_nonzero (cp : Q) (rows : list TridiagonalSolver.eqn) : bool :=
  match rows with
  | [] => true
  | (a, b, c, _) :: rest =>
      negb (Qeq_bool (b - a * cp) 0) && pivots_nonzero (c / (b - a * cp)) rest
  end.

(** The system of one spatial cell in a Dougherty step with the scalar rate
    [q]: the three rows of coefficients and the cell's distribution [r] as
    right-hand side. *)
Definition cell_eqns (cfg : config) (q dt : Q) (r : list Q)
  : list TridiagonalSolver.eqn :=
  let dv := grid_dv cfg in
  let v := grid_v cfg in
  let vbar := cell_vbar dv v r in
  let v0t := cell_v0t_sq dv v r in
  zip (zip (zip (cell_a q dt dv v vbar v0t) (cell_b q dt dv (grid_nv cfg) v0t))
           (cell_c q dt dv v vbar v0t))
      r.

(** What leaves a cell through the two ends of the velocity grid in one
    step, in terms of the new distribution [out]. *)
Definition edge_flux (cfg : config) (q dt : Q) (r out : list Q) : Q :=
  let dv := grid_dv cfg in
  let v := grid_v cfg in
  let vbar := cell_vbar dv v r in
  let v0t := cell_v0t_sq dv v r in
  q * dt * ((v0t / dv ^ 2 + (hd 0 v - vbar) / 2 / dv) * hd 0 out
            + (v0t / dv ^ 2 - (List.last v 0 - vbar) / 2 / dv) * List.last out 0).

(** The system whose equation at velocity [v_j] has sub-diagonal
    [fa v_(j-1)], diagonal [fb] and super-diagonal [fc v_(j+1)]; [v_prev]
    stands before the first velocity and [v_end] after the last. *)
Definition shifted_eqns (fa fc : Q -> Q) (fb : Q)
    (v_prev : Q) (vs : list Q) (v_end : Q) (r : list Q)
  : list TridiagonalSolver.eqn :=
  zip (zip (zip (map fa (v_prev :: removelast vs)) (replicate (length vs) fb))
           (map fc (tl vs ++ [v_end])))
      r.

(** ** Particle number *)

(** The zeroth velocity moment summed over the spatial cells, with the
    trapezoidal rule of the collision operators and with the plain sum of
    [moment_x]. *)
Definition particle_number (dv : Q) (f : list (list Q)) : Q :=
  jnp.sum_row (map (jnp.trapz_row dv) f).

Definition particle_number_sum (dv : Q) (f : list (list Q)) : Q :=
  jnp.sum_row (map (fun r => jnp.sum_row r * dv) f).

(** [after] is within the relative tolerance [tol] of [before]. *)
Definition conserved_within (tol before after : Q) : Prop :=
  Qabs (after - before) <= tol * Qabs before.

(** A rational stand-in for the exponential: positive, 1 at 0, increasing. *)
Definition rational_exp (x : Q) : Q :=
  if Qle_bool x 0 then 1 / (1 - x) else 1 + x.

(** A grid of three velocities in one spatial cell, with collisions on. *)
Definition collision_cfg (v : list Q) : config :=
  {| grid_x := [0];
     grid_x_a := [-1; 0; 1];
     grid_v := v;
     grid_dx := 1;
     grid_dv := 1;
     grid_dt := 1 / 2;
     grid_beta := 1;
     grid_nx := 1;
     grid_nv := 3;
     nuee := jnp.Scalar 1;
     solver_fp_operator := "dougherty";
     terms_edfdv := "exponential";
     terms_time := "leapfrog";
     terms_fokker_planck_is_on := true;
     terms_krook_is_on := false |}.

(** * Further specification-side definitions *)

(** ** Setting up the step object *)


(** ** The entries of the state that a step reads *)

Definition step_input_keys : list string :=
  ["electron"; "ni"; "Z"; "a"; "e"; "prev_a"].

(** Two bundles agree on the entries named by [ks]. *)
Definition agree_on (ks : list string) (d d' : gmap string jnp.ndarray) : Prop :=
  Forall (fun k => d' !! k = d !! k) ks.

(** The configuration of the examples with a positive collision frequency
    and the Fokker-Planck term switched off. *)
Definition rate_off_cfg : config :=
  {| grid_x := [0; 1];
     grid_x_a := [-1; 0; 1; 2];
     grid_v := [-1; 0; 1];
     grid_dx := 1;
     grid_dv := 1;
     grid_dt := 1;
     grid_beta := 1;
     grid_nx := 2;
     grid_nv := 3;
     nuee := jnp.Scalar 1;
     solver_fp_operator := "dougherty";
     terms_edfdv := "exponential";
     terms_time := "leapfrog";
     terms_fokker_planck_is_on := false;
     terms_krook_is_on := false |}.

(** ** The Lenard-Bernstein operator, cell by cell *)

(** The second velocity moment of a cell about zero. *)
Definition cell_second_moment (dv : Q) (v r : list Q) : Q :=
  jnp.trapz_row dv (zip_with Qmult r (map (fun a => a ^ 2) v)).

(** ** Species of the "density" section *)

Definition uniform_species (item : string * species_params) : Prop :=
  basis (species_n item.2) = "uniform" /\ basis (species_T item.2) = "uniform".

Definition species_count (items : list (string * species_params)) : nat :=
  length (List.filter (fun item => String.prefix "species-" item.1) items).

(** ** Grids *)

(** Neighbouring entries of [l] are [d] apart. *)
Definition uniformly_spaced (d : Q) (l : list Q) : Prop :=
  forall i a b, l !! i = Some a -> l !! S i = Some b -> b - a == d.

(** The frequency index of entry [i] of a discrete Fourier transform of
    length [n]. *)
Definition fft_index (n i : nat) : Z :=
  if decide (i < (n + 1) / 2)%nat then Z.of_nat i
  else (Z.of_nat i - Z.of_nat n)%Z.

(** An example grid: four cells on [0, 4], four velocities on [-3, 3]. *)
Definition example_grid_yaml : vlasov1d2v.grid_yaml :=
  {| vlasov1d2v.yaml_xmin := 0; vlasov1d2v.yaml_xmax := 4;
     vlasov1d2v.yaml_nx := 4;
     vlasov1d2v.yaml_vmax := 6; vlasov1d2v.yaml_nv := 4;
     vlasov1d2v.yaml_dt := 1 / 2; vlasov1d2v.yaml_tmax := 10 |}.

Definition example_cfg2v : vlasov1d2v.cfg_t :=
  {| vlasov1d2v.cfg_grid := example_grid_yaml;
     vlasov1d2v.cfg_Te := "2000eV";
     vlasov1d2v.cfg_ey_drivers := [];
     vlasov1d2v.cfg_c_light := None |}.

(** A stand-in for the normalised thermal velocity. *)
Definition example_sqrt_Te (s : string) : option Q := Some (1 / 2).

(** Entry [f[i, j, k]] of a rank-three array. *)
Definition entry3 (f : list (list (list Q))) (i j k : nat) : option Q :=
  r ← f !! i; c ← r !! j; c !! k.

(** ** The initial state in two velocity dimensions *)

(** A rank-three array of shape [(nx, nv, nv)]. *)
Definition shape3 (nx nv : nat) (f : list (list (list Q))) : Prop :=
  length f = nx
  /\ Forall (fun plane => length plane = nv
                          /\ Forall (fun r => length r = nv) plane) f.

(** The density profile is the zeroth moment of the distribution. *)
Definition neutral (nv : nat) (dv : Q) (n : list Q) (f : list (list (list Q)))
  : Prop :=
  Forall2 (fun x plane => x == vlasov1d2v.plane_sum plane * dv ^ 2) n f.

Definition example_derived : derived_t :=
  {| derived_n0 := 2; derived_ne := 1; derived_Te := 1; derived_Ti := 1;
     logLambda_ei := 7; logLambda_ee := 7;
     nuei_shk_norm := 1; nuei_nrl_norm := 1;
     nD_NRL := 1; nD_Shkarofsky := 1 |}.

Definition example_cfg_with_units : helpers_cfg :=
  {| units := example_units (LogLambdaNum 7);
     derived := Some example_derived;
     density := [("species-background", example_species "uniform" "uniform")] |}.

Definition example_init_grid : vlasov1d2v.init_grid :=
  {| vlasov1d2v.init_nx := 2; vlasov1d2v.init_nv := 3;
     vlasov1d2v.init_beta := 1; vlasov1d2v.init_vmax := 6;
     vlasov1d2v.init_dv := 4 |}.

(** ** Broadcasting on well-shaped arrays *)


Lemma mapM_total {A B} (g : A -> B) (l : list A) :
  mapM (fun a => Some (g a)) l = Some (map g l).
Proof.
  induction l as [|a l IH]; [reflexivity|].
  simpl. rewrite IH. reflexivity.
Qed.

Lemma mapM_ext_Some {A B} (k : A -> option B) (g : A -> B) (l : list A) :
  (forall a, a ∈ l -> k a = Some (g a)) -> mapM k l = Some (map g l).
Proof.
  induction l as [|a l IH]; intros H; [reflexivity|].
  simpl. rewrite (H a) by left. simpl. rewrite IH; [reflexivity|].
  intros b Hb. apply H. right. exact Hb.
Qed.

Lemma zip_with_singleton_r {A B C} (g : A -> B -> C) (x : list A) (b : B) :
  length x = 1%nat -> zip_with g x [b] = map (fun a => g a b) x.
Proof. destruct x as [|a [|a' x]]; simpl; intros; try discriminate; reflexivity. Qed.

Lemma zip_with_singleton_l {A B C} (g : A -> B -> C) (a : A) (y : list B) :
  length y = 1%nat -> zip_with g [a] y = map (g a) y.
Proof. destruct y as [|b [|b' y]]; simpl; intros; try discriminate; reflexivity. Qed.

Lemma mapM_zip_with {A B C} (g : A -> B -> C) (x : list A) (y : list B) :
  mapM (fun p => Some (g p.1 p.2)) (zip x y) = Some (zip_with g x y).
Proof.
  rewrite mapM_total. f_equal.
  revert y. induction x as [|a x IH]; intros [|b y]; simpl; try reflexivity.
  rewrite IH. reflexivity.
Qed.

(** A row against a row of the same length. *)
Lemma rowop_same op (x y : list Q) :
  length x = length y -> jnp.rowop op x y = Some (zip_with op x y).
Proof.
  intros H. unfold jnp.rowop, jnp.broadcast.
  rewrite decide_True by exact H. apply mapM_zip_with.
Qed.

(** A row against a single entry, which is stretched. *)
Lemma rowop_stretch_r op (x : list Q) (b : Q) :
  jnp.rowop op x [b] = Some (map (fun a => op a b) x).
Proof.
  unfold jnp.rowop, jnp.broadcast. case_decide as H.
  - rewrite mapM_zip_with, zip_with_singleton_r by exact H. reflexivity.
  - destruct x as [|a [|a' x]]; simpl in H; try lia;
      exact (mapM_total (fun a => op a b) _).
Qed.

Lemma rowop_stretch_l op (a : Q) (y : list Q) :
  jnp.rowop op [a] y = Some (map (op a) y).
Proof.
  unfold jnp.rowop, jnp.broadcast. case_decide as H.
  - rewrite mapM_zip_with, zip_with_singleton_l by (symmetry; exact H).
    reflexivity.
  - apply mapM_total.
Qed.

(** A matrix against a column with one entry per row. *)
Lemma matop_column_r op (m : list (list Q)) (cs : list Q) :
  length m = length cs ->
  jnp.matop op m (column cs)
  = Some (zip_with (fun r c => map (fun a => op a c) r) m cs).
Proof.
  intros H. unfold jnp.matop, jnp.broadcast, column.
  rewrite decide_True by (rewrite length_map; exact H).
  clear H. revert cs. induction m as [|r m IH]; intros [|c cs]; simpl;
    try reflexivity.
  rewrite rowop_stretch_r. simpl. rewrite IH. reflexivity.
Qed.

(** A column against a single row: the outer product shape. *)
Lemma matop_column_row op (cs : list Q) (r : list Q) :
  jnp.matop op (column cs) [r] = Some (map (fun c => map (op c) r) cs).
Proof.
  unfold jnp.matop, jnp.broadcast, column. case_decide as H.
  - rewrite length_map in H. destruct cs as [|c [|c' cs]]; try discriminate.
    simpl. rewrite rowop_stretch_l. reflexivity.
  - rewrite length_map in H.
    destruct cs as [|c [|c' cs]]; simpl in *; try lia.
    + reflexivity.
    + rewrite !rowop_stretch_l. simpl.
      rewrite (mapM_ext_Some _ (fun x => map (op (hd 0 x)) r)).
      * rewrite map_map. reflexivity.
      * intros x Hx. apply list_elem_of_fmap in Hx. destruct Hx as (q & -> & _).
        apply rowop_stretch_l.
Qed.

(** A single row against a matrix whose rows have its length. *)
Lemma matop_row_l op (r : list Q) (m : list (list Q)) :
  Forall (fun s => length s = length r) m ->
  jnp.matop op [r] m = Some (map (zip_with op r) m).
Proof.
  intros Hm. unfold jnp.matop, jnp.broadcast. case_decide as H.
  - destruct m as [|s [|s' m]]; try discriminate. simpl.
    rewrite rowop_same; [reflexivity|].
    apply Forall_cons in Hm. destruct Hm as [Hs _]. congruence.
  - apply mapM_ext_Some. intros s Hs.
    rewrite Forall_forall in Hm. apply rowop_same. symmetry. apply Hm, Hs.
Qed.

(** Two matrices of the same shape. *)
Lemma matop_same op (m k : list (list Q)) :
  Forall2 (fun r s => length r = length s) m k ->
  jnp.matop op m k = Some (zip_with (zip_with op) m k).
Proof.
  intros H. unfold jnp.matop, jnp.broadcast.
  rewrite decide_True by (eapply Forall2_length; exact H).
  induction H as [|r s m k Hrs _ IH]; [reflexivity|].
  simpl. rewrite rowop_same by exact Hrs. simpl.
  rewrite IH. reflexivity.
Qed.

Lemma column_map (g : Q -> Q) (l : list Q) :
  map (map g) (column l) = column (map g l).
Proof. unfold column. rewrite !map_map. reflexivity. Qed.

Lemma length_column (l : list Q) : length (column l) = length l.
Proof. apply length_map. Qed.

(** ** The trapezoidal rule is linear *)

Lemma trapz_row_scale_r dx c y :
  jnp.trapz_row dx (map (fun a => a * c) y) == jnp.trapz_row dx y * c.
Proof.
  induction y as [|y0 [|y1 tl] IH]; simpl in *; try ring.
  rewrite IH. field.
Qed.

Lemma trapz_row_scale_l dx c y :
  jnp.trapz_row dx (map (Qmult c) y) == c * jnp.trapz_row dx y.
Proof.
  induction y as [|y0 [|y1 tl] IH]; simpl in *; try ring.
  rewrite IH. field.
Qed.

Lemma trapz_row_div dx t y :
  jnp.trapz_row dx (map (fun a => a / t) y) == jnp.trapz_row dx y / t.
Proof.
  induction y as [|y0 [|y1 tl] IH]; simpl in *; try (unfold Qdiv; ring).
  rewrite IH. unfold Qdiv. ring.
Qed.

Lemma trapz_row_plus dx x : forall y,
  length x = length y ->
  jnp.trapz_row dx (zip_with Qplus x y) == jnp.trapz_row dx x + jnp.trapz_row dx y.
Proof.
  induction x as [|x0 [|x1 xt] IH]; intros [|y0 [|y1 yt]] H;
    try discriminate; simpl in *; try ring.
  specialize (IH (y1 :: yt)). simpl in IH. rewrite IH by congruence.
  field.
Qed.

Lemma trapz_row_dx dx y : jnp.trapz_row dx y == dx * jnp.trapz_row 1 y.
Proof.
  induction y as [|y0 [|y1 tl] IH]; simpl in *; try ring.
  rewrite IH. field.
Qed.

Lemma trapz_row_short dx y : (length y < 2)%nat -> jnp.trapz_row dx y = 0.
Proof. destruct y as [|y0 [|y1 tl]]; simpl; intros; try lia; reflexivity. Qed.

Lemma trapz_row_pos y :
  Forall (fun a => 0 < a) y -> (2 <= length y)%nat -> 0 < jnp.trapz_row 1 y.
Proof.
  induction y as [|y0 [|y1 tl] IH]; simpl; intros Hpos Hlen; try lia.
  apply Forall_cons in Hpos. destruct Hpos as [H0 Hpos].
  pose proof Hpos as Hpos'. apply Forall_cons in Hpos'. destruct Hpos' as [H1 _].
  assert (Hhead : 0 < 1 * (y1 + y0) / 2).
  { setoid_replace (1 * (y1 + y0) / 2) with ((y1 + y0) * (1 # 2))
      using relation Qeq by field.
    apply Qmult_lt_0_compat; [|reflexivity].
    rewrite <- (Qplus_0_l 0). apply Qplus_lt_le_compat; [exact H1|].
    apply Qlt_le_weak, H0. }
  destruct tl as [|y2 tl].
  - rewrite Qplus_0_r. exact Hhead.
  - specialize (IH Hpos ltac:(simpl; lia)).
    rewrite <- (Qplus_0_l 0). apply Qplus_lt_le_compat; [exact Hhead|].
    apply Qlt_le_weak, IH.
Qed.

(** A matrix against a single row of the length of its rows. *)
Lemma matop_row_r op (m : list (list Q)) (r : list Q) :
  Forall (fun s => length s = length r) m ->
  jnp.matop op m [r] = Some (map (fun s => zip_with op s r) m).
Proof.
  intros Hm. unfold jnp.matop, jnp.broadcast. case_decide as H.
  - destruct m as [|s [|s' m]]; try discriminate. simpl.
    rewrite rowop_same; [reflexivity|].
    apply Forall_cons in Hm. tauto.
  - assert (Hall : mapM (fun s => jnp.rowop op s r) m
                   = Some (map (fun s => zip_with op s r) m)).
    { apply mapM_ext_Some. intros s Hs.
      rewrite Forall_forall in Hm. apply rowop_same, Hm, Hs. }
    destruct m as [|s [|s' m]]; simpl in H; try lia; exact Hall.
Qed.

(** A single row against a column: every entry of the column meets the row. *)
Lemma matop_row_column op (r : list Q) (cs : list Q) :
  jnp.matop op [r] (column cs) = Some (map (fun c => map (fun a => op a c) r) cs).
Proof.
  unfold jnp.matop, jnp.broadcast, column. case_decide as H.
  - rewrite length_map in H. destruct cs as [|c [|c' cs]]; try discriminate.
    simpl. rewrite rowop_stretch_r. reflexivity.
  - rewrite (mapM_ext_Some _ (fun x => map (fun a => op a (hd 0 x)) r)).
    + rewrite map_map. reflexivity.
    + intros x Hx. apply list_elem_of_fmap in Hx. destruct Hx as (q & -> & _).
      apply rowop_stretch_r.
Qed.

(** A column against a matrix with one row per entry. *)
Lemma matop_column_l op (cs : list Q) (m : list (list Q)) :
  length cs = length m ->
  jnp.matop op (column cs) m = Some (zip_with (fun c s => map (op c) s) cs m).
Proof.
  intros H. unfold jnp.matop, jnp.broadcast, column.
  rewrite decide_True by (rewrite length_map; exact H).
  clear H. revert m. induction cs as [|c cs IH]; intros [|s m]; simpl;
    try reflexivity.
  rewrite rowop_stretch_l. simpl. rewrite IH. reflexivity.
Qed.

(** ** Rolling a grid by one cell *)

Lemma take_pred_removelast (v0 : Q) (vt : list Q) :
  take (length vt) (v0 :: vt) = removelast (v0 :: vt).
Proof.
  revert v0. induction vt as [|v1 vt IH]; intros v0; [reflexivity|].
  cbn [length take]. rewrite IH. reflexivity.
Qed.

Lemma drop_pred_last (v0 : Q) (vt : list Q) :
  drop (length vt) (v0 :: vt) = [List.last (v0 :: vt) 0].
Proof.
  revert v0. induction vt as [|v1 vt IH]; intros v0; [reflexivity|].
  cbn [length drop]. rewrite IH. reflexivity.
Qed.

(** [roll(v, 1)] brings the last entry to the front. *)
Lemma roll_list_forward (v0 : Q) (vt : list Q) :
  jnp.roll_list 1 (v0 :: vt) = List.last (v0 :: vt) 0 :: removelast (v0 :: vt).
Proof.
  unfold jnp.roll_list, rotate.
  assert (Hn : (Z.to_nat ((- (1)) mod Z.of_nat (length (v0 :: vt)))
                mod length (v0 :: vt))%nat = length vt).
  { cbn [length]. rewrite Nat2Z.inj_succ.
    replace (- (1) mod Z.succ (Z.of_nat (length vt)))%Z
      with (Z.of_nat (length vt)).
    - rewrite Nat2Z.id. apply Nat.mod_small. lia.
    - apply Z.mod_unique with (q := (-1)%Z); lia. }
  rewrite Hn, take_pred_removelast, drop_pred_last. reflexivity.
Qed.

(** [roll(v, -1)] sends the first entry to the back. *)
Lemma roll_list_backward (v0 : Q) (vt : list Q) :
  jnp.roll_list (-1) (v0 :: vt) = vt ++ [v0].
Proof.
  unfold jnp.roll_list, rotate. cbn [length].
  change (- -1)%Z with 1%Z.
  destruct vt as [|v1 vt]; [reflexivity|].
  assert (Hn : (Z.to_nat (1 mod Z.of_nat (S (S (length vt))))
                mod S (S (length vt)))%nat = 1%nat).
  { rewrite Z.mod_small by lia. apply Nat.mod_small. lia. }
  cbn [length]. rewrite Hn. reflexivity.
Qed.

Lemma length_roll_list k (v : list Q) : length (jnp.roll_list k v) = length v.
Proof. unfold jnp.roll_list. apply length_rotate. Qed.

(** Sums of lists that agree entry by entry. *)
Lemma sum_row_proper (x y : list Q) :
  Forall2 Qeq x y -> jnp.sum_row x == jnp.sum_row y.
Proof.
  induction 1 as [|a b x y Hab _ IH]; [reflexivity|].
  simpl. fold (jnp.sum_row x). fold (jnp.sum_row y). rewrite Hab, IH.
  reflexivity.
Qed.

Lemma trapz_row_proper dx (x y : list Q) :
  Forall2 Qeq x y -> jnp.trapz_row dx x == jnp.trapz_row dx y.
Proof.
  induction 1 as [|a b x y Hab Hxy IH]; [reflexivity|].
  destruct Hxy as [|a' b' x y Hab' Hxy]; [reflexivity|].
  change (dx * (a' + a) / 2 + jnp.trapz_row dx (a' :: x)
          == dx * (b' + b) / 2 + jnp.trapz_row dx (b' :: y)).
  rewrite IH, Hab, Hab'. reflexivity.
Qed.

Lemma lookup_removelast (v : list Q) (j : nat) :
  (S j < length v)%nat -> removelast v !! j = v !! j.
Proof.
  revert j. induction v as [|v0 [|v1 vt] IH]; intros j Hj; simpl in Hj;
    try lia.
  change (removelast (v0 :: v1 :: vt)) with (v0 :: removelast (v1 :: vt)).
  destruct j as [|j]; [reflexivity|].
  simpl. apply IH. simpl. lia.
Qed.

(** Entry [j + 1] of [roll(v, 1)] is [v[j]]; entry [j] of [roll(v, -1)] is
    [v[j + 1]]. *)
Lemma lookup_roll_forward (v : list Q) (j : nat) :
  (S j < length v)%nat -> jnp.roll_list 1 v !! S j = v !! j.
Proof.
  intros Hj. destruct v as [|v0 vt]; [simpl in Hj; lia|].
  rewrite roll_list_forward.
  change ((List.last (v0 :: vt) 0 :: removelast (v0 :: vt)) !! S j)
    with (removelast (v0 :: vt) !! j).
  apply lookup_removelast. exact Hj.
Qed.

Lemma lookup_roll_backward (v : list Q) (j : nat) :
  (S j < length v)%nat -> jnp.roll_list (-1) v !! j = v !! S j.
Proof.
  intros Hj. destruct v as [|v0 vt]; [simpl in Hj; lia|].
  rewrite roll_list_backward. simpl in Hj |- *.
  apply lookup_app_l. lia.
Qed.

(** * Properties *)

(** ** Collision step: fast path and the unused Krook rate *)

Lemma gt0_false_iff a : jnp.gt0 a = false <-> a <= 0.
Proof.
  unfold jnp.gt0. rewrite negb_false_iff. apply Qle_bool_iff.
Qed.

Lemma existsb_false_Forall {A} (p : A -> bool) (P : A -> Prop) l :
  (forall a, p a = false <-> P a) -> existsb p l = false <-> Forall P l.
Proof.
  intros Hp. induction l as [|x l IH]; simpl.
  - split; [constructor | reflexivity].
  - rewrite orb_false_iff, Forall_cons, IH, Hp. reflexivity.
Qed.

Lemma any_pos_false_iff x : jnp.any_pos x = false <-> nonpositive_everywhere x.
Proof.
  destruct x as [a|v|m0]; simpl.
  - apply gt0_false_iff.
  - apply existsb_false_Forall, gt0_false_iff.
  - apply existsb_false_Forall. intros r.
    apply existsb_false_Forall, gt0_false_iff.
Qed.

(** C5: when the configured collision frequency [cfg["nuee"]] is non-positive
    everywhere, the collision step returns [f] itself, for every rate
    argument (even [None]), every [f] and every [dt]; no operator is built or
    solved and nothing is raised. *)
Theorem collisions_zero_rate_is_identity
    (self : Collisions.t) (nu_fp nu_K : option jnp.ndarray)
    (f : jnp.ndarray) (dt : Q) :
  nonpositive_everywhere (nuee (Collisions.cfg self)) ->
  Collisions.__call__ self nu_fp nu_K f dt = Some f.
Proof.
  intros H. apply any_pos_false_iff in H.
  unfold Collisions.__call__. rewrite H. reflexivity.
Qed.

Lemma collisions_zero_rate_is_identity_witness :
  Collisions.__call__
    (Collisions.__init__ (fun _ => 1) (example_cfg "leapfrog" "dougherty"))
    None None (jnp.Arr2 [[1; 2; 1]; [0; 3; 0]]) (1 / 2)
  = Some (jnp.Arr2 [[1; 2; 1]; [0; 3; 0]]).
Proof.
  apply collisions_zero_rate_is_identity.
  simpl. vm_compute. discriminate.
Defined.

(** C8: the collision step, and hence the Vlasov-Poisson-Fokker-Planck step,
    returns the same result for any two Krook rate arguments. *)
Theorem collisions_ignore_krook_rate
    (self : Collisions.t) (vpfp : VlasovPoissonFokkerPlanck.t)
    (nu_fp nu_K nu_K' : option jnp.ndarray) (f ni Z a prev_ex : jnp.ndarray)
    (dex_array : list jnp.ndarray) (dt : Q) :
  Collisions.__call__ self nu_fp nu_K f dt
  = Collisions.__call__ self nu_fp nu_K' f dt
  /\ VlasovPoissonFokkerPlanck.__call__ vpfp f ni Z a prev_ex dex_array nu_fp nu_K
     = VlasovPoissonFokkerPlanck.__call__ vpfp f ni Z a prev_ex dex_array nu_fp nu_K'.
Proof.
  split; reflexivity.
Qed.

(** ** The sixth-order integrator *)

(** Case analysis on the next computation that may raise. *)
Ltac step_option :=
  match goal with
  | |- context [mbind _ ?o] =>
      lazymatch o with
      | mbind _ _ => fail
      | Some _ => fail
      | None => fail
      | _ => destruct o eqn:?; simpl; try reflexivity
      end
  end.

(** With the velocity-tracing pushers, every stage of a schedule adds one
    entry to the trace. *)
Lemma run_trace_length ti dt ni Z a dex sts :
  TimeIntegrator.vdfdx ti = record_duration false ->
  TimeIntegrator.edfdv ti = (fun f _ dt => record_duration true f dt) ->
  forall e v e' v',
    Schedule.run ti dt ni Z a dex sts (e, jnp.Arr1 v) = Some (e', jnp.Arr1 v') ->
    length v' = (length sts + length v)%nat.
Proof.
  intros Hx Hv. induction sts as [|st sts IH]; intros e v e' v' Hrun.
  - simpl in Hrun. inversion Hrun; subst. reflexivity.
  - simpl in Hrun.
    destruct (Schedule.run_stage ti dt ni Z a dex st (jnp.Arr1 v))
      as [[e1 f1]|] eqn:Hst; [|discriminate].
    simpl in Hrun.
    assert (Hf1 : f1 = jnp.Arr1 (Schedule.vel st * dt :: v)).
    { unfold Schedule.run_stage in Hst. rewrite Hx, Hv in Hst.
      destruct (Schedule.space st); simpl in Hst;
        repeat (match type of Hst with
                | context [mbind _ ?o] =>
                    let E := fresh "E" in destruct o eqn:E; simpl in Hst
                end; try discriminate);
        congruence. }
    subst f1. apply IH in Hrun. simpl in Hrun. simpl. lia.
Qed.

(** C1, as the specification states it, fails: no schedule with four
    field-solve points reproduces a call.  With pushers that trace the
    velocity pushes, one call leaves six entries. *)
Lemma sixth_order_not_four_field_solves :
  exists self,
    SixthOrderHamIntegrator.__init__ (tracing false true)
      (example_cfg "sixth" "dougherty") = Ok self
    /\ ~ exists sts, length sts = 4%nat /\ Schedule.executes self sts.
Proof.
  eexists. split; [reflexivity|].
  intros (sts & Hlen & Hex).
  specialize (Hex (jnp.Arr1 []) (jnp.Scalar 0) (jnp.Scalar 0) (jnp.Scalar 0)
                  zeros6 (jnp.Scalar 0)).
  match type of Hex with
  | ?lhs = _ =>
      let r := eval vm_compute in lhs in
      change lhs with r in Hex
  end.
  symmetry in Hex.
  apply run_trace_length in Hex; [|reflexivity..].
  simpl in Hex. lia.
Qed.

(** C1, amended: a call executes the six-stage schedule [Schedule.sixth]:
    six field solves, each from the current distribution and followed by a
    velocity push with coefficients D1, D2, D3, D3, D2, D1 and driver values
    0 to 5, with the space pushes a1, a2, a3, a2, a1 (a palindrome) in
    between. *)
Theorem sixth_order_executes_schedule (self : SixthOrderHamIntegrator.t) :
  Schedule.executes self (Schedule.sixth self)
  /\ length (Schedule.sixth self) = 6%nat
  /\ map Schedule.vel (Schedule.sixth self)
     = [SixthOrderHamIntegrator.D1 self; SixthOrderHamIntegrator.D2 self;
        SixthOrderHamIntegrator.D3 self; SixthOrderHamIntegrator.D3 self;
        SixthOrderHamIntegrator.D2 self; SixthOrderHamIntegrator.D1 self]
  /\ omap Schedule.space (Schedule.sixth self)
     = [SixthOrderHamIntegrator.a1 self; SixthOrderHamIntegrator.a2 self;
        SixthOrderHamIntegrator.a3 self; SixthOrderHamIntegrator.a2 self;
        SixthOrderHamIntegrator.a1 self]
  /\ rev (omap Schedule.space (Schedule.sixth self))
     = omap Schedule.space (Schedule.sixth self)
  /\ map Schedule.drv (Schedule.sixth self) = seq 0 6.
Proof.
  split; [|repeat split; reflexivity].
  intros f ni Z a dex prev_ex.
  unfold SixthOrderHamIntegrator.__call__, Schedule.sixth. simpl.
  unfold Schedule.run_stage. simpl.
  repeat step_option.
Qed.

(** ** The leapfrog integrator *)

(** C4, as the specification states it, fails: the space advection runs for
    the full step [dt], not for half of it.  With pushers that trace the
    space pushes and [dt = 1], the call records the duration 1, a half-step
    would record 1/2. *)
Lemma leapfrog_space_push_is_not_a_half_step :
  exists self,
    LeapfrogIntegrator.__init__ (tracing true false)
      (example_cfg "leapfrog" "dougherty") = Ok self
    /\ LeapfrogIntegrator.__call__ self (jnp.Arr1 []) (jnp.Scalar 0)
         (jnp.Scalar 0) (jnp.Scalar 0) zeros6 (jnp.Scalar 0)
       = Some (jnp.Scalar 0, jnp.Arr1 [1 * 1])
    /\ forall b,
         leapfrog_as_specified b self (jnp.Arr1 []) (jnp.Scalar 0)
           (jnp.Scalar 0) (jnp.Scalar 0) zeros6 (jnp.Scalar 0)
         <> LeapfrogIntegrator.__call__ self (jnp.Arr1 []) (jnp.Scalar 0)
              (jnp.Scalar 0) (jnp.Scalar 0) zeros6 (jnp.Scalar 0).
Proof.
  eexists. split; [reflexivity|]. split; [reflexivity|].
  intros b; destruct b; vm_compute; discriminate.
Qed.

(** C4, amended: a call returns [(e, f')] exactly when one space advection of
    the input over the full step [dt] gives [f1], one field solve (from the
    input distribution in Ampere mode, from [f1] otherwise, with the previous
    field and [dt]) gives [(pond, e)], and one velocity advection of [f1]
    over [dt] under the force [pond + e + dex_array[0]] gives [f']. *)
Theorem leapfrog_call_characterisation
    (self : LeapfrogIntegrator.t) (f ni Z a : jnp.ndarray)
    (dex_array : list jnp.ndarray) (prev_ex e f' : jnp.ndarray) :
  let super := LeapfrogIntegrator.base self in
  let dt := LeapfrogIntegrator.dt self in
  LeapfrogIntegrator.__call__ self f ni Z a dex_array prev_ex = Some (e, f')
  <-> exists f1 pond dex0 force,
        TimeIntegrator.vdfdx super f dt = Some f1
        /\ field_solve_call (TimeIntegrator.field_solve super)
             (if hampere (TimeIntegrator.field_solve super) then f else f1)
             ni Z a (Some prev_ex) (Some dt) = Some (pond, e)
        /\ dex_array !! 0%nat = Some dex0
        /\ (Some pond + Some e + Some dex0)%np = Some force
        /\ TimeIntegrator.edfdv super f1 force dt = Some f'.
Proof.
  intros super dt. unfold LeapfrogIntegrator.__call__.
  fold super. fold dt. split.
  - intros H.
    destruct (TimeIntegrator.vdfdx super f dt) as [f1|] eqn:E1; [|discriminate].
    simpl in H.
    destruct (field_solve_call _ _ ni Z a (Some prev_ex) (Some dt))
      as [[pond e1]|] eqn:E2; [|discriminate].
    simpl in H.
    destruct (dex_array !! 0%nat) as [dex0|] eqn:E3.
    2:{ destruct (jnp.binop Qplus pond e1); discriminate. }
    change (jnp.binop Qplus pond e1 + Some dex0)%np
      with (Some pond + Some e1 + Some dex0)%np in H.
    destruct (Some pond + Some e1 + Some dex0)%np as [force|] eqn:E4;
      [|discriminate].
    simpl in H.
    destruct (TimeIntegrator.edfdv super f1 force dt) as [f2|] eqn:E5;
      [|discriminate].
    simpl in H. inversion H; subst.
    exists f1, pond, dex0, force. auto.
  - intros (f1 & pond & dex0 & force & E1 & E2 & E3 & E4 & E5).
    rewrite E1. simpl. rewrite E2. simpl. rewrite E3.
    change (jnp.binop Qplus pond e + Some dex0)%np
      with (Some pond + Some e + Some dex0)%np.
    rewrite E4. simpl. rewrite E5. reflexivity.
Qed.

(** ** The top-level step and the caller's bundle *)

Lemma heap_bind_inv {A B} (m : heapM A) (k : A -> heapM B) h r :
  (m ≫= k) h = Some r -> exists a h1, m h = Some (a, h1) /\ k a h1 = Some r.
Proof.
  unfold mbind, heapM_bind. destruct (m h) as [[a h1]|]; [|discriminate].
  intros H. exists a, h1. auto.
Qed.

Lemma lift_inv {A} (o : option A) h a h1 :
  lift o h = Some (a, h1) -> o = Some a /\ h1 = h.
Proof.
  unfold lift. destruct o; simpl; [|discriminate].
  intros H. inversion H. auto.
Qed.

Lemma getitem_inv y k (h : gmap loc (gmap string jnp.ndarray)) x h1 :
  getitem y k h = Some (x, h1) ->
  h1 = h /\ exists d, h !! y = Some d /\ d !! k = Some x.
Proof.
  unfold getitem. destruct (h !! y) as [d|] eqn:Ey; simpl; [|discriminate].
  destruct (d !! k) as [x'|] eqn:Ek; simpl; [|discriminate].
  intros H. inversion H; subst. eauto.
Qed.

Lemma heap_ret_inv {A} (a : A) h b h1 :
  (mret a : heapM A) h = Some (b, h1) -> b = a /\ h1 = h.
Proof. unfold mret, heapM_ret. intros H. inversion H. auto. Qed.

Lemma new_dict_inv d (h : gmap loc (gmap string jnp.ndarray)) r h1 :
  new_dict d h = Some (r, h1) -> h !! r = None /\ h1 = <[r := d]> h.
Proof.
  unfold new_dict. intros H. inversion H; subst. split; [|reflexivity].
  apply not_elem_of_dom, is_fresh.
Qed.

(** Peels the first computation off a run of the heap monad. *)
Ltac heap_step H :=
  let a := fresh "x" in
  let h1 := fresh "h" in
  let E := fresh "E" in
  apply heap_bind_inv in H; destruct H as (a & h1 & E & H);
  first
    [ apply lift_inv in E; destruct E as [E ->]
    | apply getitem_inv in E; destruct E as [-> E]
    | apply heap_ret_inv in E; destruct E as [-> ->] ].

(** C10: a step that returns allocates its result as a new bundle and leaves
    every bundle of the initial heap, the caller's input among them, as it
    was; the new bundle has the eight entries of a state, and its [ni] and
    [Z] are the input's. *)
Theorem step_preserves_input_bundle
    {D : Type} (P : pushers D) (self : VlasovMaxwell.t) (t : Q) (y : loc)
    (args : args_t D) (h h' : gmap loc (gmap string jnp.ndarray)) (r : loc) :
  VlasovMaxwell.__call__ P self t y args h = Some (r, h') ->
  exists input output : gmap string jnp.ndarray,
    h !! y = Some input
    /\ h !! r = None
    /\ h' = <[r := output]> h
    /\ h' !! y = Some input
    /\ (forall l, is_Some (h !! l) -> h' !! l = h !! l)
    /\ dom output = bundle_keys
    /\ is_Some (input !! "ni") /\ output !! "ni" = input !! "ni"
    /\ is_Some (input !! "Z") /\ output !! "Z" = input !! "Z".
Proof.
  intros H. unfold VlasovMaxwell.__call__ in H.
  do 7 heap_step H.
  apply heap_bind_inv in H. destruct H as (nu_fp & h2 & E7 & H).
  assert (h2 = h) as ->.
  { destruct (terms_fokker_planck_is_on _);
      [apply lift_inv in E7 | apply heap_ret_inv in E7]; tauto. }
  apply heap_bind_inv in H. destruct H as (nu_K & h3 & E8 & H).
  assert (h3 = h) as ->.
  { destruct (terms_krook_is_on _);
      [apply lift_inv in E8 | apply heap_ret_inv in E8]; tauto. }
  do 14 heap_step H.
  apply new_dict_inv in H. destruct H as [Hfresh ->].
  assert (exists input, h !! y = Some input) as [input Hy].
  { match goal with
    | E : exists d, h !! y = Some d /\ _ |- _ => destruct E as (d & ? & _); eauto
    end. }
  repeat match goal with
         | E : exists d, h !! y = Some d /\ _ |- _ =>
             let d := fresh "d" in
             let Hd := fresh "Hd" in
             destruct E as (d & Hd & E); rewrite Hy in Hd; injection Hd as <-
         end.
  assert (Hne : r <> y) by congruence.
  eexists input, _.
  split; [exact Hy|]. split; [exact Hfresh|]. split; [reflexivity|].
  split; [rewrite lookup_insert_ne by exact Hne; exact Hy|].
  split.
  { intros l [d Hl]. rewrite lookup_insert_ne by congruence. reflexivity. }
  split.
  { unfold bundle_keys. rewrite !dom_insert_L, dom_empty_L. simpl. set_solver. }
  split; [eauto|]. split; [simplify_map_eq; congruence|].
  split; [eauto|]. simplify_map_eq; congruence.
Qed.

Lemma step_preserves_input_bundle_witness :
  VlasovMaxwell.__init__ (tracing false false) (example_cfg "leapfrog" "dougherty")
  = Ok example_step
  /\ VlasovMaxwell.__call__ (tracing false false) example_step 0 1%positive
       example_args example_heap
     = Some (2%positive, <[2%positive := example_output]> example_heap)
  /\ exists input output : gmap string jnp.ndarray,
       example_heap !! 1%positive = Some input
       /\ example_heap !! 2%positive = None
       /\ <[2%positive := example_output]> example_heap
          = <[2%positive := output]> example_heap
       /\ (<[2%positive := example_output]> example_heap) !! 1%positive
          = Some input
       /\ (forall l, is_Some (example_heap !! l) ->
                     (<[2%positive := example_output]> example_heap) !! l
                     = example_heap !! l)
       /\ dom output = bundle_keys
       /\ is_Some (input !! "ni") /\ output !! "ni" = input !! "ni"
       /\ is_Some (input !! "Z") /\ output !! "Z" = input !! "Z".
Proof.
  assert (Hrun : VlasovMaxwell.__call__ (tracing false false) example_step 0
                   1%positive example_args example_heap
                 = Some (2%positive, <[2%positive := example_output]> example_heap))
    by (vm_compute; reflexivity).
  split; [reflexivity|]. split; [exact Hrun|].
  exact (step_preserves_input_bundle (tracing false false) example_step 0
           1%positive example_args example_heap
           (<[2%positive := example_output]> example_heap) 2%positive Hrun).
Defined.

(** ** The Coulomb logarithms of [write_units] *)

Lemma bind_result_Ok_inv {A B} (m : result A) (k : A -> result B) b :
  bind_result m k = Ok b -> exists a, m = Ok a /\ k a = Ok b.
Proof. destruct m as [a|e]; simpl; [eauto | discriminate]. Qed.

Lemma of_option_Ok_inv {A} (o : option A) e a :
  of_option o e = Ok a -> o = Some a.
Proof. destruct o; simpl; congruence. Qed.

(** C9: whenever [write_units] returns, the derived quantities it stores have
    [logLambda_ee] equal to [logLambda_ei], the first component of what
    [calc_logLambda] returned; the second component, the separately computed
    electron-electron value, is dropped.  This holds for each way of
    configuring [logLambda], as the statement does not depend on it. *)
Theorem write_units_logLambda_ee_is_ei
    (L : libs) (cfg cfg' : helpers_cfg) (td : string) :
  vfp1d.write_units L cfg td = Ok cfg' ->
  exists d ne Te ei ee,
    derived cfg' = Some d
    /\ Quantity_to L (reference_electron_density (units cfg)) "1/cm^3" = Some ne
    /\ Quantity_to L (reference_electron_temperature (units cfg)) "eV" = Some Te
    /\ vfp1d.calc_logLambda L cfg ne Te (units_Z (units cfg)) (Ion (units cfg))
       = Ok (ei, ee)
    /\ logLambda_ei d = ei
    /\ logLambda_ee d = ei.
Proof.
  unfold vfp1d.write_units. intros H.
  apply bind_result_Ok_inv in H. destruct H as (ne & Hne & H).
  apply bind_result_Ok_inv in H. destruct H as (Te & HTe & H).
  apply bind_result_Ok_inv in H. destruct H as (Ti & HTi & H).
  apply bind_result_Ok_inv in H. destruct H as ([ei ee] & Hll & H).
  apply of_option_Ok_inv in Hne, HTe.
  inversion H; subst; clear H. simpl.
  eexists _, ne, Te, ei, ee. repeat split; eauto.
Qed.

Lemma write_units_logLambda_ee_is_ei_witness :
  vfp1d.calc_logLambda example_libs
    (example_helpers_cfg (LogLambdaStr "plasmapy") []) 1 1 6 "Au+" = Ok (7, 5)
  /\ exists cfg',
       vfp1d.write_units example_libs
         (example_helpers_cfg (LogLambdaStr "plasmapy") []) "/tmp" = Ok cfg'
       /\ exists d ne Te ei ee,
            derived cfg' = Some d
            /\ Quantity_to example_libs "1.5e21/cm^3" "1/cm^3" = Some ne
            /\ Quantity_to example_libs "2000eV" "eV" = Some Te
            /\ vfp1d.calc_logLambda example_libs
                 (example_helpers_cfg (LogLambdaStr "plasmapy") []) ne Te 6 "Au+"
               = Ok (ei, ee)
            /\ logLambda_ei d = ei
            /\ logLambda_ee d = ei.
Proof.
  split; [reflexivity|].
  eexists. split; [reflexivity|].
  apply (write_units_logLambda_ee_is_ei example_libs
           (example_helpers_cfg (LogLambdaStr "plasmapy") []) _ "/tmp").
  reflexivity.
Defined.

(** ** Configuration errors *)

Lemma get_edfdv_unknown {D} (P : pushers D) cfg :
  ~ known_edfdv (terms_edfdv cfg) ->
  TimeIntegrator.get_edfdv P cfg
  = Raise (NotImplementedError (terms_edfdv cfg +:+ " has not been implemented")).
Proof.
  intros Hk. unfold TimeIntegrator.get_edfdv, known_edfdv in *.
  repeat case_decide; tauto.
Qed.

Lemma setup_unknown_edfdv {D} (P : pushers D) cfg :
  ~ known_edfdv (terms_edfdv cfg) ->
  exists msg, VlasovMaxwell.__init__ P cfg = Raise (NotImplementedError msg).
Proof.
  intros Hk.
  unfold VlasovMaxwell.__init__, VlasovPoissonFokkerPlanck.__init__,
    SixthOrderHamIntegrator.__init__, LeapfrogIntegrator.__init__,
    TimeIntegrator.__init__.
  rewrite (get_edfdv_unknown P cfg Hk).
  repeat case_decide; simpl; eauto.
Qed.

Lemma species_profile_unknown L grid p :
  ~ known_basis (basis p) ->
  vfp1d.species_profile L grid p = Raise (NotImplementedError "").
Proof.
  intros Hk. unfold vfp1d.species_profile, known_basis in *.
  repeat case_decide; tauto.
Qed.

Lemma bind_result_Raise {A B} (m : result A) (k : A -> result B) :
  (forall a, m = Ok a -> exists e, k a = Raise e) ->
  exists e, bind_result m k = Raise e.
Proof. destruct m as [a|e]; simpl; eauto. Qed.

Lemma species_loop_bad L cfg grid items :
  Exists bad_species items ->
  forall st, exists e, vfp1d.species_loop L cfg grid items st = Raise e.
Proof.
  induction 1 as [[name sp] items [Hsp Hbad] | [name sp] items _ IH]; intros st.
  - unfold is_species in Hsp. simpl in *. rewrite Hsp.
    apply bind_result_Raise. intros profs_n Hn.
    destruct Hbad as [Hbad | Hbad].
    + rewrite (species_profile_unknown _ _ _ Hbad) in Hn. discriminate.
    + rewrite (species_profile_unknown _ _ _ Hbad). simpl. eauto.
  - simpl. destruct (String.prefix "species-" name); [|apply IH].
    repeat (apply bind_result_Raise; intros ? _).
    apply IH.
Qed.

Lemma species_loop_none L cfg grid items st :
  Forall (fun item => ~ is_species item.1) items ->
  vfp1d.species_loop L cfg grid items st = Ok st.
Proof.
  induction 1 as [| [name sp] items Hsp _ IH]; [reflexivity|].
  unfold is_species in Hsp. simpl in *.
  destruct (String.prefix "species-" name); [tauto | exact IH].
Qed.

(** C7, as the specification states it, fails for the collision operator: a
    configuration that names an operator nobody recognizes is set up without
    an error, and runs with the Dougherty operator. *)
Lemma unrecognized_fp_operator_is_accepted :
  ~ unrecognized_fp_operator_raises
  /\ exists self,
       VlasovMaxwell.__init__ (tracing false false)
         (example_cfg "leapfrog" "no-such-operator") = Ok self
       /\ Collisions.fp (VlasovPoissonFokkerPlanck.fp (VlasovMaxwell.vpfp self))
          = Dougherty.__init__ (example_cfg "leapfrog" "no-such-operator").
Proof.
  split.
  - intros Hclaim.
    destruct (Hclaim unit (tracing false false)
                (example_cfg "leapfrog" "no-such-operator")) as [e He].
    + unfold recognized_fp_operator. simpl. intros [H|H]; discriminate.
    + discriminate.
  - eexists. split; reflexivity.
Qed.

(** C7, amended: an unrecognized velocity-advection method raises
    [NotImplementedError] in [get_edfdv], and so in the construction of the
    step object; a species profile with an unrecognized basis makes
    [_initialize_total_distribution_] raise; a density section without
    species makes it raise [ValueError].  The collision operator is not
    looked up: the Dougherty operator is constructed for every configured
    name. *)
Theorem configuration_errors_raise_at_setup :
  (forall (D : Type) (P : pushers D) (cfg : config),
      ~ known_edfdv (terms_edfdv cfg) ->
      TimeIntegrator.get_edfdv P cfg
      = Raise (NotImplementedError (terms_edfdv cfg +:+ " has not been implemented"))
      /\ exists msg, VlasovMaxwell.__init__ P cfg = Raise (NotImplementedError msg))
  /\ (forall (L : libs) (cfg : helpers_cfg) (grid : helpers_grid),
         Exists bad_species (density cfg) ->
         exists e, vfp1d._initialize_total_distribution_ L cfg grid = Raise e)
  /\ (forall (L : libs) (cfg : helpers_cfg) (grid : helpers_grid),
         Forall (fun item => ~ is_species item.1) (density cfg) ->
         vfp1d._initialize_total_distribution_ L cfg grid
         = Raise (ValueError "No species found! Check the config"))
  /\ (forall (exp : Q -> Q) (cfg : config),
         Collisions.__init_fp_operator__ cfg = Dougherty.__init__ cfg
         /\ Collisions.fp (Collisions.__init__ exp cfg) = Dougherty.__init__ cfg).
Proof.
  split; [|split; [|split]].
  - intros D P cfg Hk. split.
    + apply get_edfdv_unknown, Hk.
    + apply setup_unknown_edfdv, Hk.
  - intros L cfg grid Hbad.
    unfold vfp1d._initialize_total_distribution_.
    destruct (species_loop_bad L cfg grid _ Hbad
                (jnp.Arr1 (replicate (hgrid_nx grid) 0),
                 jnp.Arr2 (replicate (hgrid_nx grid) (replicate (hgrid_nv grid) 0)),
                 false)) as [e He].
    rewrite He. simpl. eauto.
  - intros L cfg grid Hnone.
    unfold vfp1d._initialize_total_distribution_.
    rewrite species_loop_none by exact Hnone. reflexivity.
  - intros exp cfg. split; reflexivity.
Qed.

Lemma configuration_errors_raise_at_setup_witness :
  (exists msg,
      VlasovMaxwell.__init__ (tracing false false)
        {| grid_x := []; grid_x_a := []; grid_v := []; grid_dx := 1; grid_dv := 1;
           grid_dt := 1; grid_beta := 1; grid_nx := 0; grid_nv := 0;
           nuee := jnp.Scalar 0; solver_fp_operator := "dougherty";
           terms_edfdv := "upwind"; terms_time := "leapfrog";
           terms_fokker_planck_is_on := false; terms_krook_is_on := false |}
      = Raise (NotImplementedError msg))
  /\ (exists e,
         vfp1d._initialize_total_distribution_ example_libs
           (example_helpers_cfg (LogLambdaNum 7)
              [("quasineutrality", example_species "uniform" "uniform");
               ("species-background", example_species "uniform" "gaussian")])
           example_grid = Raise e)
  /\ vfp1d._initialize_total_distribution_ example_libs
       (example_helpers_cfg (LogLambdaNum 7)
          [("quasineutrality", example_species "uniform" "uniform")])
       example_grid
     = Raise (ValueError "No species found! Check the config").
Proof.
  destruct configuration_errors_raise_at_setup as (H1 & H2 & H3 & _).
  split; [|split].
  - refine (proj2 (H1 unit (tracing false false) _ _)).
    unfold known_edfdv. simpl. intros [H|H]; discriminate.
  - apply H2. simpl. apply Exists_cons_tl, Exists_cons_hd.
    split; [reflexivity|]. right. unfold known_basis. simpl.
    intros [H|[H|H]]; discriminate.
  - apply H3. simpl. repeat constructor. unfold is_species. simpl. discriminate.
Defined.

(** ** Krook relaxation *)

Lemma krook_f_mx exp cfg :
  Krook.f_mx (Krook.__init__ exp cfg)
  = Some (jnp.Arr2 [map (fun a => a / maxwellian_norm exp cfg)
                        (maxwellian_raw exp cfg)]).
Proof.
  transitivity
    (jnp.Arr2 <$> jnp.matop Qdiv [maxwellian_raw exp cfg]
                    (column [maxwellian_norm exp cfg])); [reflexivity|].
  rewrite matop_column_r by reflexivity. reflexivity.
Qed.

Lemma krook_call_rows exp cfg nus rows dt :
  length nus = length rows ->
  Forall (fun r => length r = length (grid_v cfg)) rows ->
  Krook.__call__ exp (Krook.__init__ exp cfg) (Some (jnp.Arr1 nus))
    (jnp.Arr2 rows) dt
  = Some (jnp.Arr2 (zip_with (krook_row exp cfg dt) rows nus)).
Proof.
  intros Hlen Hrows. unfold Krook.__call__. rewrite krook_f_mx.
  simpl. fold (column nus).
  fold (column (map (jnp.trapz_row (grid_dv cfg)) rows)).
  rewrite !column_map.
  rewrite matop_column_r by (rewrite !length_map; congruence).
  rewrite matop_column_row. simpl.
  rewrite matop_column_r by (rewrite !length_map; congruence).
  simpl. rewrite matop_same.
  - simpl. do 2 f_equal. clear Hrows. revert nus Hlen.
    induction rows as [|r rows IH]; intros [|nu nus] Hlen; try discriminate;
      [reflexivity|].
    simpl. f_equal. apply IH. simpl in Hlen. congruence.
  - revert nus Hlen.
    induction Hrows as [|r rows Hr _ IH]; intros [|nu nus] Hlen;
      try discriminate; simpl; constructor.
    + rewrite !length_map. unfold maxwellian_raw.
      rewrite !length_map. exact Hr.
    + apply IH. simpl in Hlen. congruence.
Qed.

Section KrookDensity.
Variable exp : Q -> Q.
Hypothesis exp_pos : forall x, 0 < exp x.
Variable cfg : config.

Lemma maxwellian_raw_pos : Forall (fun a => 0 < a) (maxwellian_raw exp cfg).
Proof.
  unfold maxwellian_raw. apply Forall_forall. intros a Ha.
  apply list_elem_of_fmap in Ha. destruct Ha as (x & -> & _). apply exp_pos.
Qed.

(** When the normalisation of the target vanishes, so does every
    trapezoidal moment on the grid: the step is zero or the grid has fewer
    than two points. *)
Lemma maxwellian_norm_zero r :
  length r = length (grid_v cfg) ->
  maxwellian_norm exp cfg == 0 ->
  jnp.trapz_row (grid_dv cfg) r == 0.
Proof.
  intros Hr Hz. unfold maxwellian_norm in Hz.
  destruct (le_lt_dec 2 (length (grid_v cfg))) as [Hlen | Hlen].
  - rewrite trapz_row_dx in Hz. rewrite trapz_row_dx.
    assert (Hpos : 0 < jnp.trapz_row 1 (maxwellian_raw exp cfg)).
    { apply trapz_row_pos; [apply maxwellian_raw_pos|].
      unfold maxwellian_raw. rewrite !length_map. exact Hlen. }
    apply Qmult_integral in Hz. destruct Hz as [Hz | Hz].
    + rewrite Hz. ring.
    + rewrite Hz in Hpos. discriminate.
  - rewrite trapz_row_short by lia. reflexivity.
Qed.

Lemma krook_row_density dt r nu :
  length r = length (grid_v cfg) ->
  jnp.trapz_row (grid_dv cfg) (krook_row exp cfg dt r nu)
  == jnp.trapz_row (grid_dv cfg) r.
Proof.
  intros Hr. unfold krook_row.
  rewrite trapz_row_plus
    by (rewrite !length_map; unfold maxwellian_raw; rewrite !length_map;
        exact Hr).
  rewrite !trapz_row_scale_r, trapz_row_scale_l, trapz_row_div.
  fold (maxwellian_norm exp cfg).
  destruct (Qeq_dec (maxwellian_norm exp cfg) 0) as [Hz | Hnz].
  - rewrite (maxwellian_norm_zero r Hr Hz). ring.
  - field. exact Hnz.
Qed.

(** The target of the relaxation is unit-normalised on a grid of at least
    two points with a nonzero step. *)
Lemma maxwellian_unit_normalised :
  ~ grid_dv cfg == 0 ->
  (2 <= length (grid_v cfg))%nat ->
  jnp.trapz_row (grid_dv cfg)
    (map (fun a => a / maxwellian_norm exp cfg) (maxwellian_raw exp cfg)) == 1.
Proof.
  intros Hdv Hlen. rewrite trapz_row_div. fold (maxwellian_norm exp cfg).
  assert (Hnz : ~ maxwellian_norm exp cfg == 0).
  { unfold maxwellian_norm. rewrite trapz_row_dx. intros Hz.
    apply Qmult_integral in Hz. destruct Hz as [Hz | Hz]; [tauto|].
    assert (Hpos : 0 < jnp.trapz_row 1 (maxwellian_raw exp cfg)).
    { apply trapz_row_pos; [apply maxwellian_raw_pos|].
      unfold maxwellian_raw. rewrite !length_map. exact Hlen. }
    rewrite Hz in Hpos. discriminate. }
  field. exact Hnz.
Qed.

(** C6: on arrays of matching shapes (one rate per spatial cell, rows on the
    velocity grid) and a grid with a nonzero velocity step, the Krook step
    returns, and the trapezoidal zeroth moment of every row of the result
    equals that of the corresponding row of [f], for every rate profile and
    every [dt]; the target [f_mx] has unit trapezoidal integral when the grid
    has at least two points.  (With a zero step the source divides by zero
    when it normalises [f_mx].) *)
Theorem krook_conserves_density (nus : list Q) (rows : list (list Q)) (dt : Q) :
  ~ grid_dv cfg == 0 ->
  length nus = length rows ->
  Forall (fun r => length r = length (grid_v cfg)) rows ->
  let self := Krook.__init__ exp cfg in
  (exists out n_out n_in,
      Krook.__call__ exp self (Some (jnp.Arr1 nus)) (jnp.Arr2 rows) dt
      = Some (jnp.Arr2 out)
      /\ Krook.vx_moment self (Some (jnp.Arr2 out)) = Some (jnp.Arr1 n_out)
      /\ Krook.vx_moment self (Some (jnp.Arr2 rows)) = Some (jnp.Arr1 n_in)
      /\ Forall2 Qeq n_out n_in)
  /\ ((2 <= length (grid_v cfg))%nat ->
      exists f_mx n_mx,
        Krook.f_mx self = Some (jnp.Arr2 [f_mx])
        /\ Krook.vx_moment self (Krook.f_mx self) = Some (jnp.Arr1 [n_mx])
        /\ n_mx == 1).
Proof.
  intros Hdv Hlen Hrows self. split.
  - eexists _, _, _. split; [apply krook_call_rows; assumption|].
    split; [reflexivity|]. split; [reflexivity|].
    simpl. revert nus Hlen.
    induction Hrows as [|r rows Hr _ IH]; intros [|nu nus] Hlen;
      try discriminate; simpl; constructor.
    + apply krook_row_density, Hr.
    + apply IH. simpl in Hlen. congruence.
  - intros Hnv. unfold self. rewrite krook_f_mx.
    eexists _, _. split; [reflexivity|]. split; [reflexivity|].
    apply maxwellian_unit_normalised; assumption.
Qed.
End KrookDensity.

(** ** The Dougherty operator *)

Lemma dougherty_vbar_rows cfg rows :
  Forall (fun r => length r = length (grid_v cfg)) rows ->
  Dougherty.vbar (Dougherty.__init__ cfg) (Some (jnp.Arr2 rows))
  = Some (jnp.Arr1 (map (cell_vbar (grid_dv cfg) (grid_v cfg)) rows)).
Proof.
  intros Hrows. unfold Dougherty.vbar, Dougherty.vx_moment. simpl.
  rewrite matop_row_r by exact Hrows. simpl.
  rewrite map_map. reflexivity.
Qed.

Lemma dougherty_v0t_sq_rows cfg rows :
  Forall (fun r => length r = length (grid_v cfg)) rows ->
  Dougherty.v0t_sq (Dougherty.__init__ cfg) (Some (jnp.Arr2 rows))
  = Some (jnp.Arr1 (map (cell_v0t_sq (grid_dv cfg) (grid_v cfg)) rows)).
Proof.
  intros Hrows. unfold Dougherty.v0t_sq.
  rewrite dougherty_vbar_rows by exact Hrows.
  unfold Dougherty.vx_moment. simpl.
  fold (column (map (cell_vbar (grid_dv cfg) (grid_v cfg)) rows)).
  rewrite matop_row_column. simpl.
  rewrite matop_same.
  - simpl. do 2 f_equal.
    rewrite !map_map, zip_with_fmap_r, zip_with_diag, map_map.
    reflexivity.
  - rewrite !map_map. apply Forall2_fmap_r, Forall_Forall2_diag.
    eapply Forall_impl; [exact Hrows|]. intros r Hr. simpl.
    rewrite !length_map. exact Hr.
Qed.

(** The off-diagonal expression of [__call__]:
    [nu * dt * (-v0t_sq[:, None] / dv**2 op (w[None, :] - vbar[:, None]) / 2 / dv)]
    with [op] the sum for [a] and the difference for [c]. *)
Lemma dougherty_offdiag (op : Q -> Q -> Q) q dt dv w vbars v0ts :
  length vbars = length v0ts ->
  jnp.lift2 Qmult (Some (jnp.Scalar q) * jnp.lit dt)%np
    (jnp.lift2 op
       (- jnp.col (Some (jnp.Arr1 v0ts)) / jnp.sq (jnp.lit dv))%np
       ((jnp.row (Some (jnp.Arr1 w)) - jnp.col (Some (jnp.Arr1 vbars)))
        / jnp.lit 2 / jnp.lit dv)%np)
  = Some (jnp.Arr2
            (zip_with
               (fun v0t vbar =>
                  map (fun x => q * dt * op (- v0t / dv ^ 2) ((x - vbar) / 2 / dv)) w)
               v0ts vbars)).
Proof.
  intros Hlen. simpl. fold (column vbars). fold (column v0ts).
  rewrite matop_row_column. simpl.
  rewrite !column_map.
  rewrite matop_column_l by (rewrite !length_map; congruence).
  simpl. do 2 f_equal.
  rewrite !map_map, zip_with_fmap_l, zip_with_fmap_r.
  clear Hlen. revert vbars.
  induction v0ts as [|v0t v0ts IH]; intros [|vbar vbars]; simpl;
    try reflexivity.
  rewrite IH, !map_map. reflexivity.
Qed.

(** The diagonal expression
    [1.0 + nu * dt * ones * (2.0 * v0t_sq[:, None] / dv**2)]. *)
Lemma dougherty_diag q dt dv nx nv v0ts :
  nx = length v0ts ->
  (jnp.lit 1
   + Some (jnp.Scalar q) * jnp.lit dt * jnp.ones nx nv
     * (jnp.lit 2 * jnp.col (Some (jnp.Arr1 v0ts)) / jnp.sq (jnp.lit dv)))%np
  = Some (jnp.Arr2 (map (fun v0t => cell_b q dt dv nv v0t) v0ts)).
Proof.
  intros ->. simpl. fold (column v0ts). rewrite !column_map.
  rewrite matop_column_r by (rewrite !length_map, length_replicate; reflexivity).
  simpl. do 2 f_equal. unfold cell_b.
  induction v0ts as [|v0t v0ts IH]; simpl; [reflexivity|].
  rewrite IH, !map_map. reflexivity.
Qed.

Lemma dougherty_call_rows cfg rows q dt :
  well_shaped cfg rows ->
  let dv := grid_dv cfg in
  let v := grid_v cfg in
  Dougherty.__call__ (Dougherty.__init__ cfg) (Some (jnp.Scalar q))
    (jnp.Arr2 rows) dt
  = Some
      (jnp.Arr2 (map (fun r => cell_a q dt dv v (cell_vbar dv v r)
                                 (cell_v0t_sq dv v r)) rows),
       jnp.Arr2 (map (fun r => cell_b q dt dv (grid_nv cfg)
                                 (cell_v0t_sq dv v r)) rows),
       jnp.Arr2 (map (fun r => cell_c q dt dv v (cell_vbar dv v r)
                                 (cell_v0t_sq dv v r)) rows)).
Proof.
  intros (Hnx & Hnv & Hrows) dv v. unfold Dougherty.__call__.
  rewrite dougherty_v0t_sq_rows, dougherty_vbar_rows by exact Hrows.
  fold dv. fold v.
  unfold Dougherty.__init__, Dougherty.v, Dougherty.dv, Dougherty.ones.
  fold dv. fold v.
  change (Some (jnp.Scalar q) * jnp.lit dt
          * (- jnp.col (Some (jnp.Arr1 (map (cell_v0t_sq dv v) rows)))
               / jnp.sq (jnp.lit dv)
             + (jnp.row (jnp.roll (Some (jnp.Arr1 v)) 1)
                - jnp.col (Some (jnp.Arr1 (map (cell_vbar dv v) rows))))
               / jnp.lit 2 / jnp.lit dv))%np
    with (jnp.lift2 Qmult (Some (jnp.Scalar q) * jnp.lit dt)%np
            (jnp.lift2 Qplus
               (- jnp.col (Some (jnp.Arr1 (map (cell_v0t_sq dv v) rows)))
                  / jnp.sq (jnp.lit dv))%np
               ((jnp.row (Some (jnp.Arr1 (jnp.roll_list 1 v)))
                 - jnp.col (Some (jnp.Arr1 (map (cell_vbar dv v) rows))))
                / jnp.lit 2 / jnp.lit dv)%np)).
  change (Some (jnp.Scalar q) * jnp.lit dt
          * (- jnp.col (Some (jnp.Arr1 (map (cell_v0t_sq dv v) rows)))
               / jnp.sq (jnp.lit dv)
             - (jnp.row (jnp.roll (Some (jnp.Arr1 v)) (-1))
                - jnp.col (Some (jnp.Arr1 (map (cell_vbar dv v) rows))))
               / jnp.lit 2 / jnp.lit dv))%np
    with (jnp.lift2 Qmult (Some (jnp.Scalar q) * jnp.lit dt)%np
            (jnp.lift2 Qminus
               (- jnp.col (Some (jnp.Arr1 (map (cell_v0t_sq dv v) rows)))
                  / jnp.sq (jnp.lit dv))%np
               ((jnp.row (Some (jnp.Arr1 (jnp.roll_list (-1) v)))
                 - jnp.col (Some (jnp.Arr1 (map (cell_vbar dv v) rows))))
                / jnp.lit 2 / jnp.lit dv)%np)).
  rewrite !dougherty_offdiag by (rewrite !length_map; reflexivity).
  rewrite dougherty_diag by (rewrite length_map; exact Hnx).
  simpl. rewrite !zip_with_fmap_l, !zip_with_fmap_r, !zip_with_diag, !map_map.
  reflexivity.
Qed.

(** ** The Thomas algorithm solves the system *)

Lemma length_forward cp dp rows :
  length (TridiagonalSolver.forward cp dp rows) = length rows.
Proof.
  revert cp dp. induction rows as [|[[[a b] c] d] rows IH]; intros cp dp;
    [reflexivity|].
  simpl. rewrite IH. reflexivity.
Qed.

Lemma length_backsubstitution primes :
  length (TridiagonalSolver.backsubstitution primes) = length primes.
Proof.
  unfold TridiagonalSolver.backsubstitution.
  induction primes as [|p primes IH]; [reflexivity|].
  simpl. rewrite IH. reflexivity.
Qed.

Lemma length_thomas rows : length (TridiagonalSolver.thomas rows) = length rows.
Proof.
  unfold TridiagonalSolver.thomas.
  rewrite length_backsubstitution, length_forward. reflexivity.
Qed.

Lemma thomas_residual rows : forall cp dp x_prev,
  pivots_nonzero cp rows = true ->
  x_prev == dp - cp * hd 0 (TridiagonalSolver.backsubstitution
                              (TridiagonalSolver.forward cp dp rows)) ->
  Forall2 Qeq
    (tridiagonal_lhs x_prev rows
       (TridiagonalSolver.backsubstitution (TridiagonalSolver.forward cp dp rows)))
    (map snd rows).
Proof.
  induction rows as [|[[[a b] c] d] rows IH]; intros cp dp x_prev Hpiv Hprev;
    [constructor|].
  simpl in Hpiv. apply andb_prop in Hpiv. destruct Hpiv as [Hden Hpiv].
  apply negb_true_iff, Qeq_bool_neq in Hden.
  simpl in *.
  set (den := b - a * cp) in *.
  set (xs := foldr (fun p xs => p.2 - p.1 * hd 0 xs :: xs) []
               (TridiagonalSolver.forward (c / den) ((d - a * dp) / den) rows))
    in *.
  constructor.
  - rewrite Hprev. unfold den in *. field. exact Hden.
  - apply IH; [exact Hpiv | reflexivity].
Qed.

(** The solver's answer satisfies every equation of the system. *)
Lemma thomas_solves rows :
  pivots_nonzero 0 rows = true ->
  Forall2 Qeq (tridiagonal_lhs 0 rows (TridiagonalSolver.thomas rows))
    (map snd rows).
Proof.
  intros Hpiv. unfold TridiagonalSolver.thomas.
  apply thomas_residual; [exact Hpiv | ring].
Qed.

(** ** Column sums of a tridiagonal system *)

Section ColumnSums.
Variables (fa fc : Q -> Q) (fb : Q).
Hypothesis column_sum : forall w, fa w + fb + fc w == 1.

Lemma diagonal_from_column_sum w : fb == 1 - fa w - fc w.
Proof. rewrite <- (column_sum w). ring. Qed.

Lemma shifted_eqns_sum v_end vs : forall v_prev x_prev xs r,
  vs <> [] -> length xs = length vs -> length r = length vs ->
  jnp.sum_row (tridiagonal_lhs x_prev (shifted_eqns fa fc fb v_prev vs v_end r) xs)
  == fa v_prev * x_prev + jnp.sum_row xs
     - fc (hd 0 vs) * hd 0 xs - fa (List.last vs 0) * List.last xs 0.
Proof.
  induction vs as [|v vs IH]; intros v_prev x_prev xs r Hne Hxs Hr;
    [congruence|].
  destruct xs as [|x xs]; [discriminate|].
  destruct r as [|d r]; [discriminate|].
  destruct vs as [|v' vs].
  - destruct xs; [|discriminate]. destruct r; [|discriminate].
    unfold shifted_eqns. simpl.
    rewrite (diagonal_from_column_sum v). ring.
  - destruct xs as [|x' xs]; [discriminate|].
    specialize (IH v x (x' :: xs) r ltac:(discriminate)
                  ltac:(simpl in *; congruence) ltac:(simpl in *; congruence)).
    unfold shifted_eqns in *.
    change (removelast (v :: v' :: vs)) with (v :: removelast (v' :: vs)).
    change (List.last (v :: v' :: vs) 0) with (List.last (v' :: vs) 0).
    change (List.last (x :: x' :: xs) 0) with (List.last (x' :: xs) 0).
    change (tl (v :: v' :: vs) ++ [v_end]) with (v' :: (tl (v' :: vs) ++ [v_end])).
    cbn [length replicate map zip zip_with tridiagonal_lhs jnp.sum_row foldr hd]
      in IH |- *.
    fold (jnp.sum_row xs) in IH |- *.
    rewrite IH. cbn [hd].
    rewrite (diagonal_from_column_sum v). ring.
Qed.
End ColumnSums.

(** ** One Dougherty step, cell by cell *)

Lemma length_cell_a q dt dv v vbar v0t : length (cell_a q dt dv v vbar v0t) = length v.
Proof. unfold cell_a. rewrite length_map. apply length_roll_list. Qed.

Lemma length_cell_b q dt dv nv v0t : length (cell_b q dt dv nv v0t) = nv.
Proof. unfold cell_b. rewrite length_map. apply length_replicate. Qed.

Lemma length_cell_c q dt dv v vbar v0t : length (cell_c q dt dv v vbar v0t) = length v.
Proof. unfold cell_c. rewrite length_map. apply length_roll_list. Qed.

Lemma zip4_same_length {A} (a b c d : list A) :
  length a = length d -> length b = length d -> length c = length d ->
  TridiagonalSolver.zip4 a b c d = Some (zip (zip (zip a b) c) d).
Proof.
  intros Ha Hb Hc. unfold TridiagonalSolver.zip4.
  rewrite decide_True by auto. reflexivity.
Qed.

(** With a scalar rate and a collision frequency that is positive somewhere,
    the collision step solves the system [cell_eqns] of every cell. *)
Lemma collisions_call_rows exp cfg rows q dt nu_K :
  well_shaped cfg rows ->
  jnp.any_pos (nuee cfg) = true ->
  Collisions.__call__ (Collisions.__init__ exp cfg) (Some (jnp.Scalar q)) nu_K
    (jnp.Arr2 rows) dt
  = Some (jnp.Arr2 (map (fun r => TridiagonalSolver.thomas (cell_eqns cfg q dt r))
                        rows)).
Proof.
  intros Hshape Hpos. unfold Collisions.__call__.
  cbn [Collisions.cfg Collisions.__init__ Collisions.fp Collisions.td_solver].
  rewrite Hpos. unfold Collisions.__init_fp_operator__.
  rewrite (dougherty_call_rows cfg rows q dt Hshape).
  destruct Hshape as (Hnx & Hnv & Hrows).
  cbn [mbind option_bind fst snd TridiagonalSolver.__call__].
  rewrite zip4_same_length by (rewrite !length_map; reflexivity).
  cbn [mbind option_bind].
  repeat (rewrite ?zip_with_fmap_l, ?zip_with_fmap_r, ?zip_with_diag).
  rewrite (mapM_ext_Some _ (fun r4 => TridiagonalSolver.thomas
                                  (zip (zip (zip r4.1.1.1 r4.1.1.2) r4.1.2) r4.2))).
  - cbn [fmap option_fmap option_map]. rewrite map_map. reflexivity.
  - intros r4 Hr4. apply list_elem_of_fmap in Hr4. destruct Hr4 as (r & -> & Hr).
    rewrite Forall_forall in Hrows. specialize (Hrows r Hr).
    cbn [fst snd]. rewrite zip4_same_length; [reflexivity|..].
    + rewrite length_cell_a. congruence.
    + rewrite length_cell_b. congruence.
    + rewrite length_cell_c. congruence.
Qed.

Lemma dougherty_column_sum q dt dv vbar v0t w :
  sub_diagonal q dt dv vbar v0t w + diagonal q dt dv v0t
  + super_diagonal q dt dv vbar v0t w == 1.
Proof. unfold sub_diagonal, diagonal, super_diagonal, Qdiv. ring. Qed.

Lemma cell_eqns_shifted cfg q dt r :
  grid_v cfg <> [] ->
  grid_nv cfg = length (grid_v cfg) ->
  let dv := grid_dv cfg in
  let v := grid_v cfg in
  let vbar := cell_vbar dv v r in
  let v0t := cell_v0t_sq dv v r in
  cell_eqns cfg q dt r
  = shifted_eqns (sub_diagonal q dt dv vbar v0t) (super_diagonal q dt dv vbar v0t)
      (diagonal q dt dv v0t) (List.last v 0) v (hd 0 v) r.
Proof.
  intros Hne Hnv. cbv zeta.
  unfold cell_eqns, shifted_eqns, cell_a, cell_b, cell_c.
  rewrite Hnv.
  destruct (grid_v cfg) as [|v0 vt]; [congruence|].
  rewrite roll_list_forward, roll_list_backward, fmap_replicate.
  reflexivity.
Qed.

(** In one cell, the sum of the old distribution is the sum of the new one
    plus the flux through the two ends of the velocity grid. *)
Lemma cell_number_balance cfg q dt r :
  grid_v cfg <> [] ->
  grid_nv cfg = length (grid_v cfg) ->
  length r = length (grid_v cfg) ->
  pivots_nonzero 0 (cell_eqns cfg q dt r) = true ->
  let out := TridiagonalSolver.thomas (cell_eqns cfg q dt r) in
  jnp.sum_row r == jnp.sum_row out + edge_flux cfg q dt r out.
Proof.
  intros Hne Hnv Hr Hpiv out.
  pose proof (thomas_solves _ Hpiv) as Hsol. fold out in Hsol.
  apply sum_row_proper in Hsol.
  assert (Hlen : length (cell_eqns cfg q dt r) = length r).
  { unfold cell_eqns. rewrite !length_zip_with, length_cell_a, length_cell_b,
      length_cell_c. lia. }
  assert (Hsnd : map snd (cell_eqns cfg q dt r) = r).
  { unfold cell_eqns. apply snd_zip.
    rewrite !length_zip_with, length_cell_a, length_cell_b, length_cell_c. lia. }
  rewrite Hsnd in Hsol. rewrite <- Hsol.
  rewrite (cell_eqns_shifted cfg q dt r Hne Hnv).
  rewrite shifted_eqns_sum.
  - unfold edge_flux, sub_diagonal, super_diagonal, Qdiv. ring.
  - apply dougherty_column_sum.
  - exact Hne.
  - unfold out. rewrite length_thomas, Hlen. exact Hr.
  - exact Hr.
Qed.

(** ** Krook: witness *)

Lemma rational_exp_pos x : 0 < rational_exp x.
Proof.
  unfold rational_exp. destruct (Qle_bool x 0) eqn:E.
  - apply Qle_bool_iff in E. unfold Qdiv. rewrite Qmult_1_l.
    apply Qinv_lt_0_compat. lra.
  - assert (~ x <= 0) as H by (rewrite <- Qle_bool_iff; congruence).
    apply Qnot_le_lt in H. lra.
Qed.

Lemma krook_conserves_density_witness :
  exists out n_out n_in,
    Krook.__call__ rational_exp
      (Krook.__init__ rational_exp (collision_cfg [-1; 0; 1]))
      (Some (jnp.Arr1 [1; 2])) (jnp.Arr2 [[1; 2; 1]; [0; 3; 0]]) (1 / 2)
    = Some (jnp.Arr2 out)
    /\ Krook.vx_moment (Krook.__init__ rational_exp (collision_cfg [-1; 0; 1]))
         (Some (jnp.Arr2 out)) = Some (jnp.Arr1 n_out)
    /\ Krook.vx_moment (Krook.__init__ rational_exp (collision_cfg [-1; 0; 1]))
         (Some (jnp.Arr2 [[1; 2; 1]; [0; 3; 0]])) = Some (jnp.Arr1 n_in)
    /\ Forall2 Qeq n_out n_in.
Proof.
  apply (krook_conserves_density rational_exp rational_exp_pos
           (collision_cfg [-1; 0; 1]) [1; 2] [[1; 2; 1]; [0; 3; 0]] (1 / 2)).
  - discriminate.
  - reflexivity.
  - repeat constructor.
Defined.

(** ** Dougherty step: particle number *)

(** C2, as the specification states it, fails.  On the velocity grid
    [-1, 0, 1] with [dv = 1], the non-negative distribution [1, 2, 1], rate 1
    (as a scalar or as an array with one entry for the one cell) and
    [dt = 1/2], the step returns a distribution whose particle number
    differs from the input's by more than one percent, with either
    quadrature, and the flux through the edges of the grid is positive. *)
Lemma dougherty_step_loses_particles :
  exists out,
    Collisions.__call__
      (Collisions.__init__ rational_exp (collision_cfg [-1; 0; 1]))
      (Some (jnp.Scalar 1)) None (jnp.Arr2 [[1; 2; 1]]) (1 / 2)
    = Some (jnp.Arr2 [out])
    /\ Collisions.__call__
         (Collisions.__init__ rational_exp (collision_cfg [-1; 0; 1]))
         (Some (jnp.Arr1 [1])) None (jnp.Arr2 [[1; 2; 1]]) (1 / 2)
       = Some (jnp.Arr2 [out])
    /\ Forall2 Qeq out [12 # 13; 22 # 13; 12 # 13]
    /\ Forall (Forall (fun a => 0 <= a)) [[1; 2; 1]]
    /\ ~ conserved_within (1 / 100) (particle_number 1 [[1; 2; 1]])
           (particle_number 1 [out])
    /\ ~ conserved_within (1 / 100) (particle_number_sum 1 [[1; 2; 1]])
           (particle_number_sum 1 [out])
    /\ 0 < edge_flux (collision_cfg [-1; 0; 1]) 1 (1 / 2) [1; 2; 1] out.
Proof.
  eexists. split; [vm_compute; reflexivity|].
  split; [vm_compute; reflexivity|].
  split; [repeat constructor|].
  split; [repeat constructor; discriminate|].
  split; [|split].
  - intros H. vm_compute in H. apply H. reflexivity.
  - intros H. vm_compute in H. apply H. reflexivity.
  - vm_compute. reflexivity.
Qed.

(** C2, amended: with a scalar rate, well-shaped arrays, a nonzero velocity
    step and nonzero pivots, the collision step returns, and in every spatial cell the sum of the old
    distribution over the velocity grid equals the sum of the new one plus
    the flux through the two edge cells of the grid; the sum is unchanged
    when the new distribution vanishes at both edge cells. *)
Theorem dougherty_step_number_balance
    (exp : Q -> Q) (cfg : config) (rows : list (list Q)) (q dt : Q)
    (nu_K : option jnp.ndarray) :
  well_shaped cfg rows ->
  grid_v cfg <> [] ->
  ~ grid_dv cfg == 0 ->
  jnp.any_pos (nuee cfg) = true ->
  forallb (fun r => pivots_nonzero 0 (cell_eqns cfg q dt r)) rows = true ->
  exists out,
    Collisions.__call__ (Collisions.__init__ exp cfg) (Some (jnp.Scalar q)) nu_K
      (jnp.Arr2 rows) dt = Some (jnp.Arr2 out)
    /\ Forall2 (fun r o => jnp.sum_row r == jnp.sum_row o + edge_flux cfg q dt r o)
         rows out
    /\ Forall2 (fun r o => hd 0 o == 0 -> List.last o 0 == 0 ->
                           jnp.sum_row r == jnp.sum_row o)
         rows out.
Proof.
  intros Hshape Hne _ Hpos Hpiv.
  eexists. split; [apply collisions_call_rows; assumption|].
  destruct Hshape as (_ & Hnv & Hrows).
  rewrite forallb_forall in Hpiv. rewrite Forall_forall in Hrows.
  assert (Hbal : Forall2
            (fun r o => jnp.sum_row r == jnp.sum_row o + edge_flux cfg q dt r o)
            rows
            (map (fun r => TridiagonalSolver.thomas (cell_eqns cfg q dt r)) rows)).
  { apply Forall2_fmap_r, Forall_Forall2_diag, Forall_forall. intros r Hr.
    apply cell_number_balance; auto.
    apply Hpiv, list_elem_of_In, Hr. }
  split; [exact Hbal|].
  eapply Forall2_impl; [exact Hbal|].
  intros r o Hro Hhd Hlast. rewrite Hro. unfold edge_flux.
  rewrite Hhd, Hlast. ring.
Qed.

Lemma dougherty_step_number_balance_witness :
  exists out,
    Collisions.__call__
      (Collisions.__init__ rational_exp (collision_cfg [-1; 0; 1]))
      (Some (jnp.Scalar 1)) None (jnp.Arr2 [[1; 2; 1]]) (1 / 2)
    = Some (jnp.Arr2 out)
    /\ Forall2
         (fun r o => jnp.sum_row r
                     == jnp.sum_row o
                        + edge_flux (collision_cfg [-1; 0; 1]) 1 (1 / 2) r o)
         [[1; 2; 1]] out
    /\ Forall2 (fun r o => hd 0 o == 0 -> List.last o 0 == 0 ->
                           jnp.sum_row r == jnp.sum_row o)
         [[1; 2; 1]] out.
Proof.
  apply (dougherty_step_number_balance rational_exp (collision_cfg [-1; 0; 1])
           [[1; 2; 1]] 1 (1 / 2) None).
  - repeat split. repeat constructor.
  - discriminate.
  - discriminate.
  - reflexivity.
  - vm_compute. reflexivity.
Defined.

(** ** Dougherty operator: moments and diagonals *)

Lemma centred_moment_proper dx (v r : list Q) (c c' : Q) :
  c == c' ->
  jnp.trapz_row dx
    (zip_with Qmult r (map (fun a => a ^ 2) (map (fun a => a - c) v)))
  == jnp.trapz_row dx
       (zip_with Qmult r (map (fun a => a ^ 2) (map (fun a => a - c') v))).
Proof.
  intros Hc. apply trapz_row_proper.
  revert r. induction v as [|w v IH]; intros [|x r]; simpl; constructor.
  - rewrite Hc. reflexivity.
  - apply IH.
Qed.

(** C3, as the specification states it, fails: [vbar] is not the mean
    velocity of a cell whose density is not one.  On the grid [0, 1, 2] the
    distribution [0, 2, 0] sits at velocity 1 with density 2; its mean
    velocity is 1 and its variance 0, the operator computes [vbar = 2] and
    [v0t_sq = 2]. *)
Lemma dougherty_vbar_is_not_the_mean_velocity :
  exists vbar v0t_sq,
    Dougherty.vbar (Dougherty.__init__ (collision_cfg [0; 1; 2]))
      (Some (jnp.Arr2 [[0; 2; 0]])) = Some (jnp.Arr1 [vbar])
    /\ Dougherty.v0t_sq (Dougherty.__init__ (collision_cfg [0; 1; 2]))
         (Some (jnp.Arr2 [[0; 2; 0]])) = Some (jnp.Arr1 [v0t_sq])
    /\ vbar == 2 /\ v0t_sq == 2
    /\ mean_velocity 1 [0; 1; 2] [0; 2; 0] == 1
    /\ variance 1 [0; 1; 2] [0; 2; 0] == 0
    /\ ~ vbar == mean_velocity 1 [0; 1; 2] [0; 2; 0]
    /\ ~ v0t_sq == variance 1 [0; 1; 2] [0; 2; 0].
Proof.
  eexists _, _. split; [vm_compute; reflexivity|].
  split; [vm_compute; reflexivity|].
  repeat split; vm_compute; congruence.
Qed.

(** C3, amended: on well-shaped arrays and a grid with a nonzero velocity
    step, with a scalar rate: per spatial cell, [vbar] is the trapezoidal first velocity
    moment of [f] (the density times the mean velocity, and the mean velocity
    itself in a cell of unit density) and [v0t_sq] the trapezoidal moment of
    [f * (v - vbar)**2] (the variance in a cell of unit density).  The
    diagonals are built around [vbar]: next to the velocity [w = v[j]], the
    entry [a[j+1]] is [nu dt (-v0t_sq / dv**2 + (w - vbar) / (2 dv))], the
    entry [c[j-1]] is [nu dt (-v0t_sq / dv**2 - (w - vbar) / (2 dv))] and
    [b[j]] is [1 + 2 nu dt v0t_sq / dv**2]; the three add up to one and the
    drag [a[j+1] - c[j-1]] is [nu dt (w - vbar) / dv]. *)
Theorem dougherty_moments_and_diagonals
    (cfg : config) (rows : list (list Q)) (q dt : Q) :
  well_shaped cfg rows ->
  ~ grid_dv cfg == 0 ->
  let self := Dougherty.__init__ cfg in
  let dv := grid_dv cfg in
  let v := grid_v cfg in
  Dougherty.vbar self (Some (jnp.Arr2 rows))
  = Some (jnp.Arr1 (map (cell_vbar dv v) rows))
  /\ Dougherty.v0t_sq self (Some (jnp.Arr2 rows))
     = Some (jnp.Arr1 (map (cell_v0t_sq dv v) rows))
  /\ Dougherty.__call__ self (Some (jnp.Scalar q)) (jnp.Arr2 rows) dt
     = Some
         (jnp.Arr2 (map (fun r => cell_a q dt dv v (cell_vbar dv v r)
                                    (cell_v0t_sq dv v r)) rows),
          jnp.Arr2 (map (fun r => cell_b q dt dv (grid_nv cfg)
                                    (cell_v0t_sq dv v r)) rows),
          jnp.Arr2 (map (fun r => cell_c q dt dv v (cell_vbar dv v r)
                                    (cell_v0t_sq dv v r)) rows))
  /\ forall r,
       let vbar := cell_vbar dv v r in
       let v0t := cell_v0t_sq dv v r in
       (~ jnp.trapz_row dv r == 0 ->
        vbar == jnp.trapz_row dv r * mean_velocity dv v r)
       /\ (jnp.trapz_row dv r == 1 ->
           vbar == mean_velocity dv v r /\ v0t == variance dv v r)
       /\ forall j w,
            v !! j = Some w ->
            ((S j < length v)%nat ->
             cell_a q dt dv v vbar v0t !! S j
             = Some (sub_diagonal q dt dv vbar v0t w))
            /\ cell_b q dt dv (grid_nv cfg) v0t !! j
               = Some (diagonal q dt dv v0t)
            /\ ((0 < j)%nat ->
                cell_c q dt dv v vbar v0t !! pred j
                = Some (super_diagonal q dt dv vbar v0t w))
            /\ sub_diagonal q dt dv vbar v0t w + diagonal q dt dv v0t
               + super_diagonal q dt dv vbar v0t w == 1
            /\ sub_diagonal q dt dv vbar v0t w - super_diagonal q dt dv vbar v0t w
               == q * dt * (w - vbar) / dv.
Proof.
  intros Hshape _ self dv v.
  pose proof Hshape as (Hnx & Hnv & Hrows).
  split; [apply dougherty_vbar_rows, Hrows|].
  split; [apply dougherty_v0t_sq_rows, Hrows|].
  split; [apply dougherty_call_rows, Hshape|].
  intros r vbar v0t. split; [|split].
  - intros Hn. unfold vbar, cell_vbar, mean_velocity. field. exact Hn.
  - intros Hn.
    assert (Hmean : vbar == mean_velocity dv v r).
    { unfold vbar, cell_vbar, mean_velocity. rewrite Hn. field. }
    split; [exact Hmean|].
    unfold v0t, cell_v0t_sq, variance. fold vbar.
    rewrite (centred_moment_proper dv v r _ _ Hmean), Hn. field.
  - intros j w Hw.
    assert (Hj : (j < length v)%nat) by (eapply lookup_lt_Some; exact Hw).
    split; [|split; [|split; [|split]]].
    + intros HSj. unfold cell_a.
      rewrite list_lookup_fmap, lookup_roll_forward by exact HSj.
      fold v in Hw. rewrite Hw. reflexivity.
    + unfold cell_b. rewrite list_lookup_fmap, lookup_replicate_2.
      * reflexivity.
      * rewrite Hnv. exact Hj.
    + intros Hpos. destruct j as [|j]; [lia|]. simpl. unfold cell_c.
      rewrite list_lookup_fmap, lookup_roll_backward by exact Hj.
      fold v in Hw. rewrite Hw. reflexivity.
    + apply dougherty_column_sum.
    + unfold sub_diagonal, super_diagonal, Qdiv.
      change (/ 2) with (1 # 2). ring.
Qed.

Lemma dougherty_moments_and_diagonals_witness :
  Dougherty.vbar (Dougherty.__init__ (collision_cfg [0; 1; 2]))
    (Some (jnp.Arr2 [[0; 2; 0]]))
  = Some (jnp.Arr1 (map (cell_vbar 1 [0; 1; 2]) [[0; 2; 0]]))
  /\ Dougherty.v0t_sq (Dougherty.__init__ (collision_cfg [0; 1; 2]))
       (Some (jnp.Arr2 [[0; 2; 0]]))
     = Some (jnp.Arr1 (map (cell_v0t_sq 1 [0; 1; 2]) [[0; 2; 0]]))
  /\ (jnp.trapz_row 1 [0; 1; 0] == 1 ->
      cell_vbar 1 [0; 1; 2] [0; 1; 0] == mean_velocity 1 [0; 1; 2] [0; 1; 0]
      /\ cell_v0t_sq 1 [0; 1; 2] [0; 1; 0] == variance 1 [0; 1; 2] [0; 1; 0]).
Proof.
  destruct (dougherty_moments_and_diagonals (collision_cfg [0; 1; 2])
              [[0; 2; 0]] 1 (1 / 2)) as (H1 & H2 & _ & H4).
  { repeat split. repeat constructor. }
  { discriminate. }
  split; [exact H1|]. split; [exact H2|].
  exact (proj1 (proj2 (H4 [0; 1; 0]))).
Defined.

(** * Further properties of the integrators *)

(** ** Coefficients and driver times *)

(** X1: The five space pushes of the sixth-order scheme cover exactly one step,
    and the six driver times of [dt_array] are the times at which the six
    field solves take place: they start at 0, advance by the space pushes
    a1, a2, a3, a2, a1, end at [dt], and are symmetric about the middle of
    the step. *)
Theorem sixth_order_driver_times
    {D : Type} (P : pushers D) (cfg : config) (self : SixthOrderHamIntegrator.t) :
  SixthOrderHamIntegrator.__init__ P cfg = Ok self ->
  let a1 := SixthOrderHamIntegrator.a1 self in
  let a2 := SixthOrderHamIntegrator.a2 self in
  let a3 := SixthOrderHamIntegrator.a3 self in
  let dt := SixthOrderHamIntegrator.dt self in
  dt = grid_dt cfg
  /\ a1 + a2 + a3 + a2 + a1 == 1
  /\ exists t0 t1 t2 t3 t4 t5,
       SixthOrderHamIntegrator.dt_array self = [t0; t1; t2; t3; t4; t5]
       /\ t0 == 0 /\ t5 == dt
       /\ t1 - t0 == a1 * dt /\ t2 - t1 == a2 * dt /\ t3 - t2 == a3 * dt
       /\ t4 - t3 == a2 * dt /\ t5 - t4 == a1 * dt
       /\ t0 + t5 == dt /\ t1 + t4 == dt /\ t2 + t3 == dt.
Proof.
  intros H. unfold SixthOrderHamIntegrator.__init__ in H.
  apply bind_result_Ok_inv in H. destruct H as (base & _ & H).
  inversion H; subst; clear H. cbn -[Qmult Qplus Qminus Qeq].
  split; [reflexivity|]. split; [reflexivity|].
  do 6 eexists. split; [reflexivity|].
  repeat (split; [ring|]). ring.
Qed.

Lemma sixth_order_driver_times_witness :
  exists self,
    SixthOrderHamIntegrator.__init__ (tracing false true)
      (example_cfg "sixth" "dougherty") = Ok self
    /\ SixthOrderHamIntegrator.a1 self + SixthOrderHamIntegrator.a2 self
       + SixthOrderHamIntegrator.a3 self + SixthOrderHamIntegrator.a2 self
       + SixthOrderHamIntegrator.a1 self == 1.
Proof.
  eexists. split; [reflexivity|].
  refine (proj1 (proj2 (sixth_order_driver_times (tracing false true)
                          (example_cfg "sixth" "dougherty") _ eq_refl))).
Defined.

(** X2: The six velocity pushes of the sixth-order scheme cover one step up to a
    correction of order [dt^2]: the coefficients b1, b2, b3 add up to one
    half, so that [2 (D1 + D2 + D3) - 1] is [dt^2] times a polynomial in
    [dt^2]. *)
Theorem sixth_order_velocity_coefficients
    {D : Type} (P : pushers D) (cfg : config) (self : SixthOrderHamIntegrator.t) :
  SixthOrderHamIntegrator.__init__ P cfg = Ok self ->
  let dt := grid_dt cfg in
  2 * (SixthOrderHamIntegrator.D1 self + SixthOrderHamIntegrator.D2 self
       + SixthOrderHamIntegrator.D3 self) - 1
  == dt ^ 2 * (- 0.011634074666122711339616
               + 0.000220545617274484320562892312 * dt ^ 2
               - 0.0000079768790206001089945503808 * dt ^ 4).
Proof.
  intros H. unfold SixthOrderHamIntegrator.__init__ in H.
  apply bind_result_Ok_inv in H. destruct H as (base & _ & H).
  inversion H; subst; clear H. cbn -[Qmult Qplus Qminus Qeq Qpower Qdiv].
  repeat match goal with
         | |- context [Qdiv ?a ?b] =>
             let v := eval vm_compute in (Qdiv a b) in
             change (Qdiv a b) with v
         end.
  ring.
Qed.

Lemma sixth_order_velocity_coefficients_witness :
  exists self,
    SixthOrderHamIntegrator.__init__ (tracing false true)
      (example_cfg "sixth" "dougherty") = Ok self
    /\ 2 * (SixthOrderHamIntegrator.D1 self + SixthOrderHamIntegrator.D2 self
            + SixthOrderHamIntegrator.D3 self) - 1
       == 1 ^ 2 * (- 0.011634074666122711339616
                   + 0.000220545617274484320562892312 * 1 ^ 2
                   - 0.0000079768790206001089945503808 * 1 ^ 4).
Proof.
  eexists. split; [reflexivity|].
  exact (sixth_order_velocity_coefficients (tracing false true)
           (example_cfg "sixth" "dougherty") _ eq_refl).
Defined.

(** ** Setting up the step object *)



(** X4: once a Vlasov-Poisson-Fokker-Planck object is constructed, the
    indices the step uses are in range: [dt_array] has six entries for the
    sixth-order scheme and two for leapfrog, so that [dt_array[1]] exists,
    and [dex_save] (3, respectively 0) is below its length; the first driver
    time is 0 and the last is [dt]; the step and the collision operator hold
    the configured [dt] and the configuration itself. *)
Theorem driver_indices_in_range
    {D : Type} (P : pushers D) (cfg : config)
    (self : VlasovPoissonFokkerPlanck.t) :
  VlasovPoissonFokkerPlanck.__init__ P cfg = Ok self ->
  let ts := VlasovPoissonFokkerPlanck.integrator_dt_array
              (VlasovPoissonFokkerPlanck.vlasov_poisson self) in
  let save := VlasovPoissonFokkerPlanck.dex_save self in
  (save < length ts)%nat
  /\ (1 < length ts)%nat
  /\ (terms_time cfg = "sixth" -> length ts = 6%nat /\ save = 3%nat)
  /\ (terms_time cfg = "leapfrog" -> length ts = 2%nat /\ save = 0%nat)
  /\ hd 0 ts == 0
  /\ List.last ts 0 == grid_dt cfg
  /\ VlasovPoissonFokkerPlanck.dt self = grid_dt cfg
  /\ Collisions.cfg (VlasovPoissonFokkerPlanck.fp self) = cfg.
Proof.
  intros H. unfold VlasovPoissonFokkerPlanck.__init__ in H.
  apply bind_result_Ok_inv in H. destruct H as ([vp save] & Hvp & H).
  inversion H; subst; clear H.
  cbn [VlasovPoissonFokkerPlanck.vlasov_poisson
         VlasovPoissonFokkerPlanck.dex_save VlasovPoissonFokkerPlanck.dt
         VlasovPoissonFokkerPlanck.fp Collisions.cfg Collisions.__init__ fst snd].
  case_decide as Hs; [|case_decide as Hl; [|discriminate]].
  - apply bind_result_Ok_inv in Hvp. destruct Hvp as (i & Hi & Hvp).
    inversion Hvp; subst; clear Hvp.
    unfold SixthOrderHamIntegrator.__init__ in Hi.
    apply bind_result_Ok_inv in Hi. destruct Hi as (base & _ & Hi).
    inversion Hi; subst; clear Hi.
    cbn -[Qmult Qplus Qminus Qeq].
    split; [lia|]. split; [lia|]. split; [auto|].
    split; [rewrite Hs; discriminate|].
    split; [ring|]. split; [ring|]. auto.
  - apply bind_result_Ok_inv in Hvp. destruct Hvp as (i & Hi & Hvp).
    inversion Hvp; subst; clear Hvp.
    unfold LeapfrogIntegrator.__init__ in Hi.
    apply bind_result_Ok_inv in Hi. destruct Hi as (base & _ & Hi).
    inversion Hi; subst; clear Hi.
    cbn -[Qmult Qplus Qminus Qeq].
    split; [lia|]. split; [lia|].
    split; [rewrite Hl; discriminate|]. split; [auto|].
    split; [ring|]. split; [ring|]. auto.
Qed.

Lemma driver_indices_in_range_witness :
  exists self,
    VlasovPoissonFokkerPlanck.__init__ (tracing false false)
      (example_cfg "sixth" "dougherty") = Ok self
    /\ (VlasovPoissonFokkerPlanck.dex_save self
        < length (VlasovPoissonFokkerPlanck.integrator_dt_array
                    (VlasovPoissonFokkerPlanck.vlasov_poisson self)))%nat.
Proof.
  eexists. split; [reflexivity|].
  refine (proj1 (driver_indices_in_range (tracing false false)
                   (example_cfg "sixth" "dougherty") _ eq_refl)).
Defined.

(** ** The driver values an integrator reads *)

(** X5: a call of the sixth-order integrator reads the driver values 0 to 5
    and nothing else of [dex_array]: with fewer than six values it raises
    (possibly only at the stage that misses its value), entries beyond the
    sixth do not matter, and neither does the previous field [prev_ex],
    which is not handed to the field solver. *)
Theorem sixth_order_reads_six_driver_values
    (self : SixthOrderHamIntegrator.t) (f ni Z a : jnp.ndarray)
    (dex_array : list jnp.ndarray) (prev_ex : jnp.ndarray) :
  ((length dex_array < 6)%nat ->
   SixthOrderHamIntegrator.__call__ self f ni Z a dex_array prev_ex = None)
  /\ SixthOrderHamIntegrator.__call__ self f ni Z a dex_array prev_ex
     = SixthOrderHamIntegrator.__call__ self f ni Z a (take 6 dex_array) prev_ex
  /\ forall prev_ex',
       SixthOrderHamIntegrator.__call__ self f ni Z a dex_array prev_ex'
       = SixthOrderHamIntegrator.__call__ self f ni Z a dex_array prev_ex.
Proof.
  split; [|split].
  - intros Hlen. unfold SixthOrderHamIntegrator.__call__.
    destruct dex_array as [|d0 [|d1 [|d2 [|d3 [|d4 [|d5 rest]]]]]];
      simpl in Hlen; try lia;
      repeat (simpl; first [reflexivity | step_option]).
  - unfold SixthOrderHamIntegrator.__call__.
    rewrite !lookup_take_lt by lia. reflexivity.
  - reflexivity.
Qed.

(** ** Without collisions *)

(** X6: when the configured collision frequency is non-positive
    everywhere, a Vlasov-Poisson-Fokker-Planck step is the step of its
    integrator: it returns, or raises, exactly as the integrator does,
    whatever the two rates are. *)
Theorem collisionless_step_is_the_integrator
    (self : VlasovPoissonFokkerPlanck.t) (f ni Z a prev_ex : jnp.ndarray)
    (dex_array : list jnp.ndarray) (nu_fp nu_K : option jnp.ndarray) :
  nonpositive_everywhere
    (nuee (Collisions.cfg (VlasovPoissonFokkerPlanck.fp self))) ->
  VlasovPoissonFokkerPlanck.__call__ self f ni Z a prev_ex dex_array nu_fp nu_K
  = VlasovPoissonFokkerPlanck.integrator_call
      (VlasovPoissonFokkerPlanck.vlasov_poisson self) f ni Z a dex_array prev_ex.
Proof.
  intros H. apply any_pos_false_iff in H.
  unfold VlasovPoissonFokkerPlanck.__call__, Collisions.__call__.
  rewrite H.
  destruct (VlasovPoissonFokkerPlanck.integrator_call _ _ _ _ _ _ _)
    as [[e f']|]; reflexivity.
Qed.

Lemma collisionless_step_is_the_integrator_witness :
  exists self,
    VlasovPoissonFokkerPlanck.__init__ (tracing false false)
      (example_cfg "leapfrog" "dougherty") = Ok self
    /\ VlasovPoissonFokkerPlanck.__call__ self (jnp.Arr2 [[1; 2; 1]; [0; 3; 0]])
         (jnp.Arr1 [4; 3]) (jnp.Arr1 [1; 1]) (jnp.Arr1 [0; 0; 0; 0])
         (jnp.Arr1 [0; 0]) zeros6 None None
       = VlasovPoissonFokkerPlanck.integrator_call
           (VlasovPoissonFokkerPlanck.vlasov_poisson self)
           (jnp.Arr2 [[1; 2; 1]; [0; 3; 0]]) (jnp.Arr1 [4; 3]) (jnp.Arr1 [1; 1])
           (jnp.Arr1 [0; 0; 0; 0]) zeros6 (jnp.Arr1 [0; 0]).
Proof.
  eexists. split; [reflexivity|].
  apply collisionless_step_is_the_integrator.
  simpl. discriminate.
Defined.

(** ** The top-level step: what it reads *)

Lemma heap_bind_lift {A B} (o : option A) (k : A -> heapM B) h a :
  o = Some a -> (lift o ≫= k) h = k a h.
Proof. intros ->. reflexivity. Qed.

Lemma heap_bind_getitem {B} y key (k : jnp.ndarray -> heapM B)
    (h : gmap loc (gmap string jnp.ndarray)) d x :
  h !! y = Some d -> d !! key = Some x -> (getitem y key ≫= k) h = k x h.
Proof.
  intros Hy Hk. unfold mbind at 1, heapM_bind, getitem.
  rewrite Hy. simpl. rewrite Hk. reflexivity.
Qed.

Lemma heap_bind_ret {A B} (a : A) (k : A -> heapM B) h :
  (mret a ≫= k) h = k a h.
Proof. reflexivity. Qed.

(** Reads every fact about the caller's bundle off the one bundle [d]. *)
Ltac read_from_bundle Hy :=
  repeat match goal with
         | E : exists d, _ !! _ = Some d /\ _ |- _ =>
             let d := fresh "d" in
             let Hd := fresh "Hd" in
             destruct E as (d & Hd & E); rewrite Hy in Hd; injection Hd as <-
         end.

(** A step that returns from a heap returns the same bundle from a heap
    whose input bundle is replaced by one with the same six entries. *)
Lemma step_transport {D} (P : pushers D) self t y args
    (h h' : gmap loc (gmap string jnp.ndarray)) d d' r :
  h !! y = Some d ->
  agree_on step_input_keys d d' ->
  VlasovMaxwell.__call__ P self t y args h = Some (r, h') ->
  VlasovMaxwell.__call__ P self t y args (<[y := d']> h)
  = Some (r, <[y := d']> h').
Proof.
  intros Hy Hagree H.
  unfold agree_on, step_input_keys in Hagree.
  repeat (apply Forall_cons in Hagree; destruct Hagree as [? Hagree]).
  assert (Hy' : (<[y := d']> h) !! y = Some d') by apply lookup_insert_eq.
  unfold VlasovMaxwell.__call__ in *.
  destruct (terms_fokker_planck_is_on (VlasovMaxwell.cfg self));
    destruct (terms_krook_is_on (VlasovMaxwell.cfg self));
    do 23 heap_step H;
    unfold new_dict in H; injection H as <- <-;
    read_from_bundle Hy;
    repeat match goal with
           | E1 : d !! ?k = Some ?x, E2 : d !! ?k = Some ?x' |- _ =>
               assert (x' = x) by congruence; subst x'; clear E2
           end;
    repeat match goal with
           | Hk : d' !! ?k = d !! ?k, E : d !! ?k = Some _ |- _ =>
               rewrite <- Hk in E
           end;
    repeat first
      [ rewrite heap_bind_ret
      | erewrite heap_bind_lift by eassumption
      | erewrite heap_bind_getitem by eassumption ];
    unfold new_dict;
    rewrite (dom_insert_lookup_L h y d') by eauto;
    (rewrite insert_insert_ne;
     [reflexivity
     | intros Heq; apply (is_fresh (dom h));
       first [rewrite <- Heq | rewrite Heq]; apply elem_of_dom; eauto]).
Qed.

Lemma agree_on_sym ks (d d' : gmap string jnp.ndarray) :
  agree_on ks d d' -> agree_on ks d' d.
Proof.
  unfold agree_on. intros H. eapply Forall_impl; [exact H|].
  intros k Hk. symmetry. exact Hk.
Qed.

(** X7: a step reads the entries "electron", "ni", "Z", "a", "e" and
    "prev_a" of its input bundle and nothing else: replacing the input by a
    bundle with the same six entries (whatever its "de" and "da" are, and
    whatever else it holds) changes neither whether the step returns nor
    the bundle it returns. *)
Theorem step_depends_on_six_entries
    {D : Type} (P : pushers D) (self : VlasovMaxwell.t) (t : Q) (y : loc)
    (args : args_t D) (h : gmap loc (gmap string jnp.ndarray))
    (d d' : gmap string jnp.ndarray) :
  h !! y = Some d ->
  agree_on step_input_keys d d' ->
  VlasovMaxwell.__call__ P self t y args (<[y := d']> h)
  = (fun rh => (rh.1, <[y := d']> rh.2))
      <$> VlasovMaxwell.__call__ P self t y args h.
Proof.
  intros Hy Hagree.
  destruct (VlasovMaxwell.__call__ P self t y args h) as [[r h']|] eqn:H.
  - simpl. eapply step_transport; eassumption.
  - simpl.
    destruct (VlasovMaxwell.__call__ P self t y args (<[y := d']> h))
      as [[r h']|] eqn:H'; [exfalso|reflexivity].
    eapply (step_transport P self t y args _ _ d' d) in H'.
    + rewrite insert_insert_eq, (insert_id h y d Hy) in H'. congruence.
    + apply lookup_insert_eq.
    + apply agree_on_sym, Hagree.
Qed.

Lemma step_depends_on_six_entries_witness :
  VlasovMaxwell.__call__ (tracing false false) example_step 0 1%positive
    example_args
    (<[1%positive := <["de" := jnp.Scalar 7]> (<["da" := jnp.Scalar 8]> example_bundle)]>
       example_heap)
  = (fun rh => (rh.1,
                <[1%positive := <["de" := jnp.Scalar 7]>
                                  (<["da" := jnp.Scalar 8]> example_bundle)]> rh.2))
      <$> VlasovMaxwell.__call__ (tracing false false) example_step 0 1%positive
            example_args example_heap.
Proof.
  apply (step_depends_on_six_entries (tracing false false) example_step 0
           1%positive example_args example_heap example_bundle).
  - reflexivity.
  - repeat constructor.
Defined.

(** X8: a step that returns has found the input bundle in the heap with all
    six entries it reads; without one of them it raises. *)
Theorem step_requires_state_entries
    {D : Type} (P : pushers D) (self : VlasovMaxwell.t) (t : Q) (y : loc)
    (args : args_t D) (h h' : gmap loc (gmap string jnp.ndarray)) (r : loc) :
  VlasovMaxwell.__call__ P self t y args h = Some (r, h') ->
  exists d, h !! y = Some d
            /\ Forall (fun k => is_Some (d !! k)) step_input_keys.
Proof.
  intros H. unfold VlasovMaxwell.__call__ in H.
  destruct (terms_fokker_planck_is_on (VlasovMaxwell.cfg self));
    destruct (terms_krook_is_on (VlasovMaxwell.cfg self));
    do 23 heap_step H;
    (assert (exists d, h !! y = Some d) as [d Hy]
       by (match goal with
           | E : exists d, h !! y = Some d /\ _ |- _ =>
               destruct E as (d & ? & _); eauto
           end));
    read_from_bundle Hy;
    exists d; (split; [exact Hy|]);
    unfold step_input_keys; repeat constructor; eauto.
Qed.

Lemma step_requires_state_entries_witness :
  exists d, example_heap !! 1%positive = Some d
            /\ Forall (fun k => is_Some (d !! k)) step_input_keys.
Proof.
  assert (Hrun : VlasovMaxwell.__call__ (tracing false false) example_step 0
                   1%positive example_args example_heap
                 = Some (2%positive, <[2%positive := example_output]> example_heap))
    by (vm_compute; reflexivity).
  exact (step_requires_state_entries (tracing false false) example_step 0
           1%positive example_args example_heap _ _ Hrun).
Defined.

(** ** The top-level step: the collision rate *)

Lemma dougherty_call_without_rate self f dt :
  Dougherty.__call__ self None f dt = None.
Proof. reflexivity. Qed.

Lemma collisions_call_without_rate (self : Collisions.t) nu_K f dt :
  jnp.any_pos (nuee (Collisions.cfg self)) = true ->
  Collisions.__call__ self None nu_K f dt = None.
Proof.
  intros Hpos. unfold Collisions.__call__. rewrite Hpos.
  rewrite dougherty_call_without_rate. reflexivity.
Qed.

(** X9: with a collision frequency [nuee] that is positive somewhere and the
    Fokker-Planck term switched off, every step raises: the rate handed to
    the collision operator is [None], and the operator multiplies it with
    [dt]. *)
Theorem step_raises_without_fokker_planck_rate
    {D : Type} (P : pushers D) (cfg : config) (self : VlasovMaxwell.t)
    (t : Q) (y : loc) (args : args_t D) (h : gmap loc (gmap string jnp.ndarray)) :
  VlasovMaxwell.__init__ P cfg = Ok self ->
  terms_fokker_planck_is_on cfg = false ->
  jnp.any_pos (nuee cfg) = true ->
  VlasovMaxwell.__call__ P self t y args h = None.
Proof.
  intros Hinit Hoff Hpos.
  unfold VlasovMaxwell.__init__ in Hinit.
  apply bind_result_Ok_inv in Hinit. destruct Hinit as (vpfp & Hvp & Hinit).
  inversion Hinit; subst self; clear Hinit.
  assert (Hfp : Collisions.cfg (VlasovPoissonFokkerPlanck.fp vpfp) = cfg).
  { unfold VlasovPoissonFokkerPlanck.__init__ in Hvp.
    apply bind_result_Ok_inv in Hvp. destruct Hvp as (vp & _ & Hvp).
    inversion Hvp; subst. reflexivity. }
  destruct (VlasovMaxwell.__call__ P _ t y args h) as [[r h']|] eqn:H;
    [exfalso|reflexivity].
  unfold VlasovMaxwell.__call__ in H.
  cbn [VlasovMaxwell.cfg VlasovMaxwell.vpfp] in H.
  rewrite Hoff in H.
  destruct (terms_krook_is_on cfg); do 15 heap_step H;
    match goal with
    | E : VlasovPoissonFokkerPlanck.__call__ _ _ _ _ _ _ _ _ _ = Some _ |- _ =>
        unfold VlasovPoissonFokkerPlanck.__call__ in E;
        destruct (VlasovPoissonFokkerPlanck.integrator_call _ _ _ _ _ _ _)
          as [ef|]; [|discriminate];
        simpl in E;
        rewrite collisions_call_without_rate in E
          by (rewrite Hfp; exact Hpos);
        discriminate
    end.
Qed.

Lemma step_raises_without_fokker_planck_rate_witness :
  exists self,
    VlasovMaxwell.__init__ (tracing false false) rate_off_cfg = Ok self
    /\ VlasovMaxwell.__call__ (tracing false false) self 0 1%positive
         example_args example_heap = None.
Proof.
  eexists. split; [reflexivity|].
  apply (step_raises_without_fokker_planck_rate (tracing false false)
           rate_off_cfg _ 0 1%positive example_args example_heap);
    reflexivity.
Defined.

(** ** The top-level step: the driver values it stores *)

Lemma mapM_lookup_Some {A B} (k : A -> option B) (l : list A) (out : list B) i b :
  mapM k l = Some out -> out !! i = Some b ->
  exists a, l !! i = Some a /\ k a = Some b.
Proof.
  intros Hm Hb. apply mapM_Some in Hm.
  destruct (Forall2_lookup_r _ _ _ _ _ Hm Hb) as (a & Ha & Hk). eauto.
Qed.

(** X10: the entries "da" and "de" of the bundle a step returns are driver
    values at intermediate times of the step: "da" is the transverse driver
    at the second driver time, "de" the longitudinal driver at the time of
    index [dex_save].  With leapfrog these are the end and the start of the
    step; with the sixth-order scheme they are the times of the second and
    the fourth field solve, [a1 dt] and [(a1 + a2 + a3) dt]. *)
Theorem step_saves_driver_values
    {D : Type} (P : pushers D) (cfg : config) (self : VlasovMaxwell.t) (t : Q)
    (y : loc) (args : args_t D) (h h' : gmap loc (gmap string jnp.ndarray))
    (r : loc) :
  VlasovMaxwell.__init__ P cfg = Ok self ->
  VlasovMaxwell.__call__ P self t y args h = Some (r, h') ->
  exists out t_da t_de da de,
    h' !! r = Some out
    /\ VlasovMaxwell.ey_driver self (t + t_da) args = Some da
    /\ VlasovMaxwell.ex_driver self (t + t_de) args = Some de
    /\ out !! "da" = Some da
    /\ out !! "de" = Some de
    /\ (terms_time cfg = "leapfrog" -> t_da == grid_dt cfg /\ t_de == 0)
    /\ (terms_time cfg = "sixth" ->
        t_da == 0.168735950563437422448196 * grid_dt cfg
        /\ t_de == 0.453412460215634273671038 * grid_dt cfg).
Proof.
  intros Hinit H.
  assert (Hts : let ts := VlasovPoissonFokkerPlanck.integrator_dt_array
                            (VlasovPoissonFokkerPlanck.vlasov_poisson
                               (VlasovMaxwell.vpfp self)) in
                let save := VlasovPoissonFokkerPlanck.dex_save
                              (VlasovMaxwell.vpfp self) in
                forall t_da t_de,
                  ts !! 1%nat = Some t_da -> ts !! save = Some t_de ->
                  (terms_time cfg = "leapfrog" ->
                   t_da == grid_dt cfg /\ t_de == 0)
                  /\ (terms_time cfg = "sixth" ->
                      t_da == 0.168735950563437422448196 * grid_dt cfg
                      /\ t_de == 0.453412460215634273671038 * grid_dt cfg)).
  { unfold VlasovMaxwell.__init__ in Hinit.
    apply bind_result_Ok_inv in Hinit. destruct Hinit as (vpfp & Hvp & Hinit).
    inversion Hinit; subst self; clear Hinit.
    cbn [VlasovMaxwell.vpfp].
    unfold VlasovPoissonFokkerPlanck.__init__ in Hvp.
    apply bind_result_Ok_inv in Hvp. destruct Hvp as ([vp save] & Hvp & Hok).
    inversion Hok; subst vpfp; clear Hok.
    cbn [VlasovPoissonFokkerPlanck.vlasov_poisson
           VlasovPoissonFokkerPlanck.dex_save fst snd].
    case_decide as Hs; [|case_decide as Hl; [|discriminate]].
    - apply bind_result_Ok_inv in Hvp. destruct Hvp as (i & Hi & Hvp).
      inversion Hvp; subst; clear Hvp.
      unfold SixthOrderHamIntegrator.__init__ in Hi.
      apply bind_result_Ok_inv in Hi. destruct Hi as (base & _ & Hi).
      inversion Hi; subst; clear Hi.
      intros t_da t_de Hda Hde.
      cbn -[Qmult Qplus Qminus Qeq] in Hda, Hde.
      injection Hda as <-. injection Hde as <-.
      split; [rewrite Hs; discriminate|].
      intros _. split; ring.
    - apply bind_result_Ok_inv in Hvp. destruct Hvp as (i & Hi & Hvp).
      inversion Hvp; subst; clear Hvp.
      unfold LeapfrogIntegrator.__init__ in Hi.
      apply bind_result_Ok_inv in Hi. destruct Hi as (base & _ & Hi).
      inversion Hi; subst; clear Hi.
      intros t_da t_de Hda Hde.
      cbn -[Qmult Qplus Qminus Qeq] in Hda, Hde.
      injection Hda as <-. injection Hde as <-.
      split; [|rewrite Hl; discriminate].
      intros _. split; ring. }
  cbv zeta in Hts.
  unfold VlasovMaxwell.__call__ in H.
  destruct (terms_fokker_planck_is_on (VlasovMaxwell.cfg self));
    destruct (terms_krook_is_on (VlasovMaxwell.cfg self));
    do 23 heap_step H;
    unfold new_dict in H; injection H as <- <-;
    match goal with
    | Em : mapM _ _ = Some ?dex, Ed : ?dex !! _ = Some _ |- _ =>
        destruct (mapM_lookup_Some _ _ _ _ _ Em Ed) as (t_de & Ht & Hde)
    end;
    match goal with
    | E1 : _ !! 1%nat = Some ?t_da |- _ =>
        eexists _, t_da, t_de, _, _;
        (split; [apply lookup_insert_eq|]);
        (split; [eassumption|]);
        (split; [exact Hde|]);
        (split; [simplify_map_eq; reflexivity|]);
        (split; [simplify_map_eq; reflexivity|]);
        exact (Hts _ _ E1 Ht)
    end.
Qed.

Lemma step_saves_driver_values_witness :
  exists out t_da t_de da de,
    (<[2%positive := example_output]> example_heap) !! 2%positive = Some out
    /\ VlasovMaxwell.ey_driver example_step (0 + t_da) example_args = Some da
    /\ VlasovMaxwell.ex_driver example_step (0 + t_de) example_args = Some de
    /\ out !! "da" = Some da
    /\ out !! "de" = Some de
    /\ ("leapfrog" = "leapfrog" -> t_da == 1 /\ t_de == 0)
    /\ ("leapfrog" = "sixth" ->
        t_da == 0.168735950563437422448196 * 1
        /\ t_de == 0.453412460215634273671038 * 1).
Proof.
  assert (Hrun : VlasovMaxwell.__call__ (tracing false false) example_step 0
                   1%positive example_args example_heap
                 = Some (2%positive, <[2%positive := example_output]> example_heap))
    by (vm_compute; reflexivity).
  exact (step_saves_driver_values (tracing false false)
           (example_cfg "leapfrog" "dougherty") example_step 0 1%positive
           example_args example_heap _ _ eq_refl Hrun).
Defined.

(** * Further properties of the collision operators *)

(** ** Krook relaxation: fixed points *)


Lemma length_maxwellian_raw exp cfg :
  length (maxwellian_raw exp cfg) = length (grid_v cfg).
Proof. unfold maxwellian_raw. rewrite !length_map. reflexivity. Qed.



Lemma krook_row_fixed_point exp cfg dt nu n :
  (forall x, 0 < exp x) ->
  ~ grid_dv cfg == 0 ->
  (2 <= length (grid_v cfg))%nat ->
  let target :=
    map (fun a => a / maxwellian_norm exp cfg) (maxwellian_raw exp cfg) in
  Forall2 Qeq (krook_row exp cfg dt (map (Qmult n) target) nu)
    (map (Qmult n) target).
Proof.
  intros Hpos Hdv Hlen target. unfold krook_row. fold target.
  assert (Hn : jnp.trapz_row (grid_dv cfg) (map (Qmult n) target) == n).
  { rewrite trapz_row_scale_l. unfold target.
    rewrite (maxwellian_unit_normalised exp Hpos cfg Hdv Hlen). ring. }
  set (e := exp (- (dt * nu))). clearbody e.
  set (m := jnp.trapz_row (grid_dv cfg) (map (Qmult n) target)) in *.
  clearbody m. clear Hlen.
  induction target as [|a target IH]; simpl; constructor.
  - rewrite Hn. ring.
  - exact IH.
Qed.

(** X12: a distribution whose rows are multiples of the normalised
    Maxwellian [f_mx] is a fixed point of the Krook step, for every rate
    profile and every [dt] (on a grid of at least two points with a nonzero
    step, and a positive exponential). *)
Theorem krook_maxwellian_is_fixed_point
    (exp : Q -> Q) (cfg : config) (ns nus : list Q) (dt : Q) :
  (forall x, 0 < exp x) ->
  ~ grid_dv cfg == 0 ->
  (2 <= length (grid_v cfg))%nat ->
  length nus = length ns ->
  let target :=
    map (fun a => a / maxwellian_norm exp cfg) (maxwellian_raw exp cfg) in
  let rows := map (fun n => map (Qmult n) target) ns in
  Krook.f_mx (Krook.__init__ exp cfg) = Some (jnp.Arr2 [target])
  /\ exists out,
       Krook.__call__ exp (Krook.__init__ exp cfg) (Some (jnp.Arr1 nus))
         (jnp.Arr2 rows) dt = Some (jnp.Arr2 out)
       /\ Forall2 (Forall2 Qeq) out rows.
Proof.
  intros Hpos Hdv Hlen Hnus target rows.
  split; [apply krook_f_mx|].
  eexists. split.
  - apply krook_call_rows.
    + unfold rows. rewrite length_map. exact Hnus.
    + unfold rows. apply Forall_forall. intros r Hr.
      apply list_elem_of_fmap in Hr. destruct Hr as (n & -> & _).
      unfold target. rewrite !length_map. apply length_maxwellian_raw.
  - unfold rows. clear rows. revert nus Hnus.
    induction ns as [|n ns IH]; intros [|nu nus] Hnus; try discriminate;
      simpl; constructor.
    + apply krook_row_fixed_point; assumption.
    + apply IH. simpl in Hnus. congruence.
Qed.

Lemma krook_maxwellian_is_fixed_point_witness :
  exists out,
    Krook.__call__ rational_exp
      (Krook.__init__ rational_exp (collision_cfg [-1; 0; 1]))
      (Some (jnp.Arr1 [1; 2]))
      (jnp.Arr2
         (map (fun n =>
                 map (Qmult n)
                   (map (fun a => a / maxwellian_norm rational_exp
                                        (collision_cfg [-1; 0; 1]))
                        (maxwellian_raw rational_exp (collision_cfg [-1; 0; 1]))))
              [3; 5]))
      (1 / 2)
    = Some (jnp.Arr2 out)
    /\ Forall2 (Forall2 Qeq) out
         (map (fun n =>
                 map (Qmult n)
                   (map (fun a => a / maxwellian_norm rational_exp
                                        (collision_cfg [-1; 0; 1]))
                        (maxwellian_raw rational_exp (collision_cfg [-1; 0; 1]))))
              [3; 5]).
Proof.
  refine (proj2 (krook_maxwellian_is_fixed_point rational_exp
                   (collision_cfg [-1; 0; 1]) [3; 5] [1; 2] (1 / 2)
                   rational_exp_pos _ _ _)).
  - discriminate.
  - simpl. lia.
  - reflexivity.
Defined.

(** ** The Dougherty operator: signs *)







(** ** The Dougherty operator: a rate profile *)

Lemma rowop_mismatch op (x y : list Q) :
  length x <> length y -> length x <> 1%nat -> length y <> 1%nat ->
  jnp.rowop op x y = None.
Proof.
  intros Hxy Hx Hy. unfold jnp.rowop, jnp.broadcast.
  rewrite decide_False by exact Hxy.
  destruct x as [|a [|a' x]]; destruct y as [|b [|b' y]]; simpl in *;
    try reflexivity; congruence.
Qed.

(** A single row against a matrix whose rows have another length. *)
Lemma matop_row_mismatch op (v : list Q) (m : list (list Q)) (n : nat) :
  m <> [] ->
  Forall (fun r => length r = n) m ->
  length v <> n -> length v <> 1%nat -> n <> 1%nat ->
  jnp.matop op [v] m = None.
Proof.
  intros Hm Hrows Hvn Hv Hn.
  destruct m as [|r m]; [congruence|].
  apply Forall_cons in Hrows. destruct Hrows as [Hr _].
  assert (Hrow : jnp.rowop op v r = None)
    by (apply rowop_mismatch; congruence).
  unfold jnp.matop, jnp.broadcast. case_decide as Hlen.
  - destruct m; [|discriminate]. simpl. rewrite Hrow. reflexivity.
  - simpl. rewrite Hrow. reflexivity.
Qed.

(** The bracket of the off-diagonal expressions of [Dougherty.__call__]:
    [-v0t_sq[:, None] / dv**2 op (w[None, :] - vbar[:, None]) / 2 / dv]. *)
Lemma dougherty_bracket (op : Q -> Q -> Q) dv w vbars v0ts :
  length vbars = length v0ts ->
  jnp.lift2 op
    (- jnp.col (Some (jnp.Arr1 v0ts)) / jnp.sq (jnp.lit dv))%np
    ((jnp.row (Some (jnp.Arr1 w)) - jnp.col (Some (jnp.Arr1 vbars)))
     / jnp.lit 2 / jnp.lit dv)%np
  = Some (jnp.Arr2
            (zip_with
               (fun v0t vbar =>
                  map (fun x => op (- v0t / dv ^ 2) ((x - vbar) / 2 / dv)) w)
               v0ts vbars)).
Proof.
  intros Hlen. simpl. fold (column vbars). fold (column v0ts).
  rewrite matop_row_column. simpl.
  rewrite !column_map.
  rewrite matop_column_l by (rewrite !length_map; congruence).
  simpl. do 2 f_equal.
  rewrite !map_map, zip_with_fmap_l, zip_with_fmap_r.
  clear Hlen. revert vbars.
  induction v0ts as [|v0t v0ts IH]; intros [|vbar vbars]; simpl;
    try reflexivity.
  rewrite IH, !map_map. reflexivity.
Qed.

(** X14: a rate profile is multiplied along the velocity axis.  Given as a
    rank-one array whose length is neither one nor the number of velocity
    points, on a velocity grid of more than one point, the rate makes the
    operator raise a shape error on every non-empty well-shaped
    distribution; in particular a rate with one entry per spatial cell
    raises whenever the numbers of cells and of velocities differ. *)
Theorem dougherty_rate_profile_shape_error
    (cfg : config) (nus : list Q) (rows : list (list Q)) (dt : Q) :
  well_shaped cfg rows ->
  rows <> [] ->
  length nus <> length (grid_v cfg) ->
  length nus <> 1%nat ->
  length (grid_v cfg) <> 1%nat ->
  Dougherty.__call__ (Dougherty.__init__ cfg) (Some (jnp.Arr1 nus))
    (jnp.Arr2 rows) dt = None.
Proof.
  intros (Hnx & Hnv & Hrows) Hne Hlen Hone Hv.
  unfold Dougherty.__call__.
  rewrite dougherty_v0t_sq_rows, dougherty_vbar_rows by exact Hrows.
  unfold Dougherty.__init__, Dougherty.v, Dougherty.dv, Dougherty.ones.
  set (dv := grid_dv cfg). set (v := grid_v cfg).
  change (Some (jnp.Arr1 nus) * jnp.lit dt
          * (- jnp.col (Some (jnp.Arr1 (map (cell_v0t_sq dv v) rows)))
               / jnp.sq (jnp.lit dv)
             + (jnp.row (jnp.roll (Some (jnp.Arr1 v)) 1)
                - jnp.col (Some (jnp.Arr1 (map (cell_vbar dv v) rows))))
               / jnp.lit 2 / jnp.lit dv))%np
    with (jnp.lift2 Qmult (Some (jnp.Arr1 (map (fun a => a * dt) nus)))
            (jnp.lift2 Qplus
               (- jnp.col (Some (jnp.Arr1 (map (cell_v0t_sq dv v) rows)))
                  / jnp.sq (jnp.lit dv))%np
               ((jnp.row (Some (jnp.Arr1 (jnp.roll_list 1 v)))
                 - jnp.col (Some (jnp.Arr1 (map (cell_vbar dv v) rows))))
                / jnp.lit 2 / jnp.lit dv)%np)).
  rewrite dougherty_bracket by (rewrite !length_map; reflexivity).
  cbn [jnp.lift2 mbind option_bind jnp.binop].
  rewrite (matop_row_mismatch Qmult _ _ (length v)).
  - reflexivity.
  - destruct rows; [congruence | discriminate].
  - rewrite zip_with_fmap_l, zip_with_fmap_r, zip_with_diag.
    apply Forall_fmap, Forall_forall. intros r _. simpl.
    rewrite length_map. apply length_roll_list.
  - rewrite length_map. exact Hlen.
  - rewrite length_map. exact Hone.
  - exact Hv.
Qed.

Lemma dougherty_rate_profile_shape_error_witness :
  Dougherty.__call__ (Dougherty.__init__ (example_cfg "leapfrog" "dougherty"))
    (Some (jnp.Arr1 [1; 1])) (jnp.Arr2 [[1; 2; 1]; [0; 3; 0]]) (1 / 2) = None.
Proof.
  apply (dougherty_rate_profile_shape_error (example_cfg "leapfrog" "dougherty")
           [1; 1] [[1; 2; 1]; [0; 3; 0]] (1 / 2)).
  - repeat split. repeat constructor.
  - discriminate.
  - simpl. lia.
  - simpl. lia.
  - simpl. lia.
Defined.

Lemma dougherty_diag_profile nus dt dv nx nv v0ts :
  nx = length v0ts -> nv = length nus ->
  (jnp.lit 1
   + Some (jnp.Arr1 nus) * jnp.lit dt * jnp.ones nx nv
     * (jnp.lit 2 * jnp.col (Some (jnp.Arr1 v0ts)) / jnp.sq (jnp.lit dv)))%np
  = Some (jnp.Arr2 (map (fun v0t => map (fun nu => diagonal nu dt dv v0t) nus) v0ts)).
Proof.
  intros -> ->.
  change (Some (jnp.Arr1 nus) * jnp.lit dt * jnp.ones (length v0ts) (length nus))%np
    with (jnp.Arr2 <$> jnp.matop Qmult [map (fun a => a * dt) nus]
                         (replicate (length v0ts) (replicate (length nus) 1))).
  rewrite matop_row_l
    by (apply Forall_replicate; rewrite length_replicate, length_map; reflexivity).
  simpl. fold (column v0ts). rewrite !column_map.
  rewrite matop_column_r
    by (rewrite !length_map, length_replicate; reflexivity).
  simpl. do 2 f_equal.
  rewrite fmap_replicate.
  rewrite zip_with_replicate_r_eq by (rewrite length_map; reflexivity).
  induction v0ts as [|v0t v0ts IH]; simpl; [reflexivity|].
  rewrite IH. f_equal. rewrite !map_map. reflexivity.
Qed.

Lemma zip_with_scaled (g : Q -> Q) (c : Q) (nus w : list Q) :
  zip_with Qmult (map (fun a => a * c) nus) (map g w)
  = zip_with (fun nu x => nu * c * g x) nus w.
Proof. rewrite zip_with_fmap_l, zip_with_fmap_r. reflexivity. Qed.

(** X15: with one rate per velocity point the operator returns, and the
    rate multiplies along the velocity axis: in every spatial cell, the
    entries of the three diagonals at the velocity index [j] are computed
    with the rate [nus[j]]. *)
Theorem dougherty_rate_profile_runs_along_velocity
    (cfg : config) (nus : list Q) (rows : list (list Q)) (dt : Q) :
  well_shaped cfg rows ->
  length nus = length (grid_v cfg) ->
  let dv := grid_dv cfg in
  let v := grid_v cfg in
  Dougherty.__call__ (Dougherty.__init__ cfg) (Some (jnp.Arr1 nus))
    (jnp.Arr2 rows) dt
  = Some
      (jnp.Arr2
         (map (fun r =>
                 zip_with (fun nu w => sub_diagonal nu dt dv (cell_vbar dv v r)
                                         (cell_v0t_sq dv v r) w)
                   nus (jnp.roll_list 1 v)) rows),
       jnp.Arr2
         (map (fun r => map (fun nu => diagonal nu dt dv (cell_v0t_sq dv v r)) nus)
              rows),
       jnp.Arr2
         (map (fun r =>
                 zip_with (fun nu w => super_diagonal nu dt dv (cell_vbar dv v r)
                                         (cell_v0t_sq dv v r) w)
                   nus (jnp.roll_list (-1) v)) rows)).
Proof.
  intros (Hnx & Hnv & Hrows) Hlen dv v.
  unfold Dougherty.__call__.
  rewrite dougherty_v0t_sq_rows, dougherty_vbar_rows by exact Hrows.
  unfold Dougherty.__init__, Dougherty.v, Dougherty.dv, Dougherty.ones.
  fold dv. fold v.
  change (Some (jnp.Arr1 nus) * jnp.lit dt
          * (- jnp.col (Some (jnp.Arr1 (map (cell_v0t_sq dv v) rows)))
               / jnp.sq (jnp.lit dv)
             + (jnp.row (jnp.roll (Some (jnp.Arr1 v)) 1)
                - jnp.col (Some (jnp.Arr1 (map (cell_vbar dv v) rows))))
               / jnp.lit 2 / jnp.lit dv))%np
    with (jnp.lift2 Qmult (Some (jnp.Arr1 (map (fun a => a * dt) nus)))
            (jnp.lift2 Qplus
               (- jnp.col (Some (jnp.Arr1 (map (cell_v0t_sq dv v) rows)))
                  / jnp.sq (jnp.lit dv))%np
               ((jnp.row (Some (jnp.Arr1 (jnp.roll_list 1 v)))
                 - jnp.col (Some (jnp.Arr1 (map (cell_vbar dv v) rows))))
                / jnp.lit 2 / jnp.lit dv)%np)).
  change (Some (jnp.Arr1 nus) * jnp.lit dt
          * (- jnp.col (Some (jnp.Arr1 (map (cell_v0t_sq dv v) rows)))
               / jnp.sq (jnp.lit dv)
             - (jnp.row (jnp.roll (Some (jnp.Arr1 v)) (-1))
                - jnp.col (Some (jnp.Arr1 (map (cell_vbar dv v) rows))))
               / jnp.lit 2 / jnp.lit dv))%np
    with (jnp.lift2 Qmult (Some (jnp.Arr1 (map (fun a => a * dt) nus)))
            (jnp.lift2 Qminus
               (- jnp.col (Some (jnp.Arr1 (map (cell_v0t_sq dv v) rows)))
                  / jnp.sq (jnp.lit dv))%np
               ((jnp.row (Some (jnp.Arr1 (jnp.roll_list (-1) v)))
                 - jnp.col (Some (jnp.Arr1 (map (cell_vbar dv v) rows))))
                / jnp.lit 2 / jnp.lit dv)%np)).
  rewrite !dougherty_bracket by (rewrite !length_map; reflexivity).
  rewrite dougherty_diag_profile
    by (rewrite ?length_map; congruence).
  cbn [jnp.lift2 mbind option_bind jnp.binop].
  rewrite !zip_with_fmap_l, !zip_with_fmap_r, !zip_with_diag.
  rewrite !matop_row_l
    by (apply Forall_fmap, Forall_forall; intros r _; simpl;
        rewrite !length_map, length_roll_list; symmetry; exact Hlen).
  cbn [fmap option_fmap option_map mbind option_bind].
  rewrite !map_map.
  do 3 f_equal; first [apply map_ext | f_equal; apply map_ext]; intros r;
    rewrite zip_with_scaled; reflexivity.
Qed.

Lemma dougherty_rate_profile_runs_along_velocity_witness :
  exists a b c,
    Dougherty.__call__ (Dougherty.__init__ (collision_cfg [-1; 0; 1]))
      (Some (jnp.Arr1 [1; 2; 3])) (jnp.Arr2 [[1; 2; 1]]) (1 / 2)
    = Some (jnp.Arr2 [a], jnp.Arr2 [b], jnp.Arr2 [c])
    /\ length a = 3%nat /\ length b = 3%nat /\ length c = 3%nat.
Proof.
  eexists _, _, _. split.
  - apply (dougherty_rate_profile_runs_along_velocity
             (collision_cfg [-1; 0; 1]) [1; 2; 3] [[1; 2; 1]] (1 / 2)).
    + repeat split. repeat constructor.
    + reflexivity.
  - repeat split.
Defined.

(** ** The Lenard-Bernstein operator *)

Lemma lb_v0t_sq_rows cfg rows :
  Forall (fun r => length r = length (grid_v cfg)) rows ->
  LenardBernstein.vx_moment (LenardBernstein.__init__ cfg)
    (Some (jnp.Arr2 rows)
     * jnp.sq (jnp.row (LenardBernstein.v (LenardBernstein.__init__ cfg))))%np
  = Some (jnp.Arr1
            (map (fun r => jnp.trapz_row (grid_dv cfg)
                             (zip_with Qmult r (map (fun a => a ^ 2) (grid_v cfg))))
                 rows)).
Proof.
  intros Hrows. unfold LenardBernstein.vx_moment. simpl.
  rewrite matop_row_r
    by (eapply Forall_impl; [exact Hrows|]; intros r Hr; simpl;
        rewrite length_map; exact Hr).
  simpl. rewrite map_map. reflexivity.
Qed.

Lemma lb_offdiag (op : Q -> Q -> Q) q dt dv w v0ts :
  jnp.lift2 Qmult (Some (jnp.Scalar q) * jnp.lit dt)%np
    (jnp.lift2 op
       (- jnp.col (Some (jnp.Arr1 v0ts)) / jnp.sq (jnp.lit dv))%np
       (jnp.row (Some (jnp.Arr1 w)) / jnp.lit 2 / jnp.lit dv)%np)
  = Some (jnp.Arr2
            (map (fun v0t => map (fun x => q * dt * op (- v0t / dv ^ 2) (x / 2 / dv)) w)
               v0ts)).
Proof.
  simpl. fold (column v0ts). rewrite !column_map.
  rewrite matop_column_row. simpl. do 2 f_equal.
  rewrite !map_map. apply map_ext. intros v0t. rewrite !map_map. reflexivity.
Qed.


Lemma lb_call_rows cfg rows q dt :
  well_shaped cfg rows ->
  let dv := grid_dv cfg in
  let v := grid_v cfg in
  LenardBernstein.__call__ (LenardBernstein.__init__ cfg) (Some (jnp.Scalar q))
    (jnp.Arr2 rows) dt
  = Some
      (jnp.Arr2 (map (fun r => map (fun x => q * dt * (- cell_second_moment dv v r / dv ^ 2 + x / 2 / dv))
                                 (jnp.roll_list 1 v)) rows),
       jnp.Arr2 (map (fun r => cell_b q dt dv (grid_nv cfg)
                                 (cell_second_moment dv v r)) rows),
       jnp.Arr2 (map (fun r => map (fun x => q * dt * (- cell_second_moment dv v r / dv ^ 2 - x / 2 / dv))
                                 (jnp.roll_list (-1) v)) rows)).
Proof.
  intros (Hnx & Hnv & Hrows) dv v. unfold LenardBernstein.__call__.
  rewrite lb_v0t_sq_rows by exact Hrows.
  fold dv. fold v. fold (cell_second_moment dv v).
  unfold LenardBernstein.__init__, LenardBernstein.v, LenardBernstein.dv,
    LenardBernstein.ones.
  fold dv. fold v.
  change (Some (jnp.Scalar q) * jnp.lit dt
          * (- jnp.col (Some (jnp.Arr1 (map (cell_second_moment dv v) rows)))
               / jnp.sq (jnp.lit dv)
             + jnp.row (jnp.roll (Some (jnp.Arr1 v)) 1)
               / jnp.lit 2 / jnp.lit dv))%np
    with (jnp.lift2 Qmult (Some (jnp.Scalar q) * jnp.lit dt)%np
            (jnp.lift2 Qplus
               (- jnp.col (Some (jnp.Arr1 (map (cell_second_moment dv v) rows)))
                  / jnp.sq (jnp.lit dv))%np
               (jnp.row (Some (jnp.Arr1 (jnp.roll_list 1 v)))
                / jnp.lit 2 / jnp.lit dv)%np)).
  change (Some (jnp.Scalar q) * jnp.lit dt
          * (- jnp.col (Some (jnp.Arr1 (map (cell_second_moment dv v) rows)))
               / jnp.sq (jnp.lit dv)
             - jnp.row (jnp.roll (Some (jnp.Arr1 v)) (-1))
               / jnp.lit 2 / jnp.lit dv))%np
    with (jnp.lift2 Qmult (Some (jnp.Scalar q) * jnp.lit dt)%np
            (jnp.lift2 Qminus
               (- jnp.col (Some (jnp.Arr1 (map (cell_second_moment dv v) rows)))
                  / jnp.sq (jnp.lit dv))%np
               (jnp.row (Some (jnp.Arr1 (jnp.roll_list (-1) v)))
                / jnp.lit 2 / jnp.lit dv)%np)).
  rewrite !lb_offdiag.
  rewrite dougherty_diag by (rewrite length_map; exact Hnx).
  simpl. rewrite !map_map. reflexivity.
Qed.

Lemma second_moment_without_drift dv v r :
  cell_vbar dv v r == 0 -> cell_v0t_sq dv v r == cell_second_moment dv v r.
Proof.
  intros Hz. unfold cell_v0t_sq, cell_second_moment.
  rewrite (centred_moment_proper dv v r _ 0 Hz).
  apply trapz_row_proper.
  generalize r. clear. induction v as [|w v IH]; intros [|a r]; simpl;
    constructor.
  - change ((w - 0) ^ 2) with ((w - 0) * (w - 0)).
    change (w ^ 2) with (w * w). ring.
  - apply IH.
Qed.

Lemma Forall2_map_rows {A} (g g' : A -> list Q) (l : list A) :
  (forall x, x ∈ l -> Forall2 Qeq (g x) (g' x)) ->
  Forall2 (Forall2 Qeq) (map g l) (map g' l).
Proof.
  intros H. apply Forall2_fmap, Forall_Forall2_diag, Forall_forall. exact H.
Qed.

Lemma Forall2_map_entries {A} (g g' : A -> Q) (l : list A) :
  (forall x, g x == g' x) -> Forall2 Qeq (map g l) (map g' l).
Proof.
  intros H. apply Forall2_fmap, Forall_Forall2_diag, Forall_forall.
  intros x _. apply H.
Qed.

(** X16: on well-shaped arrays with a scalar rate, the Lenard-Bernstein
    operator returns the diagonals that the Dougherty operator returns,
    entry by entry, wherever the first velocity moment [vbar] of the
    distribution vanishes in every cell: Dougherty is Lenard-Bernstein
    about the drift [vbar]. *)
Theorem lenard_bernstein_is_dougherty_without_drift
    (cfg : config) (rows : list (list Q)) (q dt : Q) :
  well_shaped cfg rows ->
  Forall (fun r => cell_vbar (grid_dv cfg) (grid_v cfg) r == 0) rows ->
  exists a b c a' b' c',
    LenardBernstein.__call__ (LenardBernstein.__init__ cfg)
      (Some (jnp.Scalar q)) (jnp.Arr2 rows) dt
    = Some (jnp.Arr2 a, jnp.Arr2 b, jnp.Arr2 c)
    /\ Dougherty.__call__ (Dougherty.__init__ cfg)
         (Some (jnp.Scalar q)) (jnp.Arr2 rows) dt
       = Some (jnp.Arr2 a', jnp.Arr2 b', jnp.Arr2 c')
    /\ Forall2 (Forall2 Qeq) a a'
    /\ Forall2 (Forall2 Qeq) b b'
    /\ Forall2 (Forall2 Qeq) c c'.
Proof.
  intros Hshape Hdrift. rewrite Forall_forall in Hdrift.
  eexists _, _, _, _, _, _.
  split; [apply lb_call_rows, Hshape|].
  split; [apply dougherty_call_rows, Hshape|].
  split; [|split].
  - apply Forall2_map_rows. intros r Hr. unfold cell_a.
    apply Forall2_map_entries. intros x. unfold sub_diagonal.
    rewrite (second_moment_without_drift _ _ _ (Hdrift r Hr)), (Hdrift r Hr).
    unfold Qdiv. ring.
  - apply Forall2_map_rows. intros r Hr. unfold cell_b.
    apply Forall2_map_entries. intros x.
    rewrite (second_moment_without_drift _ _ _ (Hdrift r Hr)). reflexivity.
  - apply Forall2_map_rows. intros r Hr. unfold cell_c.
    apply Forall2_map_entries. intros x. unfold super_diagonal.
    rewrite (second_moment_without_drift _ _ _ (Hdrift r Hr)), (Hdrift r Hr).
    unfold Qdiv. ring.
Qed.

Lemma lenard_bernstein_is_dougherty_without_drift_witness :
  exists a b c a' b' c',
    LenardBernstein.__call__ (LenardBernstein.__init__ (collision_cfg [-1; 0; 1]))
      (Some (jnp.Scalar 1)) (jnp.Arr2 [[1; 2; 1]]) (1 / 2)
    = Some (jnp.Arr2 a, jnp.Arr2 b, jnp.Arr2 c)
    /\ Dougherty.__call__ (Dougherty.__init__ (collision_cfg [-1; 0; 1]))
         (Some (jnp.Scalar 1)) (jnp.Arr2 [[1; 2; 1]]) (1 / 2)
       = Some (jnp.Arr2 a', jnp.Arr2 b', jnp.Arr2 c')
    /\ Forall2 (Forall2 Qeq) a a'
    /\ Forall2 (Forall2 Qeq) b b'
    /\ Forall2 (Forall2 Qeq) c c'.
Proof.
  apply (lenard_bernstein_is_dougherty_without_drift (collision_cfg [-1; 0; 1])
           [[1; 2; 1]] 1 (1 / 2)).
  - repeat split. repeat constructor.
  - repeat constructor.
Defined.


(** * Further properties of the helpers of [vfp1d] *)

(** ** Coulomb logarithms *)

Lemma py_max_ge_l a b : a <= py_max a b.
Proof.
  unfold py_max. destruct (Qle_bool b a) eqn:E; [apply Qle_refl|].
  assert (~ b <= a) as H by (rewrite <- Qle_bool_iff; congruence).
  apply Qlt_le_weak, Qnot_le_lt, H.
Qed.

(** X17: with the "nrl" method (whatever its letter case), both Coulomb
    logarithms are returned and neither is below 2, for every density,
    temperature and charge. *)
Theorem nrl_logLambda_at_least_two
    (L : libs) (cfg : helpers_cfg) (ne Te Z : Q) (ion_species s : string) :
  logLambda (units cfg) = LogLambdaStr s ->
  casefold L s = "nrl" ->
  exists ei ee,
    vfp1d.calc_logLambda L cfg ne Te Z ion_species = Ok (ei, ee)
    /\ 2 <= ei /\ 2 <= ee.
Proof.
  intros Hs Hnrl. unfold vfp1d.calc_logLambda. rewrite Hs, Hnrl.
  rewrite decide_False by discriminate.
  rewrite decide_True by reflexivity.
  eexists _, _. split; [reflexivity|]. split.
  - destruct (negb _); apply py_max_ge_l.
  - apply py_max_ge_l.
Qed.

Lemma nrl_logLambda_at_least_two_witness :
  exists ei ee,
    vfp1d.calc_logLambda example_libs
      (example_helpers_cfg (LogLambdaStr "nrl") []) 1 1 6 "Au+" = Ok (ei, ee)
    /\ 2 <= ei /\ 2 <= ee.
Proof.
  apply (nrl_logLambda_at_least_two example_libs
           (example_helpers_cfg (LogLambdaStr "nrl") []) 1 1 6 "Au+" "nrl");
    reflexivity.
Defined.

(** ** Derived units *)



(** ** The initial distribution *)

Lemma length_linspace a b n : length (vfp1d.linspace a b n) = n.
Proof.
  unfold vfp1d.linspace. destruct n as [|[|n]]; try reflexivity.
  rewrite length_map, length_seq. reflexivity.
Qed.

(** Entry [i] of [linspace(a, b, n)] for [n >= 2]. *)
Lemma lookup_linspace a b n i :
  (2 <= n)%nat -> (i < n)%nat ->
  vfp1d.linspace a b n !! i
  = Some (a + inject_Z (Z.of_nat i) * (b - a) / inject_Z (Z.of_nat (n - 1))).
Proof.
  intros Hn Hi. unfold vfp1d.linspace.
  destruct n as [|[|n]]; try lia.
  rewrite list_lookup_fmap, lookup_seq_lt by exact Hi. reflexivity.
Qed.

Lemma inject_nat_nonzero n : n <> 0%nat -> ~ inject_Z (Z.of_nat n) == 0.
Proof.
  intros Hn H. unfold Qeq in H. simpl in H. lia.
Qed.

Lemma cell_centre vmax n i :
  (2 <= n)%nat ->
  let dv := vmax / inject_Z (Z.of_nat n) in
  dv / 2 + inject_Z (Z.of_nat i) * (vmax - dv / 2 - dv / 2)
           / inject_Z (Z.of_nat (n - 1))
  == (inject_Z (Z.of_nat i) + 1 / 2) * dv.
Proof.
  intros Hn dv. unfold dv.
  assert (H1 : inject_Z (Z.of_nat (n - 1)) == inject_Z (Z.of_nat n) - 1).
  { rewrite Nat2Z.inj_sub by lia. unfold Z.sub.
    rewrite inject_Z_plus, inject_Z_opp. reflexivity. }
  rewrite H1.
  pose proof (inject_nat_nonzero n ltac:(lia)) as Hnz.
  assert (Hnz1 : ~ inject_Z (Z.of_nat n) - 1 == 0).
  { rewrite <- H1. apply inject_nat_nonzero. lia. }
  field. split; assumption.
Qed.

(** X19: for a positive number of velocity points and profiles of at most
    [nx] cells, [_initialize_distribution_] returns an array of [nx] rows of
    [nv] entries and a velocity axis of [nv] cell centres
    [(i + 1/2) * vmax / nv]; the rows beyond the profiles are zero; the
    drift [v0], the exponent [m] and the three noise parameters have no
    effect on the result. *)
Theorem initialize_distribution_grid
    (L : libs) (nx nv : nat) (v0 m vth vmax : Q) (n_prof T_prof : list Q)
    (noise_val : Q) (noise_seed : Z) (noise_type : string) :
  nv <> 0%nat ->
  (length (zip n_prof T_prof) <= nx)%nat ->
  exists f vax,
    vfp1d._initialize_distribution_ L nx nv v0 m vth vmax n_prof T_prof
      noise_val noise_seed noise_type = Ok (f, vax)
    /\ length f = nx
    /\ Forall (fun r => length r = nv) f
    /\ length vax = nv
    /\ (forall i, (i < nv)%nat ->
          exists x, vax !! i = Some x
                    /\ x == (inject_Z (Z.of_nat i) + 1 / 2)
                            * (vmax / inject_Z (Z.of_nat nv)))
    /\ (forall i, (length (zip n_prof T_prof) <= i < nx)%nat ->
          f !! i = Some (replicate nv 0))
    /\ (forall v0' m' noise_val' noise_seed' noise_type',
          vfp1d._initialize_distribution_ L nx nv v0' m' vth vmax n_prof T_prof
            noise_val' noise_seed' noise_type' = Ok (f, vax)).
Proof.
  intros Hnv Hlen. unfold vfp1d._initialize_distribution_.
  rewrite decide_False by exact Hnv.
  rewrite decide_True by exact Hlen.
  eexists _, _. split; [reflexivity|].
  split; [|split; [|split; [|split; [|split]]]].
  - rewrite length_app, length_drop, !length_map, length_replicate. lia.
  - apply Forall_app. split.
    + apply Forall_fmap, Forall_forall. intros x _. simpl.
      rewrite length_map. apply length_linspace.
    + apply Forall_drop, Forall_replicate, length_replicate.
  - apply length_linspace.
  - intros i Hi. destruct (decide (nv = 1%nat)) as [-> | Hne].
    + assert (i = 0%nat) as -> by lia. eexists. split; [reflexivity|].
      simpl. field.
    + rewrite lookup_linspace by lia. eexists. split; [reflexivity|].
      apply cell_centre. lia.
  - intros i Hi. rewrite lookup_app_r by (rewrite length_map; lia).
    rewrite length_map, lookup_drop, lookup_replicate_2 by lia.
    reflexivity.
  - reflexivity.
Qed.

Lemma initialize_distribution_grid_witness :
  exists f vax,
    vfp1d._initialize_distribution_ example_libs 3 4 0 2 1 6 [1; 1] [1; 1]
      0 42 "Uniform" = Ok (f, vax)
    /\ length f = 3%nat
    /\ Forall (fun r => length r = 4%nat) f
    /\ length vax = 4%nat.
Proof.
  destruct (initialize_distribution_grid example_libs 3 4 0 2 1 6 [1; 1] [1; 1]
              0 42 "Uniform") as (f & vax & H1 & H2 & H3 & H4 & _).
  - discriminate.
  - simpl. lia.
  - exists f, vax. auto.
Defined.

(** ** The total distribution *)

(** Case analysis on the next computation that may raise. *)
Ltac step_result :=
  match goal with
  | |- context [bind_result ?m _] =>
      lazymatch m with
      | bind_result _ _ => fail
      | Ok _ => fail
      | Raise _ => fail
      | _ => destruct m; cbn [bind_result]; try reflexivity
      end
  end.

Lemma species_loop_filter L cfg grid items : forall st,
  vfp1d.species_loop L cfg grid items st
  = vfp1d.species_loop L cfg grid
      (List.filter (fun item => String.prefix "species-" item.1) items) st.
Proof.
  induction items as [|[name sp] items IH]; intros st; [reflexivity|].
  cbn [vfp1d.species_loop List.filter fst].
  destruct (String.prefix "species-" name) eqn:E; [|apply IH].
  cbn [vfp1d.species_loop]. rewrite E.
  repeat step_result. apply IH.
Qed.

(** X20: [_initialize_total_distribution_] reads the entries of the
    "density" section whose name starts with "species-" and no other: it
    returns (or raises) the same with every other entry removed. *)
Theorem total_distribution_reads_species_only
    (L : libs) (cfg : helpers_cfg) (cfg_grid : helpers_grid) :
  vfp1d._initialize_total_distribution_ L cfg cfg_grid
  = vfp1d._initialize_total_distribution_ L
      {| units := units cfg;
         derived := derived cfg;
         density :=
           List.filter (fun item => String.prefix "species-" item.1)
             (density cfg) |}
      cfg_grid.
Proof.
  unfold vfp1d._initialize_total_distribution_. cbn [density].
  rewrite species_loop_filter.
  assert (Hcfg : forall items st,
             vfp1d.species_loop L cfg cfg_grid items st
             = vfp1d.species_loop L
                 {| units := units cfg; derived := derived cfg;
                    density :=
                      List.filter
                        (fun item => String.prefix "species-" item.1)
                        (density cfg) |}
                 cfg_grid items st).
  { induction items as [|[name sp] items IH]; intros st; [reflexivity|].
    cbn [vfp1d.species_loop derived].
    destruct (String.prefix "species-" name); [|apply IH].
    repeat step_result. apply IH. }
  rewrite Hcfg. reflexivity.
Qed.


Lemma species_profile_uniform L grid p :
  basis p = "uniform" ->
  vfp1d.species_profile L grid p = Ok (jnp.Arr1 (replicate (hgrid_nx grid) 1)).
Proof.
  intros H. unfold vfp1d.species_profile. rewrite H.
  rewrite decide_True by reflexivity. reflexivity.
Qed.

Lemma inject_nat_succ k : inject_Z (Z.of_nat (S k)) == inject_Z (Z.of_nat k) + 1.
Proof.
  rewrite Nat2Z.inj_succ. unfold Z.succ. rewrite inject_Z_plus. reflexivity.
Qed.

Lemma species_loop_uniform L cfg grid d items : forall n f b k,
  derived cfg = Some d ->
  hgrid_nv grid <> 0%nat ->
  Forall (fun item => is_species item.1 -> uniform_species item) items ->
  length n = hgrid_nx grid ->
  Forall (fun x => x == inject_Z (Z.of_nat k) * (derived_ne d / derived_n0 d)) n ->
  length f = hgrid_nx grid ->
  Forall (fun r => length r = hgrid_nv grid) f ->
  exists n' f',
    vfp1d.species_loop L cfg grid items (jnp.Arr1 n, jnp.Arr2 f, b)
    = Ok (jnp.Arr1 n', jnp.Arr2 f',
          b || negb (Nat.eqb (species_count items) 0))
    /\ length n' = hgrid_nx grid
    /\ Forall (fun x => x == inject_Z (Z.of_nat (k + species_count items))
                            * (derived_ne d / derived_n0 d)) n'
    /\ length f' = hgrid_nx grid
    /\ Forall (fun r => length r = hgrid_nv grid) f'.
Proof.
  induction items as [|[name sp] items IH];
    intros n f b k Hd Hnv Huni Hn Hval Hf Hshape.
  - exists n, f. simpl. rewrite orb_false_r, Nat.add_0_r. auto.
  - apply Forall_cons in Huni. destruct Huni as [Hsp Huni].
    cbn [vfp1d.species_loop]. unfold species_count.
    cbn [List.filter fst].
    destruct (String.prefix "species-" name) eqn:E.
    + destruct (Hsp E) as [Hbn HbT]. simpl in Hbn, HbT.
      rewrite !species_profile_uniform by assumption.
      rewrite Hd. cbn [bind_result of_option].
      change (Some (jnp.Arr1 (replicate (hgrid_nx grid) 1))
              * jnp.lit (derived_ne d / derived_n0 d))%np
        with (Some (jnp.Arr1 (map (fun a => a * (derived_ne d / derived_n0 d))%Q
                                (replicate (hgrid_nx grid) 1%Q)))).
      cbn [bind_result of_option].
      change (Some (jnp.Arr1 n)
              + Some (jnp.Arr1 (map (fun a => a * (derived_ne d / derived_n0 d))%Q
                                  (replicate (hgrid_nx grid) 1%Q))))%np
        with (jnp.Arr1 <$> jnp.rowop Qplus n
                (map (fun a => a * (derived_ne d / derived_n0 d))
                   (replicate (hgrid_nx grid) 1))).
      rewrite rowop_same by (rewrite length_map, length_replicate; exact Hn).
      cbn [fmap option_fmap option_map bind_result of_option vfp1d.as_list].
      unfold vfp1d._initialize_distribution_.
      rewrite decide_False by exact Hnv.
      rewrite decide_True
        by (rewrite length_zip_with, length_map, !length_replicate; lia).
      cbn [bind_result fst snd].
      match goal with
      | |- context [jnp.add (Some (jnp.Arr2 f)) (Some (jnp.Arr2 ?t))] =>
          set (temp := t);
          change (jnp.add (Some (jnp.Arr2 f)) (Some (jnp.Arr2 temp)))
            with (jnp.Arr2 <$> jnp.matop Qplus f temp);
          assert (Htlen : length temp = hgrid_nx grid);
          [ unfold temp;
            rewrite length_app, length_drop, !length_map, length_zip_with,
              length_map, !length_replicate; lia
          | assert (Htshape : Forall (fun r => length r = hgrid_nv grid) temp);
            [ unfold temp; apply Forall_app; split;
              [ apply Forall_fmap, Forall_forall; intros x _; simpl;
                rewrite length_map; apply length_linspace
              | apply Forall_drop, Forall_replicate, length_replicate ]
            | ] ]
      end.
      clearbody temp.
      rewrite matop_same.
      2:{ apply Forall2_same_length_lookup_2; [congruence|].
          intros i r s Hr Hs.
          rewrite Forall_forall in Hshape, Htshape.
          rewrite (Hshape r), (Htshape s); [reflexivity|..];
            eapply list_elem_of_lookup_2; eassumption. }
      cbn [fmap option_fmap option_map bind_result of_option].
      destruct (IH (zip_with Qplus n
                      (map (fun a => a * (derived_ne d / derived_n0 d))
                         (replicate (hgrid_nx grid) 1)))
                  (zip_with (zip_with Qplus) f temp) true (S k))
        as (n' & f' & Hrun & Hn' & Hval' & Hf' & Hshape'); try assumption.
      * rewrite length_zip_with, length_map, length_replicate. lia.
      * rewrite fmap_replicate.
        rewrite zip_with_replicate_r_eq by exact Hn.
        apply Forall_fmap. eapply Forall_impl; [exact Hval|].
        intros x Hx. simpl. unfold flip. rewrite Hx, inject_nat_succ. ring.
      * rewrite length_zip_with. lia.
      * apply Forall_forall. intros r Hr.
        apply list_elem_of_lookup_1 in Hr. destruct Hr as [i Hr].
        apply lookup_zip_with_Some in Hr.
        destruct Hr as (x & y & -> & Hx & Hy).
        rewrite length_zip_with.
        rewrite Forall_forall in Hshape, Htshape.
        rewrite (Hshape x), (Htshape y); [lia|..];
          eapply list_elem_of_lookup_2; eassumption.
      * exists n', f'. rewrite Hrun. cbn [length].
        rewrite orb_true_r. simpl.
        split; [reflexivity|]. split; [exact Hn'|].
        split; [|auto].
        eapply Forall_impl; [exact Hval'|]. intros x Hx. simpl in Hx.
        rewrite Hx. fold (species_count items).
        replace (k + S (species_count items))%nat
          with (S k + species_count items)%nat by lia.
        reflexivity.
    + fold (species_count items). apply IH; assumption.
Qed.

Lemma species_loop_without_units L cfg grid items : forall st,
  derived cfg = None ->
  Forall (fun item => is_species item.1 -> uniform_species item) items ->
  species_count items <> 0%nat ->
  vfp1d.species_loop L cfg grid items st = Raise (KeyError "derived").
Proof.
  induction items as [|[name sp] items IH]; intros st Hd Huni Hcount.
  - exfalso. apply Hcount. reflexivity.
  - apply Forall_cons in Huni. destruct Huni as [Hsp Huni].
    unfold species_count in Hcount. cbn [List.filter fst] in Hcount.
    cbn [vfp1d.species_loop].
    destruct (String.prefix "species-" name) eqn:E.
    + destruct (Hsp E) as [Hbn HbT]. simpl in Hbn, HbT.
      rewrite !species_profile_uniform by assumption.
      rewrite Hd. reflexivity.
    + apply IH; assumption.
Qed.

(** X21: for a configuration with at least one species, all with uniform
    density and temperature profiles, and a positive number of velocity
    points: before [write_units] has stored the derived units the
    initialisation raises [KeyError] for "derived"; on the configuration
    that [write_units] returns it returns a distribution of [nx] rows of
    [nv] entries and a density profile of [nx] entries, each the number of
    species times [ne / n0]. *)
Theorem uniform_species_need_derived_units
    (L : libs) (cfg : helpers_cfg) (cfg_grid : helpers_grid) (td : string) :
  Forall (fun item => is_species item.1 -> uniform_species item) (density cfg) ->
  species_count (density cfg) <> 0%nat ->
  hgrid_nv cfg_grid <> 0%nat ->
  (derived cfg = None ->
   vfp1d._initialize_total_distribution_ L cfg cfg_grid
   = Raise (KeyError "derived"))
  /\ forall cfg',
       vfp1d.write_units L cfg td = Ok cfg' ->
       exists d f n,
         derived cfg' = Some d
         /\ vfp1d._initialize_total_distribution_ L cfg' cfg_grid
            = Ok (jnp.Arr2 f, jnp.Arr1 n)
         /\ length n = hgrid_nx cfg_grid
         /\ Forall (fun x => x == inject_Z (Z.of_nat (species_count (density cfg)))
                                 * (derived_ne d / derived_n0 d)) n
         /\ length f = hgrid_nx cfg_grid
         /\ Forall (fun r => length r = hgrid_nv cfg_grid) f.
Proof.
  intros Huni Hcount Hnv. split.
  - intros Hd. unfold vfp1d._initialize_total_distribution_.
    rewrite species_loop_without_units by assumption. reflexivity.
  - intros cfg' H.
    assert (Hcfg : exists d, derived cfg' = Some d /\ density cfg' = density cfg).
    { unfold vfp1d.write_units in H.
      repeat (apply bind_result_Ok_inv in H; destruct H as (? & _ & H)).
      inversion H; subst. eexists. split; reflexivity. }
    destruct Hcfg as (d & Hd & Hdens).
    destruct (species_loop_uniform L cfg' cfg_grid d (density cfg)
                (replicate (hgrid_nx cfg_grid) 0)
                (replicate (hgrid_nx cfg_grid) (replicate (hgrid_nv cfg_grid) 0))
                false 0%nat)
      as (n & f & Hrun & Hn & Hval & Hf & Hshape); try assumption.
    + apply length_replicate.
    + apply Forall_replicate. simpl. ring.
    + apply length_replicate.
    + apply Forall_replicate, length_replicate.
    + exists d, f, n. split; [exact Hd|].
      unfold vfp1d._initialize_total_distribution_.
      rewrite Hdens, Hrun. cbn [bind_result fst snd orb].
      destruct (Nat.eqb_spec (species_count (density cfg)) 0); [tauto|].
      simpl. auto.
Qed.

Lemma uniform_species_need_derived_units_witness :
  vfp1d._initialize_total_distribution_ example_libs
    (example_helpers_cfg (LogLambdaNum 7)
       [("quasineutrality", example_species "tanh" "sine");
        ("species-background", example_species "uniform" "uniform")])
    example_grid
  = Raise (KeyError "derived").
Proof.
  refine (proj1 (uniform_species_need_derived_units example_libs
                   (example_helpers_cfg (LogLambdaNum 7)
                      [("quasineutrality", example_species "tanh" "sine");
                       ("species-background",
                        example_species "uniform" "uniform")])
                   example_grid "/tmp" _ _ _) eq_refl).
  - repeat constructor; unfold is_species; simpl; discriminate.
  - discriminate.
  - discriminate.
Defined.

(** * Properties of the grids of [vlasov1d2v] *)

(** ** The time grid *)


Lemma py_div_Ok_inv a b c :
  vlasov1d2v.py_div a b = Ok c -> ~ b == 0 /\ c = a / b.
Proof.
  unfold vlasov1d2v.py_div. destruct (Qeq_bool b 0) eqn:E; [discriminate|].
  intros H. inversion H. split; [|reflexivity].
  apply Qeq_bool_neq, E.
Qed.






(** ** The space and velocity grids *)

Lemma inject_nat_pred n :
  (1 <= n)%nat -> inject_Z (Z.of_nat (n - 1)) == inject_Z (Z.of_nat n) - 1.
Proof.
  intros Hn. rewrite Nat2Z.inj_sub by lia. unfold Z.sub.
  rewrite inject_Z_plus, inject_Z_opp. reflexivity.
Qed.


(** What [get_derived_quantities] stores, read off a successful run. *)
Lemma get_derived_quantities_Ok_inv sqrt_T cfg g :
  vlasov1d2v.get_derived_quantities sqrt_T cfg = Ok g ->
  let y := vlasov1d2v.cfg_grid cfg in
  vlasov1d2v.xmin g = vlasov1d2v.yaml_xmin y
  /\ vlasov1d2v.xmax g = vlasov1d2v.yaml_xmax y
  /\ vlasov1d2v.nx g = vlasov1d2v.yaml_nx y
  /\ vlasov1d2v.nv g = vlasov1d2v.yaml_nv y
  /\ vlasov1d2v.nx g <> 0%nat
  /\ vlasov1d2v.nv g <> 0%nat
  /\ vlasov1d2v.dx g = vlasov1d2v.xmax g / inject_Z (Z.of_nat (vlasov1d2v.nx g))
  /\ vlasov1d2v.dv g
     = 2 * vlasov1d2v.vmax g / inject_Z (Z.of_nat (vlasov1d2v.nv g))
  /\ exists s, sqrt_T (vlasov1d2v.cfg_Te cfg) = Some s
               /\ vlasov1d2v.vmax g = vlasov1d2v.yaml_vmax y * s.
Proof.
  intros H y. unfold vlasov1d2v.get_derived_quantities in H. fold y in H.
  apply bind_result_Ok_inv in H. destruct H as (dx & Hdx & H).
  apply bind_result_Ok_inv in H. destruct H as (s & Hs & H).
  apply bind_result_Ok_inv in H. destruct H as (dv & Hdv & H).
  apply bind_result_Ok_inv in H. destruct H as (dt & _ & H).
  apply bind_result_Ok_inv in H. destruct H as (steps & _ & H).
  apply py_div_Ok_inv in Hdx, Hdv.
  destruct Hdx as [Hnx ->]. destruct Hdv as [Hnv ->].
  apply of_option_Ok_inv in Hs.
  inversion H; subst; clear H. simpl.
  repeat (split; [reflexivity|]).
  split. { intros Hz. apply Hnx. rewrite Hz. reflexivity. }
  split. { intros Hz. apply Hnv. rewrite Hz. reflexivity. }
  split; [reflexivity|]. split; [reflexivity|]. eauto.
Qed.

Lemma get_solver_quantities_Ok_inv pi g s :
  vlasov1d2v.get_solver_quantities pi g = Ok s ->
  let x :=
    vfp1d.linspace (vlasov1d2v.xmin g + vlasov1d2v.dx g / 2)
      (vlasov1d2v.xmax g - vlasov1d2v.dx g / 2) (vlasov1d2v.nx g) in
  vlasov1d2v.grid s = g
  /\ vlasov1d2v.x s = x
  /\ vlasov1d2v.v s
     = vfp1d.linspace (- vlasov1d2v.vmax g + vlasov1d2v.dv g / 2)
         (vlasov1d2v.vmax g - vlasov1d2v.dv g / 2) (vlasov1d2v.nv g)
  /\ vlasov1d2v.kx s
     = map (fun k => k * 2 * pi)
         (vlasov1d2v.fftfreq (vlasov1d2v.nx g) (vlasov1d2v.dx g))
  /\ vlasov1d2v.one_over_kx s = vlasov1d2v.one_over (vlasov1d2v.kx s)
  /\ exists x_first x_last,
       head x = Some x_first /\ last x = Some x_last
       /\ vlasov1d2v.x_a s
          = [x_first - vlasov1d2v.dx g] ++ x ++ [x_last + vlasov1d2v.dx g].
Proof.
  intros H x. unfold vlasov1d2v.get_solver_quantities in H. fold x in H.
  apply bind_result_Ok_inv in H. destruct H as (t & _ & H).
  apply bind_result_Ok_inv in H. destruct H as (x_first & Hf & H).
  apply bind_result_Ok_inv in H. destruct H as (x_last & Hl & H).
  apply of_option_Ok_inv in Hf, Hl.
  inversion H; subst; clear H. simpl.
  repeat (split; [reflexivity|]). eauto.
Qed.


Lemma linspace_spacing a b n :
  (2 <= n)%nat ->
  uniformly_spaced ((b - a) / inject_Z (Z.of_nat (n - 1))) (vfp1d.linspace a b n).
Proof.
  intros Hn i p q Hp Hq.
  assert (Hi : (S i < n)%nat).
  { apply lookup_lt_Some in Hq. rewrite length_linspace in Hq. exact Hq. }
  rewrite lookup_linspace in Hp, Hq by lia.
  injection Hp as <-. injection Hq as <-.
  rewrite inject_nat_succ.
  pose proof (inject_nat_nonzero (n - 1) ltac:(lia)) as Hnz.
  field. exact Hnz.
Qed.

Lemma uniformly_spaced_short d l : (length l <= 1)%nat -> uniformly_spaced d l.
Proof.
  intros Hl i a b Ha Hb. apply lookup_lt_Some in Hb. lia.
Qed.

Lemma uniformly_spaced_proper d d' l :
  d == d' -> uniformly_spaced d l -> uniformly_spaced d' l.
Proof. intros Hd H i a b Ha Hb. rewrite <- Hd. eapply H; eassumption. Qed.

(** Ghost cells one step before the first and after the last entry. *)
Lemma uniformly_spaced_ghost d l x_first x_last :
  head l = Some x_first -> last l = Some x_last ->
  uniformly_spaced d l ->
  uniformly_spaced d ([x_first - d] ++ l ++ [x_last + d]).
Proof.
  intros Hf Hl Hsp i a b Ha Hb.
  destruct i as [|i].
  - simpl in Ha, Hb. injection Ha as <-.
    destruct l as [|x0 l]; [discriminate|].
    simpl in Hf, Hb. injection Hf as <-. injection Hb as <-. ring.
  - simpl in Ha, Hb.
    destruct (decide (S i < length l)%nat) as [Hlt | Hge].
    + rewrite lookup_app_l in Ha, Hb by lia. eapply Hsp; eassumption.
    + assert (Hi : (i < length l)%nat).
      { apply lookup_lt_Some in Ha. rewrite length_app in Ha. simpl in Ha.
        apply lookup_lt_Some in Hb. rewrite length_app in Hb. simpl in Hb. lia. }
      rewrite lookup_app_l in Ha by exact Hi.
      rewrite lookup_app_r in Hb by lia.
      replace (S i - length l)%nat with 0%nat in Hb by lia.
      simpl in Hb. injection Hb as <-.
      rewrite last_lookup in Hl.
      replace (pred (length l)) with i in Hl by lia.
      rewrite Hl in Ha. injection Ha as <-. ring.
Qed.

(** X23: the cell centres [x] of a grid set up by
    [get_derived_quantities] and [get_solver_quantities] are [nx] points
    spaced by [dx - xmin / (nx - 1)], where [dx = xmax / nx]; with the ghost
    cells, [x_a] has [nx + 2] points, spaced by [dx] when [xmin] is zero;
    when [xmin] is not zero (and there are two cells or more) the spacing of
    [x] is not [dx]. *)
Theorem space_grid_spacing
    (pi : Q) (sqrt_Te_over_mc2 : string -> option Q) (cfg : vlasov1d2v.cfg_t)
    (g : vlasov1d2v.grid_t) (s : vlasov1d2v.solver_grid) :
  vlasov1d2v.get_derived_quantities sqrt_Te_over_mc2 cfg = Ok g ->
  vlasov1d2v.get_solver_quantities pi g = Ok s ->
  let n := vlasov1d2v.nx g in
  length (vlasov1d2v.x s) = n
  /\ length (vlasov1d2v.x_a s) = (n + 2)%nat
  /\ uniformly_spaced
       (vlasov1d2v.dx g - vlasov1d2v.xmin g / inject_Z (Z.of_nat (n - 1)))
       (vlasov1d2v.x s)
  /\ (vlasov1d2v.xmin g == 0 ->
      uniformly_spaced (vlasov1d2v.dx g) (vlasov1d2v.x_a s))
  /\ ((2 <= n)%nat -> ~ vlasov1d2v.xmin g == 0 ->
      ~ uniformly_spaced (vlasov1d2v.dx g) (vlasov1d2v.x s)).
Proof.
  intros Hg Hs n.
  apply get_derived_quantities_Ok_inv in Hg.
  destruct Hg as (_ & _ & _ & _ & Hnx & _ & Hdx & _).
  apply get_solver_quantities_Ok_inv in Hs.
  destruct Hs as (_ & Hx & _ & _ & _ & x_first & x_last & Hf & Hl & Hxa).
  fold n in Hnx, Hdx, Hx, Hf, Hl, Hxa.
  assert (Hlen : length (vlasov1d2v.x s) = n)
    by (rewrite Hx; apply length_linspace).
  pose proof (inject_nat_nonzero n Hnx) as Hnz.
  assert (Hstep : (2 <= n)%nat ->
            (vlasov1d2v.xmax g - vlasov1d2v.dx g / 2
             - (vlasov1d2v.xmin g + vlasov1d2v.dx g / 2))
            / inject_Z (Z.of_nat (n - 1))
            == vlasov1d2v.dx g
               - vlasov1d2v.xmin g / inject_Z (Z.of_nat (n - 1))).
  { intros Hn. rewrite Hdx.
    pose proof (inject_nat_pred n ltac:(lia)) as Hp.
    assert (Hnz1 : ~ inject_Z (Z.of_nat n) - 1 == 0).
    { rewrite <- Hp. apply inject_nat_nonzero. lia. }
    rewrite Hp. field. split; assumption. }
  assert (Hsp : uniformly_spaced
                  (vlasov1d2v.dx g
                   - vlasov1d2v.xmin g / inject_Z (Z.of_nat (n - 1)))
                  (vlasov1d2v.x s)).
  { destruct (le_lt_dec 2 n) as [Hn | Hn].
    - eapply uniformly_spaced_proper; [apply Hstep, Hn|].
      rewrite Hx. apply linspace_spacing, Hn.
    - apply uniformly_spaced_short. lia. }
  split; [exact Hlen|].
  split. { rewrite Hxa, !length_app, <- Hx, Hlen. simpl. lia. }
  split; [exact Hsp|].
  split.
  - intros Hz. rewrite Hxa. rewrite <- Hx in *.
    apply uniformly_spaced_ghost; try assumption.
    eapply uniformly_spaced_proper; [|exact Hsp].
    rewrite Hz. unfold Qdiv. ring.
  - intros Hn Hz Huni.
    destruct (vlasov1d2v.x s) as [|x0 [|x1 xs]] eqn:Ex;
      simpl in Hlen; try lia.
    pose proof (Hsp 0%nat x0 x1 eq_refl eq_refl) as H1.
    pose proof (Huni 0%nat x0 x1 eq_refl eq_refl) as H2.
    rewrite H2 in H1.
    assert (Hq : vlasov1d2v.xmin g / inject_Z (Z.of_nat (n - 1)) == 0) by lra.
    apply Hz.
    pose proof (inject_nat_nonzero (n - 1) ltac:(lia)) as Hnz1.
    setoid_replace (vlasov1d2v.xmin g)
      with (vlasov1d2v.xmin g / inject_Z (Z.of_nat (n - 1))
            * inject_Z (Z.of_nat (n - 1)))
      using relation Qeq by (field; exact Hnz1).
    rewrite Hq. ring.
Qed.

Lemma space_grid_spacing_witness :
  exists g s,
    vlasov1d2v.get_derived_quantities example_sqrt_Te example_cfg2v = Ok g
    /\ vlasov1d2v.get_solver_quantities 3 g = Ok s
    /\ length (vlasov1d2v.x s) = 4%nat
    /\ length (vlasov1d2v.x_a s) = 6%nat.
Proof.
  eexists _, _. split; [reflexivity|]. split; [reflexivity|].
  destruct (space_grid_spacing 3 example_sqrt_Te example_cfg2v _ _
              eq_refl eq_refl) as (H1 & H2 & _).
  auto.
Defined.


(** X24: the velocity axis has [nv] points, the centres
    [-vmax + (i + 1/2) dv] of cells of width [dv = 2 vmax / nv]; it is
    spaced by [dv] and symmetric about zero. *)
Theorem velocity_grid_is_centred
    (pi : Q) (sqrt_Te_over_mc2 : string -> option Q) (cfg : vlasov1d2v.cfg_t)
    (g : vlasov1d2v.grid_t) (s : vlasov1d2v.solver_grid) :
  vlasov1d2v.get_derived_quantities sqrt_Te_over_mc2 cfg = Ok g ->
  vlasov1d2v.get_solver_quantities pi g = Ok s ->
  let n := vlasov1d2v.nv g in
  let v := vlasov1d2v.v s in
  length v = n
  /\ (forall i, (i < n)%nat ->
        exists a, v !! i = Some a
                  /\ a == - vlasov1d2v.vmax g
                          + (inject_Z (Z.of_nat i) + 1 / 2) * vlasov1d2v.dv g)
  /\ (forall i a b, (i < n)%nat ->
        v !! i = Some a -> v !! (n - 1 - i)%nat = Some b -> a + b == 0)
  /\ uniformly_spaced (vlasov1d2v.dv g) v.
Proof.
  intros Hg Hs n v.
  apply get_derived_quantities_Ok_inv in Hg.
  destruct Hg as (_ & _ & _ & _ & _ & Hnv & _ & Hdv & _).
  apply get_solver_quantities_Ok_inv in Hs.
  destruct Hs as (_ & _ & Hv & _).
  fold n in Hnv, Hdv, Hv. fold v in Hv.
  pose proof (inject_nat_nonzero n Hnv) as Hnz.
  assert (Hlen : length v = n) by (rewrite Hv; apply length_linspace).
  assert (Hcentre : forall i, (i < n)%nat ->
            exists a, v !! i = Some a
                      /\ a == - vlasov1d2v.vmax g
                              + (inject_Z (Z.of_nat i) + 1 / 2) * vlasov1d2v.dv g).
  { intros i Hi. destruct (decide (n = 1%nat)) as [Hone | Hne].
    - assert (i = 0%nat) as -> by lia. rewrite Hv, Hone.
      eexists. split; [reflexivity|]. simpl. field.
    - rewrite Hv, lookup_linspace by lia.
      eexists. split; [reflexivity|].
      rewrite Hdv.
      pose proof (inject_nat_pred n ltac:(lia)) as Hp.
      assert (Hnz1 : ~ inject_Z (Z.of_nat n) - 1 == 0).
      { rewrite <- Hp. apply inject_nat_nonzero. lia. }
      rewrite Hp. field. split; assumption. }
  split; [exact Hlen|]. split; [exact Hcentre|]. split.
  - intros i a b Hi Ha Hb.
    destruct (Hcentre i Hi) as (a' & Ha' & Ea).
    destruct (Hcentre (n - 1 - i)%nat ltac:(lia)) as (b' & Hb' & Eb).
    rewrite Ha in Ha'. injection Ha' as <-.
    rewrite Hb in Hb'. injection Hb' as <-.
    rewrite Ea, Eb, Hdv.
    replace (Z.of_nat (n - 1 - i)) with (Z.of_nat n - 1 - Z.of_nat i)%Z by lia.
    unfold Z.sub. rewrite !inject_Z_plus, !inject_Z_opp.
    change (inject_Z 1) with 1. field. exact Hnz.
  - intros i a b Ha Hb.
    assert (Hi : (S i < n)%nat).
    { apply lookup_lt_Some in Hb. lia. }
    destruct (Hcentre i ltac:(lia)) as (a' & Ha' & Ea).
    destruct (Hcentre (S i) Hi) as (b' & Hb' & Eb).
    rewrite Ha in Ha'. injection Ha' as <-.
    rewrite Hb in Hb'. injection Hb' as <-.
    rewrite Ea, Eb, inject_nat_succ. ring.
Qed.

Lemma velocity_grid_is_centred_witness :
  exists g s,
    vlasov1d2v.get_derived_quantities example_sqrt_Te example_cfg2v = Ok g
    /\ vlasov1d2v.get_solver_quantities 3 g = Ok s
    /\ length (vlasov1d2v.v s) = 4%nat
    /\ uniformly_spaced (vlasov1d2v.dv g) (vlasov1d2v.v s).
Proof.
  eexists _, _. split; [reflexivity|]. split; [reflexivity|].
  destruct (velocity_grid_is_centred 3 example_sqrt_Te example_cfg2v _ _
              eq_refl eq_refl) as (H1 & _ & _ & H4).
  auto.
Defined.


(** ** Wavenumbers and their reciprocals *)

Lemma length_fftfreq n d : length (vlasov1d2v.fftfreq n d) = n.
Proof.
  unfold vlasov1d2v.fftfreq.
  rewrite length_map, length_app, !length_map, !length_seq.
  pose proof (Nat.div_mod_eq n 2). pose proof (Nat.div_mod_eq (n + 1) 2).
  pose proof (Nat.mod_upper_bound n 2). pose proof (Nat.mod_upper_bound (n + 1) 2).
  lia.
Qed.

Lemma lookup_fftfreq n d i :
  (i < n)%nat ->
  vlasov1d2v.fftfreq n d !! i
  = Some (inject_Z (fft_index n i) / (d * inject_Z (Z.of_nat n))).
Proof.
  intros Hi. unfold vlasov1d2v.fftfreq, fft_index.
  rewrite list_lookup_fmap.
  assert (Hsplit : ((n + 1) / 2 + n / 2 = n)%nat).
  { pose proof (length_fftfreq n d) as H. unfold vlasov1d2v.fftfreq in H.
    rewrite length_map, length_app, !length_map, !length_seq in H. exact H. }
  case_decide as Hlow.
  - rewrite lookup_app_l by (rewrite length_map, length_seq; exact Hlow).
    rewrite list_lookup_fmap, lookup_seq_lt by exact Hlow. reflexivity.
  - rewrite lookup_app_r by (rewrite length_map, length_seq; lia).
    rewrite length_map, length_seq.
    rewrite list_lookup_fmap, lookup_seq_lt by lia.
    cbn [fmap option_fmap option_map Nat.add].
    replace (Z.of_nat (i - (n + 1) / 2) - Z.of_nat (n / 2))%Z
      with (Z.of_nat i - Z.of_nat n)%Z by lia.
    reflexivity.
Qed.

Lemma fft_index_nonzero n i : (1 <= i < n)%nat -> fft_index n i <> 0%Z.
Proof. intros Hi. unfold fft_index. case_decide; lia. Qed.

Lemma inject_Z_nonzero z : z <> 0%Z -> ~ inject_Z z == 0.
Proof. intros Hz H. unfold Qeq in H. simpl in H. lia. Qed.

Lemma lookup_one_over_succ k i :
  vlasov1d2v.one_over k !! S i = (fun a => 1 / a) <$> k !! S i.
Proof.
  destruct k as [|k0 k]; [reflexivity|]. simpl.
  rewrite list_lookup_fmap. reflexivity.
Qed.

Lemma length_one_over k : length (vlasov1d2v.one_over k) = length k.
Proof. destruct k; simpl; [reflexivity|]. rewrite length_map. reflexivity. Qed.

(** X25: for a box of non-zero length [xmax], the wavenumber of index
    [i] is the frequency index of the discrete Fourier transform (i below
    half of [nx], [i - nx] from there on) times [2 pi / xmax]; the
    reciprocal array holds 0 at index 0 and the reciprocal of the wavenumber,
    which does not vanish, at every other index. *)
Theorem reciprocal_wavenumbers
    (pi : Q) (sqrt_Te_over_mc2 : string -> option Q) (cfg : vlasov1d2v.cfg_t)
    (g : vlasov1d2v.grid_t) (s : vlasov1d2v.solver_grid) :
  vlasov1d2v.get_derived_quantities sqrt_Te_over_mc2 cfg = Ok g ->
  vlasov1d2v.get_solver_quantities pi g = Ok s ->
  ~ vlasov1d2v.xmax g == 0 ->
  ~ pi == 0 ->
  let n := vlasov1d2v.nx g in
  length (vlasov1d2v.kx s) = n
  /\ length (vlasov1d2v.one_over_kx s) = n
  /\ (forall i, (i < n)%nat ->
        exists k, vlasov1d2v.kx s !! i = Some k
                  /\ k == inject_Z (fft_index n i) * (2 * pi / vlasov1d2v.xmax g))
  /\ vlasov1d2v.one_over_kx s !! 0%nat = Some 0
  /\ (forall i, (1 <= i < n)%nat ->
        exists k r, vlasov1d2v.kx s !! i = Some k
                    /\ vlasov1d2v.one_over_kx s !! i = Some r
                    /\ r * k == 1).
Proof.
  intros Hg Hs Hxmax Hpi n.
  apply get_derived_quantities_Ok_inv in Hg.
  destruct Hg as (_ & _ & _ & _ & Hnx & _ & Hdx & _).
  apply get_solver_quantities_Ok_inv in Hs.
  destruct Hs as (_ & _ & _ & Hkx & Hone & _).
  fold n in Hnx, Hdx, Hkx.
  pose proof (inject_nat_nonzero n Hnx) as Hnz.
  assert (Hlen : length (vlasov1d2v.kx s) = n)
    by (rewrite Hkx, length_map; apply length_fftfreq).
  assert (Hk : forall i, (i < n)%nat ->
            exists k, vlasov1d2v.kx s !! i = Some k
                      /\ k == inject_Z (fft_index n i)
                              * (2 * pi / vlasov1d2v.xmax g)).
  { intros i Hi. rewrite Hkx, list_lookup_fmap, lookup_fftfreq by exact Hi.
    eexists. split; [reflexivity|]. rewrite Hdx. field. tauto. }
  split; [exact Hlen|].
  split; [rewrite Hone, length_one_over; exact Hlen|].
  split; [exact Hk|].
  split.
  { rewrite Hone. destruct (vlasov1d2v.kx s) as [|k0 ks] eqn:E;
      [simpl in Hlen; lia | reflexivity]. }
  intros i Hi. destruct (Hk i ltac:(lia)) as (k & Hki & Ek).
  destruct i as [|i]; [lia|].
  exists k, (1 / k). split; [exact Hki|].
  split; [rewrite Hone, lookup_one_over_succ, Hki; reflexivity|].
  assert (Hknz : ~ k == 0).
  { rewrite Ek. intros Hz. apply Qmult_integral in Hz.
    destruct Hz as [Hz | Hz].
    - revert Hz. apply inject_Z_nonzero, fft_index_nonzero. lia.
    - unfold Qdiv in Hz. apply Qmult_integral in Hz.
      destruct Hz as [Hz | Hz].
      + apply Qmult_integral in Hz. destruct Hz as [Hz | Hz];
          [discriminate | tauto].
      + apply Hxmax.
        setoid_replace (vlasov1d2v.xmax g) with (/ / vlasov1d2v.xmax g)
          using relation Qeq by (symmetry; apply Qinv_involutive).
        rewrite Hz. reflexivity. }
  field. exact Hknz.
Qed.

Lemma reciprocal_wavenumbers_witness :
  exists g s,
    vlasov1d2v.get_derived_quantities example_sqrt_Te example_cfg2v = Ok g
    /\ vlasov1d2v.get_solver_quantities 3 g = Ok s
    /\ length (vlasov1d2v.kx s) = 4%nat
    /\ vlasov1d2v.one_over_kx s !! 0%nat = Some 0.
Proof.
  eexists _, _. split; [reflexivity|]. split; [reflexivity|].
  destruct (reciprocal_wavenumbers 3 example_sqrt_Te example_cfg2v _ _
              eq_refl eq_refl) as (H1 & _ & _ & H4 & _).
  - discriminate.
  - discriminate.
  - auto.
Defined.


(** ** The initial distribution in two velocity dimensions *)

Lemma py_div_nonzero a b :
  ~ b == 0 -> vlasov1d2v.py_div a b = Ok (a / b).
Proof.
  intros Hb. unfold vlasov1d2v.py_div.
  destruct (Qeq_bool b 0) eqn:E; [|reflexivity].
  apply Qeq_bool_iff in E. tauto.
Qed.

Lemma Qsquare_opp (a b : Q) : a + b == 0 -> a ^ 2 == b ^ 2.
Proof.
  intros H. change (a ^ 2) with (a * a). change (b ^ 2) with (b * b).
  setoid_replace a with (- b) using relation Qeq by lra. ring.
Qed.






(** The centres of [n] cells of width [2 vmax / n] on [-vmax, vmax]. *)
Lemma centred_axis vmax n i :
  n <> 0%nat -> (i < n)%nat ->
  let dv := 2 * vmax / inject_Z (Z.of_nat n) in
  exists a,
    vfp1d.linspace (- vmax + dv / 2) (vmax - dv / 2) n !! i = Some a
    /\ a == - vmax + (inject_Z (Z.of_nat i) + 1 / 2) * dv.
Proof.
  intros Hn Hi dv. unfold dv.
  pose proof (inject_nat_nonzero n Hn) as Hnz.
  destruct (decide (n = 1%nat)) as [-> | Hne].
  - assert (i = 0%nat) as -> by lia.
    eexists. split; [reflexivity|]. simpl. field.
  - rewrite lookup_linspace by lia.
    eexists. split; [reflexivity|].
    pose proof (inject_nat_pred n ltac:(lia)) as Hp.
    assert (Hnz1 : ~ inject_Z (Z.of_nat n) - 1 == 0).
    { rewrite <- Hp. apply inject_nat_nonzero. lia. }
    rewrite Hp. field. split; assumption.
Qed.

Lemma centred_axis_reflection vmax n i a b :
  n <> 0%nat -> (i < n)%nat ->
  let dv := 2 * vmax / inject_Z (Z.of_nat n) in
  let vax := vfp1d.linspace (- vmax + dv / 2) (vmax - dv / 2) n in
  vax !! i = Some a -> vax !! (n - 1 - i)%nat = Some b -> a + b == 0.
Proof.
  intros Hn Hi dv vax Ha Hb.
  destruct (centred_axis vmax n i Hn Hi) as (a' & Ha' & Ea).
  destruct (centred_axis vmax n (n - 1 - i) Hn ltac:(lia)) as (b' & Hb' & Eb).
  fold dv in Ha', Hb', Ea, Eb. fold vax in Ha', Hb'.
  rewrite Ha in Ha'. injection Ha' as <-.
  rewrite Hb in Hb'. injection Hb' as <-.
  rewrite Ea, Eb. unfold dv.
  replace (Z.of_nat (n - 1 - i)) with (Z.of_nat n - 1 - Z.of_nat i)%Z by lia.
  unfold Z.sub. rewrite !inject_Z_plus, !inject_Z_opp.
  change (inject_Z 1) with 1. field. apply inject_nat_nonzero, Hn.
Qed.

Lemma entry3_inv {A} (g : A -> Q -> Q -> Q) (items : list A) (vax : list Q)
    (nx nv : nat) i j k a :
  entry3 (map (fun it => map (fun p => map (fun q => g it p q) vax) vax) items
          ++ drop (length
                     (map (fun it => map (fun p => map (fun q => g it p q) vax) vax)
                        items))
               (replicate nx (replicate nv (replicate nv 0)))) i j k = Some a ->
  (exists item vj vk,
      items !! i = Some item /\ vax !! j = Some vj /\ vax !! k = Some vk
      /\ a = g item vj vk)
  \/ ((length items <= i)%nat /\ a = 0).
Proof.
  unfold entry3. rewrite length_map.
  destruct (decide (i < length items)%nat) as [Hi | Hi].
  - rewrite lookup_app_l by (rewrite length_map; exact Hi).
    rewrite list_lookup_fmap.
    destruct (items !! i) as [item|] eqn:Eitem; [|discriminate].
    simpl. rewrite list_lookup_fmap.
    destruct (vax !! j) as [vj|] eqn:Ej; [|discriminate].
    simpl. rewrite list_lookup_fmap.
    destruct (vax !! k) as [vk|] eqn:Ek; [|discriminate].
    simpl. intros H. injection H as <-. left. eauto 10.
  - rewrite lookup_app_r by (rewrite length_map; lia).
    rewrite length_map, lookup_drop.
    intros H. right. split; [lia|].
    destruct (replicate nx (replicate nv (replicate nv 0))
                !! (length items + (i - length items))%nat) as [r|] eqn:Er;
      [|discriminate].
    apply lookup_replicate in Er. destruct Er as [-> _].
    simpl in H.
    destruct (replicate nv (replicate nv 0) !! j) as [c|] eqn:Ec;
      [|discriminate].
    apply lookup_replicate in Ec. destruct Ec as [-> _].
    simpl in H. apply lookup_replicate in H. tauto.
Qed.

(** X26: for a positive number of velocity points, profiles of at most
    [nx] cells and an exponential that respects equality, the initial
    distribution is an array of [nx] planes of [nv] by [nv] entries on the
    centred velocity axis [-vmax + (i + 1/2) * 2 vmax / nv]; every plane is
    unchanged by exchanging its two velocity indices and by reflecting a
    velocity index about the middle of the axis. *)
Theorem maxwellian_2v_is_isotropic
    (pi : Q) (exp : Q -> Q) (nx nv : nat) (v0 m vth vmax : Q)
    (n_prof T_prof : list Q) (noise_val : Q) (noise_seed : Z)
    (noise_type : string) :
  (forall a b, a == b -> exp a == exp b) ->
  nv <> 0%nat ->
  (length (zip n_prof T_prof) <= nx)%nat ->
  exists f vax,
    vlasov1d2v._initialize_distribution_ pi exp nx nv v0 m vth vmax
      n_prof T_prof noise_val noise_seed noise_type = Ok (f, vax)
    /\ length f = nx
    /\ Forall (fun plane => length plane = nv
                            /\ Forall (fun r => length r = nv) plane) f
    /\ length vax = nv
    /\ (forall i a, vax !! i = Some a ->
          a == - vmax + (inject_Z (Z.of_nat i) + 1 / 2)
                        * (2 * vmax / inject_Z (Z.of_nat nv)))
    /\ (forall i j k a b,
          entry3 f i j k = Some a -> entry3 f i k j = Some b -> a == b)
    /\ (forall i j k a b, (j < nv)%nat ->
          entry3 f i j k = Some a -> entry3 f i (nv - 1 - j)%nat k = Some b ->
          a == b).
Proof.
  intros Hexp Hnv Hlen.
  unfold vlasov1d2v._initialize_distribution_.
  rewrite py_div_nonzero by (apply inject_nat_nonzero, Hnv).
  cbn [bind_result]. rewrite decide_True by exact Hlen.
  set (dv := 2 * vmax / inject_Z (Z.of_nat nv)).
  set (vax := vfp1d.linspace (- vmax + dv / 2) (vmax - dv / 2) nv).
  eexists _, _. split; [reflexivity|].
  split; [|split; [|split; [|split; [|split]]]].
  - rewrite length_app, length_drop, !length_map, length_replicate. lia.
  - apply Forall_app. split.
    + apply Forall_fmap, Forall_forall. intros item _. simpl.
      split; [rewrite length_map; apply length_linspace|].
      apply Forall_fmap, Forall_forall. intros vj _. simpl.
      rewrite length_map. apply length_linspace.
    + apply Forall_drop, Forall_replicate.
      split; [apply length_replicate|].
      apply Forall_replicate, length_replicate.
  - apply length_linspace.
  - intros i a Ha.
    assert (Hi : (i < nv)%nat).
    { apply lookup_lt_Some in Ha. unfold vax in Ha.
      rewrite length_linspace in Ha. exact Ha. }
    destruct (centred_axis vmax nv i Hnv Hi) as (a' & Ha' & Ea).
    fold dv in Ha', Ea. fold vax in Ha'.
    rewrite Ha in Ha'. injection Ha' as <-. exact Ea.
  - intros i j k a b Ha Hb.
    apply entry3_inv in Ha, Hb.
    destruct Ha as [(item & vj & vk & Hi & Hj & Hk & ->) | [Hi ->]];
      destruct Hb as [(item' & vk' & vj' & Hi' & Hk' & Hj' & ->) | [Hi' ->]];
      try reflexivity;
      try (apply lookup_lt_Some in Hi; lia);
      try (apply lookup_lt_Some in Hi'; lia).
    rewrite Hi in Hi'. injection Hi' as <-.
    rewrite Hj in Hj'. injection Hj' as <-.
    rewrite Hk in Hk'. injection Hk' as <-.
    rewrite (Hexp (- (vj ^ 2 + vk ^ 2) / (2 * item.2 * vth ^ 2))
               (- (vk ^ 2 + vj ^ 2) / (2 * item.2 * vth ^ 2))).
    + reflexivity.
    + unfold Qdiv. ring.
  - intros i j k a b Hj Ha Hb.
    apply entry3_inv in Ha, Hb.
    destruct Ha as [(item & vj & vk & Hi & Hvj & Hvk & ->) | [Hi ->]];
      destruct Hb as [(item' & vj' & vk' & Hi' & Hvj' & Hvk' & ->) | [Hi' ->]];
      try reflexivity;
      try (apply lookup_lt_Some in Hi; lia);
      try (apply lookup_lt_Some in Hi'; lia).
    rewrite Hi in Hi'. injection Hi' as <-.
    rewrite Hvk in Hvk'. injection Hvk' as <-.
    pose proof (centred_axis_reflection vmax nv j vj vj' Hnv Hj Hvj Hvj') as Hr.
    apply Qsquare_opp in Hr.
    rewrite (Hexp (- (vj ^ 2 + vk ^ 2) / (2 * item.2 * vth ^ 2))
               (- (vj' ^ 2 + vk ^ 2) / (2 * item.2 * vth ^ 2))).
    + reflexivity.
    + rewrite Hr. reflexivity.
Qed.

Lemma rational_exp_proper a b : a == b -> rational_exp a == rational_exp b.
Proof.
  intros H. unfold rational_exp.
  destruct (Qle_bool a 0) eqn:Ea; destruct (Qle_bool b 0) eqn:Eb.
  - rewrite H. reflexivity.
  - apply Qle_bool_iff in Ea. rewrite H in Ea. apply Qle_bool_iff in Ea.
    congruence.
  - apply Qle_bool_iff in Eb. rewrite <- H in Eb. apply Qle_bool_iff in Eb.
    congruence.
  - rewrite H. reflexivity.
Qed.

Lemma maxwellian_2v_is_isotropic_witness :
  exists f vax,
    vlasov1d2v._initialize_distribution_ 3 rational_exp 2 3 0 2 1 6
      [1; 1] [1; 1] 0 42 "Uniform" = Ok (f, vax)
    /\ length f = 2%nat
    /\ length vax = 3%nat.
Proof.
  destruct (maxwellian_2v_is_isotropic 3 rational_exp 2 3 0 2 1 6
              [1; 1] [1; 1] 0 42 "Uniform" rational_exp_proper)
    as (f & vax & H1 & H2 & _ & H4 & _).
  - discriminate.
  - simpl. lia.
  - exists f, vax. auto.
Defined.

(** ** The initial state *)

Lemma sum_row_plus (x : list Q) : forall y,
  length x = length y ->
  jnp.sum_row (zip_with Qplus x y) == jnp.sum_row x + jnp.sum_row y.
Proof.
  induction x as [|a x IH]; intros [|b y] H; try discriminate.
  - simpl. ring.
  - simpl. fold (jnp.sum_row (zip_with Qplus x y)).
    fold (jnp.sum_row x). fold (jnp.sum_row y).
    rewrite IH by (simpl in H; congruence). ring.
Qed.

Lemma plane_sum_plus nv (p : list (list Q)) : forall q,
  length p = length q ->
  Forall (fun r => length r = nv) p ->
  Forall (fun r => length r = nv) q ->
  vlasov1d2v.plane_sum (zip_with (zip_with Qplus) p q)
  == vlasov1d2v.plane_sum p + vlasov1d2v.plane_sum q.
Proof.
  unfold vlasov1d2v.plane_sum.
  induction p as [|r p IH]; intros [|s q] Hlen Hp Hq; try discriminate.
  - simpl. ring.
  - apply Forall_cons in Hp. destruct Hp as [Hr Hp].
    apply Forall_cons in Hq. destruct Hq as [Hs Hq].
    simpl.
    fold (jnp.sum_row (map jnp.sum_row (zip_with (zip_with Qplus) p q))).
    fold (jnp.sum_row (map jnp.sum_row p)).
    fold (jnp.sum_row (map jnp.sum_row q)).
    rewrite IH by (simpl in Hlen; congruence || assumption).
    rewrite sum_row_plus by congruence. ring.
Qed.

Lemma initialize_distribution_2v_shape pi exp nx nv v0 m vth vmax n_prof T_prof
    nval nseed ntype f vax :
  vlasov1d2v._initialize_distribution_ pi exp nx nv v0 m vth vmax n_prof T_prof
    nval nseed ntype = Ok (f, vax) ->
  shape3 nx nv f.
Proof.
  unfold vlasov1d2v._initialize_distribution_. intros H.
  apply bind_result_Ok_inv in H. destruct H as (dv & _ & H).
  case_decide as Hlen; [|discriminate].
  inversion H; subst; clear H. split.
  - rewrite length_app, length_drop, !length_map, length_replicate. lia.
  - apply Forall_app. split.
    + apply Forall_fmap, Forall_forall. intros item _. simpl.
      split; [rewrite length_map; apply length_linspace|].
      apply Forall_fmap, Forall_forall. intros vj _. simpl.
      rewrite length_map. apply length_linspace.
    + apply Forall_drop, Forall_replicate.
      split; [apply length_replicate|].
      apply Forall_replicate, length_replicate.
Qed.

Lemma shape3_plus nx nv f g :
  shape3 nx nv f -> shape3 nx nv g ->
  shape3 nx nv (zip_with (zip_with (zip_with Qplus)) f g).
Proof.
  intros [Hf Hsf] [Hg Hsg]. split.
  - rewrite length_zip_with. lia.
  - apply Forall_forall. intros plane Hplane.
    apply list_elem_of_lookup_1 in Hplane. destruct Hplane as [i Hi].
    apply lookup_zip_with_Some in Hi. destruct Hi as (p & q & -> & Hp & Hq).
    rewrite Forall_forall in Hsf, Hsg.
    destruct (Hsf p) as [Hlp Hrp]; [eapply list_elem_of_lookup_2; eassumption|].
    destruct (Hsg q) as [Hlq Hrq]; [eapply list_elem_of_lookup_2; eassumption|].
    split; [rewrite length_zip_with; lia|].
    apply Forall_forall. intros r Hr.
    apply list_elem_of_lookup_1 in Hr. destruct Hr as [j Hj].
    apply lookup_zip_with_Some in Hj. destruct Hj as (x & y & -> & Hx & Hy).
    rewrite Forall_forall in Hrp, Hrq.
    rewrite length_zip_with, (Hrp x), (Hrq y); [lia|..];
      eapply list_elem_of_lookup_2; eassumption.
Qed.


Lemma neutral_plus nx nv dv n f g :
  shape3 nx nv f -> shape3 nx nv g -> neutral nv dv n f ->
  neutral nv dv
    (zip_with Qplus n (map (fun plane => vlasov1d2v.plane_sum plane * dv ^ 2) g))
    (zip_with (zip_with (zip_with Qplus)) f g).
Proof.
  intros [Hf Hsf] [Hg Hsg] Hn. unfold neutral in *.
  revert nx g Hf Hg Hsg.
  induction Hn as [|x plane n f Hx Hn IH]; intros nx g Hf Hg Hsg.
  - constructor.
  - destruct g as [|q g]; [simpl in *; lia|].
    apply Forall_cons in Hsf. destruct Hsf as [[Hlp Hrp] Hsf].
    apply Forall_cons in Hsg. destruct Hsg as [[Hlq Hrq] Hsg].
    simpl. constructor.
    + rewrite (plane_sum_plus nv) by (congruence || assumption).
      rewrite Hx. ring.
    + apply (IH Hsf (length f)); [reflexivity | simpl in *; lia | exact Hsg].
Qed.

Lemma species_loop_2v_neutral pi exp get_profile cfg grid items :
  forall n f b n' f' b',
    vlasov1d2v.species_loop pi exp get_profile cfg grid items (n, f, b)
    = Ok (n', f', b') ->
    shape3 (vlasov1d2v.init_nx grid) (vlasov1d2v.init_nv grid) f ->
    neutral (vlasov1d2v.init_nv grid) (vlasov1d2v.init_dv grid) n f ->
    shape3 (vlasov1d2v.init_nx grid) (vlasov1d2v.init_nv grid) f'
    /\ neutral (vlasov1d2v.init_nv grid) (vlasov1d2v.init_dv grid) n' f'.
Proof.
  induction items as [|[name sp] items IH]; intros n f b n' f' b' H Hs Hn.
  - simpl in H. inversion H; subst. auto.
  - cbn [vlasov1d2v.species_loop] in H.
    destruct (String.prefix "species-" name); [|eapply IH; eassumption].
    apply bind_result_Ok_inv in H. destruct H as (profs & _ & H).
    apply bind_result_Ok_inv in H. destruct H as (d & _ & H).
    apply bind_result_Ok_inv in H. destruct H as ([temp_f vax] & Htemp & H).
    apply initialize_distribution_2v_shape in Htemp.
    cbn [fst snd] in H.
    eapply IH; [exact H | |].
    + apply shape3_plus; assumption.
    + eapply neutral_plus; eassumption.
Qed.

(** X29: a state that [init_state] returns holds a distribution of [nx]
    planes of [nv] by [nv] entries, fields "e" and "de" of [nx] entries,
    potentials "a", "da" and "prev_a" of [nx + 2] entries, and "Z" and "ni"
    of [nx] entries; for a non-zero charge it is neutral: in every cell [Z]
    times [ni] is the sum of the distribution over both velocity indices
    times [dv**2], whatever the profiles of the species are. *)
Theorem initial_state_is_neutral
    (pi : Q) (exp : Q -> Q)
    (get_profile : species_params -> helpers_cfg -> option (list Q * list Q))
    (cfg : helpers_cfg) (grid : vlasov1d2v.init_grid) (st : vlasov1d2v.state) :
  vlasov1d2v.init_state pi exp get_profile cfg grid = Ok st ->
  let nx := vlasov1d2v.init_nx grid in
  let nv := vlasov1d2v.init_nv grid in
  shape3 nx nv (vlasov1d2v.electron st)
  /\ length (vlasov1d2v.e st) = nx /\ length (vlasov1d2v.de st) = nx
  /\ length (vlasov1d2v.a st) = (nx + 2)%nat
  /\ length (vlasov1d2v.da st) = (nx + 2)%nat
  /\ length (vlasov1d2v.prev_a st) = (nx + 2)%nat
  /\ length (vlasov1d2v.Z st) = nx /\ length (vlasov1d2v.ni st) = nx
  /\ (~ units_Z (units cfg) == 0 ->
      forall i z n plane,
        vlasov1d2v.Z st !! i = Some z ->
        vlasov1d2v.ni st !! i = Some n ->
        vlasov1d2v.electron st !! i = Some plane ->
        z * n == vlasov1d2v.plane_sum plane * vlasov1d2v.init_dv grid ^ 2).
Proof.
  intros H nx nv. unfold vlasov1d2v.init_state in H.
  apply bind_result_Ok_inv in H. destruct H as ([f ne_prof] & Htot & H).
  inversion H; subst; clear H. cbn [vlasov1d2v.electron vlasov1d2v.e
    vlasov1d2v.de vlasov1d2v.a vlasov1d2v.da vlasov1d2v.prev_a vlasov1d2v.Z
    vlasov1d2v.ni fst snd].
  unfold vlasov1d2v._initialize_total_distribution_ in Htot.
  apply bind_result_Ok_inv in Htot. destruct Htot as ([[n' f'] b'] & Hloop & Htot).
  cbn [fst snd] in Htot. destruct b'; [|discriminate].
  inversion Htot; subst; clear Htot.
  apply species_loop_2v_neutral in Hloop.
  - destruct Hloop as [Hshape Hneutral]. fold nx nv in Hshape, Hneutral.
    assert (Hlen : length ne_prof = nx).
    { apply Forall2_length in Hneutral. destruct Hshape as [Hf _]. lia. }
    split; [exact Hshape|].
    rewrite !length_map, !length_replicate.
    repeat (split; [first [reflexivity | exact Hlen]|]).
    intros HZ i z n plane Hz Hni Hplane.
    rewrite list_lookup_fmap in Hz, Hni.
    destruct (ne_prof !! i) as [x|] eqn:Ex; [|discriminate].
    destruct (replicate (vlasov1d2v.init_nx grid) 1 !! i) as [o|] eqn:Eo;
      [|discriminate].
    apply lookup_replicate in Eo. destruct Eo as [-> _].
    simpl in Hz, Hni. injection Hz as <-. injection Hni as <-.
    unfold neutral in Hneutral.
    pose proof (Forall2_lookup_lr _ _ _ _ _ _ Hneutral Ex Hplane) as Hx.
    simpl in Hx. rewrite <- Hx. field. exact HZ.
  - split.
    + apply length_replicate.
    + apply Forall_replicate. split; [apply length_replicate|].
      apply Forall_replicate, length_replicate.
  - unfold neutral. fold nx.
    apply Forall2_replicate. unfold vlasov1d2v.plane_sum.
    clear. induction (vlasov1d2v.init_nv grid) as [|k IH] at 1.
    + simpl. ring.
    + simpl. fold (jnp.sum_row (map jnp.sum_row
                    (replicate k (replicate (vlasov1d2v.init_nv grid) 0)))).
      assert (Hz : jnp.sum_row (replicate (vlasov1d2v.init_nv grid) 0) == 0).
      { generalize (vlasov1d2v.init_nv grid). intros j.
        induction j as [|j IHj]; simpl; [reflexivity|].
        fold (jnp.sum_row (replicate j 0)). rewrite IHj. ring. }
      rewrite Hz.
      setoid_replace (0 + jnp.sum_row (map jnp.sum_row
                 (replicate k (replicate (vlasov1d2v.init_nv grid) 0))))
        with (jnp.sum_row (map jnp.sum_row
                 (replicate k (replicate (vlasov1d2v.init_nv grid) 0))))
        using relation Qeq by ring.
      exact IH.
Qed.

Lemma initial_state_is_neutral_witness :
  exists st,
    vlasov1d2v.init_state 3 rational_exp (fun _ _ => Some ([1; 1], [1; 1]))
      example_cfg_with_units example_init_grid = Ok st
    /\ length (vlasov1d2v.Z st) = 2%nat
    /\ length (vlasov1d2v.ni st) = 2%nat.
Proof.
  eexists. split; [reflexivity|].
  destruct (initial_state_is_neutral 3 rational_exp
              (fun _ _ => Some ([1; 1], [1; 1]))
              example_cfg_with_units example_init_grid _ eq_refl)
    as (_ & _ & _ & _ & _ & _ & H7 & H8 & _).
  auto.
Defined.


(** * Properties of [utils/misc.py] *)

(** ** Logging the parameters in batches *)

Lemma batch_slice {A} (l : list A) (i : nat) :
  take (Nat.min ((i + 1) * 100) (length l) - i * 100) (drop (i * 100) l)
  = take 100 (drop (i * 100) l).
Proof.
  destruct (le_lt_dec ((i + 1) * 100) (length l)) as [Hle | Hlt].
  - rewrite Nat.min_l by exact Hle. f_equal. lia.
  - rewrite Nat.min_r by lia.
    rewrite !take_ge; [reflexivity|..]; rewrite length_drop; lia.
Qed.

Lemma concat_batches {A} (l : list A) (m : nat) :
  concat (map (fun i => take 100 (drop (i * 100) l)) (seq 0 m))
  = take (100 * m) l.
Proof.
  induction m as [|m IH]; [rewrite Nat.mul_0_r; reflexivity|].
  rewrite seq_S, map_app, concat_app, IH. simpl.
  rewrite app_nil_r.
  replace (m * 100)%nat with (100 * m)%nat by lia.
  rewrite take_take_drop. f_equal. lia.
Qed.

Lemma take_all_iff {A} (l : list A) (k : nat) :
  take k l = l <-> (length l <= k)%nat.
Proof.
  split; [|apply take_ge].
  intros H. apply (f_equal length) in H. rewrite length_take in H. lia.
Qed.

(** X27: up to 100 entries are logged in one call.  Beyond 100 entries the
    number of calls is the remainder of the number of entries by 100, not
    the number of hundreds: each call logs at most 100 entries, together
    the calls log the first [100 * (n mod 100)] entries in order, so every
    entry is logged exactly when [n <= 100 * (n mod 100)], and nothing is
    logged when the number of entries is a multiple of 100. *)
Theorem log_params_batches {K V : Type} (render : V -> V) (cfg : list (K * V)) :
  let n := length cfg in
  let rendered := map (fun kv => (kv.1, render kv.2)) cfg in
  let calls := misc.log_params render cfg in
  ((n <= 100)%nat -> calls = [rendered])
  /\ ((100 < n)%nat ->
      length calls = (n mod 100)%nat
      /\ Forall (fun batch => (length batch <= 100)%nat) calls
      /\ concat calls = take (100 * (n mod 100)) rendered
      /\ (concat calls = rendered <-> (n <= 100 * (n mod 100))%nat)
      /\ ((n mod 100 = 0)%nat -> calls = [])).
Proof.
  intros n rendered calls. unfold calls, misc.log_params. fold n. fold rendered.
  split.
  - intros Hn. rewrite decide_False by lia. reflexivity.
  - intros Hn. rewrite decide_True by exact Hn.
    assert (Hlen : length rendered = n) by apply length_map.
    assert (Hcalls :
              map (fun i =>
                     take (Nat.min ((i + 1) * 100) n - i * 100)
                       (drop (i * 100) rendered)) (seq 0 (n mod 100))
              = map (fun i => take 100 (drop (i * 100) rendered))
                  (seq 0 (n mod 100))).
    { apply map_ext. intros i. rewrite <- Hlen. apply batch_slice. }
    rewrite Hcalls.
    split; [rewrite length_map, length_seq; reflexivity|].
    split.
    { apply Forall_fmap, Forall_forall. intros i _. simpl.
      rewrite length_take. lia. }
    split; [apply concat_batches|].
    split.
    { rewrite concat_batches, take_all_iff, Hlen. reflexivity. }
    intros ->. reflexivity.
Qed.

(** * Two quadratures for the density *)

Lemma sum_versus_trapezoid dv (r : list Q) :
  jnp.sum_row r * dv
  == jnp.trapz_row dv r + dv * (hd 0 r + List.last r 0) / 2.
Proof.
  induction r as [|a [|b r] IH].
  - simpl. field.
  - simpl. field.
  - change (jnp.sum_row (a :: b :: r)) with (a + jnp.sum_row (b :: r)).
    change (jnp.trapz_row dv (a :: b :: r))
      with (dv * (b + a) / 2 + jnp.trapz_row dv (b :: r)).
    change (List.last (a :: b :: r) 0) with (List.last (b :: r) 0).
    change (hd 0 (a :: b :: r)) with a.
    change (hd 0 (b :: r)) with b in IH.
    setoid_replace ((a + jnp.sum_row (b :: r)) * dv)
      with (a * dv + jnp.sum_row (b :: r) * dv) using relation Qeq by ring.
    rewrite IH. field.
Qed.

(** X28: the step and the collision operators integrate over velocity
    differently.  [VlasovMaxwell.moment_x] is the plain sum times [dv], the
    [vx_moment] of the Dougherty and Krook operators is the trapezoidal
    rule; in every cell the first exceeds the second by [dv] times the mean
    of the two edge values of the distribution. *)
Theorem step_density_versus_collision_density
    {D : Type} (self : @VlasovMaxwell.t D) (exp : Q -> Q)
    (rows : list (list Q)) :
  let cfg := VlasovMaxwell.cfg self in
  let dv := grid_dv cfg in
  VlasovMaxwell.moment_x self (Some (jnp.Arr2 rows))
  = Some (jnp.Arr1 (map (fun r => jnp.sum_row r * dv) rows))
  /\ Dougherty.vx_moment (Dougherty.__init__ cfg) (Some (jnp.Arr2 rows))
     = Some (jnp.Arr1 (map (jnp.trapz_row dv) rows))
  /\ Krook.vx_moment (Krook.__init__ exp cfg) (Some (jnp.Arr2 rows))
     = Some (jnp.Arr1 (map (jnp.trapz_row dv) rows))
  /\ forall r,
       jnp.sum_row r * dv
       == jnp.trapz_row dv r + dv * (hd 0 r + List.last r 0) / 2.
Proof.
  intros cfg dv. split; [|split; [|split]].
  - unfold VlasovMaxwell.moment_x. fold cfg. fold dv. simpl.
    rewrite map_map. reflexivity.
  - reflexivity.
  - reflexivity.
  - intros r. apply sum_versus_trapezoid.
Qed.
